(** * Config observers of the kube-apiserver operator: external OIDC and
      RoleBindingRestriction admission plugins

    A shallow embedding of
      - pkg/operator/configobservation/auth/external_oidc.go
        (the observer that writes the [--oidc-*] arguments),
      - the later revision of the same observer that writes
        [--authentication-config] (module [StructuredAuth]),
      - pkg/operator/configobservation/auth/rolebindingrestrictions.go,
    together with the properties the specification states about them.

    Go values are modelled as follows.
      - [map[string]interface{}] documents are [gmap string value]; a nil
        top-level map is [None] of [config].
      - [[]interface{}] is [list value]; a nil slice and an empty slice are
        both [[]], which is how [equality.Semantic.DeepEqual] sees them.
      - an [error] is the call that built it ([fmt.Errorf] with its format and
        arguments) or an error value handed back by a collaborator.
      - the calls on [events.Recorder] and [ResourceSyncer] are collected, in
        program order, in the log of a writer monad [W]. [klog] lines are not
        part of the model. *)

From Stdlib Require Import ZArith String Ascii.
From stdpp Require Import gmap strings list fin_maps sorting.

#[local] Set Warnings "-register-all".

(** ** Unstructured documents *)

(** The dynamic type of an [interface{}] found in an unstructured document.
    Floating point numbers are left out: the observers never build one and
    only ever compare a document leaf against a slice of strings. *)
Inductive value :=
| VNull
| VBool (b : bool)
| VNumber (n : Z)
| VString (s : string)
| VSlice (l : list value)
| VMap (m : gmap string value).

#[global] Instance value_eq_dec : EqDecision value.
Proof.
  refine (fix go (v1 v2 : value) {struct v1} : Decision (v1 = v2) :=
    let _ : EqDecision value := @go in
    match v1, v2 with
    | VNull, VNull => left _
    | VBool b1, VBool b2 => cast_if (decide (b1 = b2))
    | VNumber n1, VNumber n2 => cast_if (decide (n1 = n2))
    | VString s1, VString s2 => cast_if (decide (s1 = s2))
    | VSlice l1, VSlice l2 => cast_if (decide (l1 = l2))
    | VMap m1, VMap m2 => cast_if (decide (m1 = m2))
    | _, _ => right _
    end); abstract congruence.
Defined.

(** [map[string]interface{}], possibly nil. *)
Definition config : Type := option (gmap string value).

(** ** Errors, events and mirror requests *)

(** An error is kept as the call that made it, so that no message has to be
    rendered: [Errorf format args] is [fmt.Errorf(format, args...)];
    [StatusError notFound msg] is an error returned by a lister or by the
    resource syncer, with [notFound] what [errors.IsNotFound] answers on it. *)
Inductive error :=
| Errorf (format : string) (args : list fmtarg)
| StatusError (notFound : bool) (message : string)
with fmtarg :=
| ArgString (s : string)
| ArgInt (n : Z)
| ArgValue (v : value)
| ArgError (e : error).

Definition IsNotFound (err : error) : bool :=
  match err with
  | StatusError notFound _ => notFound
  | Errorf _ _ => false
  end.

(** A Go pair [(x, err)] of which exactly one component is set. *)
Inductive result (A : Type) :=
| Ok (a : A)
| Fail (err : error).
Arguments Ok {A} a.
Arguments Fail {A} err.

(** resourcesynccontroller.ResourceLocation *)
Record ResourceLocation := {
  Namespace : string;
  Name : string;
}.

(** What a pass asks of its two collaborators. *)
Inductive effect :=
| Eventf (reason messageFmt : string) (args : list fmtarg)
| SyncConfigMap (destination source : ResourceLocation).

Definition isEvent (e : effect) : bool :=
  match e with Eventf _ _ _ => true | SyncConfigMap _ _ => false end.

Definition isSync (e : effect) : bool :=
  match e with Eventf _ _ _ => false | SyncConfigMap _ _ => true end.

(** The writer monad that carries the log of collaborator calls. *)
Definition W (A : Type) : Type := A * list effect.

Definition pure {A} (a : A) : W A := (a, []).

Definition bind {A B} (m : W A) (f : A → W B) : W B :=
  let '(a, l1) := m in let '(b, l2) := f a in (b, l1 ++ l2).

Notation "'let*' x ':=' m 'in' k" := (bind m (λ x, k))
  (at level 10, x pattern, m at level 100, k at level 200).

Definition emit (e : effect) : W unit := (tt, [e]).

Definition events {A} (m : W A) : list effect := filter (λ e, isEvent e = true) (snd m).
Definition syncs {A} (m : W A) : list effect := filter (λ e, isSync e = true) (snd m).

Fixpoint foldW {A B} (f : A → B → W A) (a : A) (l : list B) : W A :=
  match l with
  | [] => pure a
  | x :: l' => let* a' := f a x in foldW f a' l'
  end.

(** ** k8s.io/apimachinery unstructured helpers

    The helpers of [unstructured/helpers.go] that the observers call. They are
    vendored code; the definitions follow their documented behaviour, which
    the specification summarises as get/set by key-path where absence is
    "no value" and a wrong type on the path is an error. *)

Definition jsonPath (fields : list string) : string :=
  "." +:+ String.concat "." fields.

Definition accessorError (fields : list string) (val : value) (expected : string) : error :=
  Errorf ("%v accessor error: %v is of the type %T, expected " +:+ expected)
         [ArgString (jsonPath fields); ArgValue val; ArgValue val].

(** The loop of [NestedFieldNoCopy]: [seen] are the fields already walked. *)
Fixpoint nestedFieldFrom (seen : list string) (val : value) (fields : list string)
  : value * bool * option error :=
  match fields with
  | [] => (val, true, None)
  | field :: rest =>
    match val with
    | VNull => (VNull, false, None)
    | VMap m =>
      match m !! field with
      | Some v => nestedFieldFrom (seen ++ [field]) v rest
      | None => (VNull, false, None)
      end
    | _ => (VNull, false,
            Some (accessorError (seen ++ [field]) val "map[string]interface{}"))
    end
  end.

(** A nil map answers every lookup with "not found", like an empty one. *)
Definition NestedFieldNoCopy (obj : config) (fields : list string)
  : value * bool * option error :=
  nestedFieldFrom [] (VMap (default ∅ obj)) fields.

Definition NestedSlice (obj : config) (fields : list string)
  : list value * bool * option error :=
  let '(val, found, err) := NestedFieldNoCopy obj fields in
  if negb found || bool_decide (is_Some err) then ([], found, err)
  else match val with
       | VSlice l => (l, true, None)
       | _ => ([], false, Some (accessorError fields val "[]interface{}"))
       end.

(** The conversion loop of [NestedStringSlice]: stops at the first item that
    is not a string. *)
Fixpoint toStringSlice (fields : list string) (m : list value) : result (list string) :=
  match m with
  | [] => Ok []
  | VString str :: m' =>
    match toStringSlice fields m' with
    | Ok strSlice => Ok (str :: strSlice)
    | Fail err => Fail err
    end
  | v :: _ =>
    Fail (Errorf "%v accessor error: contains non-string key in the slice: %v is of the type %T, expected string"
                 [ArgString (jsonPath fields); ArgValue v; ArgValue v])
  end.

Definition NestedStringSlice (obj : config) (fields : list string)
  : list string * bool * option error :=
  let '(val, found, err) := NestedFieldNoCopy obj fields in
  if negb found || bool_decide (is_Some err) then ([], found, err)
  else match val with
       | VSlice m =>
         match toStringSlice fields m with
         | Ok strSlice => (strSlice, true, None)
         | Fail e => ([], false, Some e)
         end
       | _ => ([], false, Some (accessorError fields val "[]interface{}"))
       end.

(** [setNestedFieldNoCopy]: the document after the assignment, and the error.
    The Go function is never called with an empty path (it would panic). *)
Fixpoint setNestedFrom (seen : list string) (m : gmap string value) (val : value)
    (fields : list string) : gmap string value * option error :=
  match fields with
  | [] => (m, None)
  | [field] => (<[field := val]> m, None)
  | field :: rest =>
    match m !! field with
    | Some (VMap valMap) =>
      let '(valMap', err) := setNestedFrom (seen ++ [field]) valMap val rest in
      (<[field := VMap valMap']> m, err)
    | Some _ =>
      (m, Some (Errorf "value cannot be set because %v is not a map[string]interface{}"
                       [ArgString (jsonPath (seen ++ [field]))]))
    | None =>
      let '(newVal, err) := setNestedFrom (seen ++ [field]) ∅ val rest in
      (<[field := VMap newVal]> m, err)
    end
  end.

Definition SetNestedField (obj : gmap string value) (val : value) (fields : list string)
  : gmap string value * option error :=
  setNestedFrom [] obj val fields.

Definition SetNestedSlice (obj : gmap string value) (val : list value) (fields : list string)
  : gmap string value * option error :=
  SetNestedField obj (VSlice val) fields.

Definition SetNestedStringSlice (obj : gmap string value) (val : list string)
    (fields : list string) : gmap string value * option error :=
  SetNestedField obj (VSlice (VString <$> val)) fields.

(** [equality.Semantic.DeepEqual] on document values: structural equality in
    which nil and empty containers coincide, which is equality of the model. *)
Definition DeepEqual {A} `{EqDecision A} (a b : A) : bool := bool_decide (a = b).

(** ** API types (github.com/openshift/api/config/v1, k8s.io/api/core/v1)

    Only the fields the observers read. The string-typed enumerations of the
    API stay strings, so that a value outside the enumeration is an input. *)

Record ConfigMapNameReference := { ref_Name : string }.

Record TokenIssuer := {
  URL : string;
  CertificateAuthority : ConfigMapNameReference;
}.

Record OIDCClientConfig := {
  ComponentName : string;
  ComponentNamespace : string;
  ClientID : string;
}.

Record TokenClaimMapping := { Claim : string }.

Record UsernamePrefix := { PrefixString : string }.

Record UsernameClaimMapping := {
  username_TokenClaimMapping : TokenClaimMapping;
  PrefixPolicy : string;
  username_Prefix : option UsernamePrefix;
}.

Record PrefixedClaimMapping := {
  groups_TokenClaimMapping : TokenClaimMapping;
  groups_Prefix : string;
}.

Record TokenClaimMappings := {
  Username : UsernameClaimMapping;
  Groups : PrefixedClaimMapping;
}.

Record TokenRequiredClaim := {
  required_Claim : string;
  RequiredValue : string;
}.

Record TokenClaimValidationRule := {
  rule_Type : string;
  RequiredClaim : option TokenRequiredClaim;
}.

Record OIDCProvider := {
  provider_Name : string;
  Issuer : TokenIssuer;
  OIDCClients : list OIDCClientConfig;
  ClaimMappings : TokenClaimMappings;
  ClaimValidationRules : list TokenClaimValidationRule;
}.

Record AuthenticationSpec := {
  spec_Type : string;
  OIDCProviders : list OIDCProvider;
}.

Record Authentication := { Spec : AuthenticationSpec }.

Record ConfigMap := {
  cm_Name : string;
  cm_Namespace : string;
  Data : gmap string string;
}.

Definition AuthenticationTypeIntegratedOAuth : string := "IntegratedOAuth".
Definition AuthenticationTypeNone : string := "None".
Definition AuthenticationTypeOIDC : string := "OIDC".

Definition NoOpinion : string := "".
Definition NoPrefix : string := "NoPrefix".
Definition Prefix : string := "Prefix".

Definition TokenValidationRuleTypeRequiredClaim : string := "RequiredClaim".

(** features.FeatureGateExternalOIDC *)
Definition FeatureGateExternalOIDC : string := "ExternalOIDC".

(** operatorclient.TargetNamespace *)
Definition TargetNamespace : string := "openshift-kube-apiserver".

(** ** Collaborators *)

(** featuregates.FeatureGate: the answer of [Enabled] per gate name. *)
Record FeatureGate := { Enabled : string → bool }.

(** featuregates.FeatureGateAccess, as a snapshot of what its two methods
    answer during one pass. *)
Record FeatureGateAccess := {
  AreInitialFeatureGatesObserved : bool;
  CurrentFeatureGates : result FeatureGate;
}.

(** configobservation.Listers, as a snapshot of what the listers answer during
    one pass, and what the resource syncer answers to a request. A lister
    answers with the object, or with an error for which [IsNotFound] may
    hold. *)
Record Listers := {
  AuthConfigLister_Get : string → result Authentication;
  ConfigMapLister_Get : string → string → result ConfigMap;
  ResourceSyncer_SyncConfigMap : ResourceLocation → ResourceLocation → option error;
}.

(** [resourceSyncer.SyncConfigMap(destination, source)]: the request is
    logged, the syncer's answer is returned. *)
Definition requestSyncConfigMap (listers : Listers) (destination source : ResourceLocation)
  : W (option error) :=
  (ResourceSyncer_SyncConfigMap listers destination source,
   [SyncConfigMap destination source]).

(** net/url.URL, the field that is read. *)
Record url_URL := { Scheme : string }.

(** ** external_oidc.go *)

Definition eventComponentName : string := "ObserveExternalOIDC".
Definition componentName : string := "kube-apiserver".
Definition caBundleSourceNamespace : string := "openshift-config".
Definition TargetOIDCCAConfigMapName : string := "oidc-serving-ca-bundle".
Definition staticCABundleFilePath : string :=
  "/etc/kubernetes/static-pod-resources/configmaps/oidc-serving-ca-bundle/ca-bundle.crt".
Definition apiServerArgumentsPath : string := "apiServerArguments".

Definition oidcIssuerURLPath : string := "oidc-issuer-url".
Definition oidcClientIDPath : string := "oidc-client-id".
Definition oidcUsernameClaimPath : string := "oidc-username-claim".
Definition oidcUsernamePrefixPath : string := "oidc-username-prefix".
Definition oidcGroupsClaimPath : string := "oidc-groups-claim".
Definition oidcGroupsPrefixPath : string := "oidc-groups-prefix".
Definition oidcRequiredClaimPath : string := "oidc-required-claim".
Definition oidcCAFilePath : string := "oidc-ca-file".

(** The path list that [observeExternalOIDC] and [oidcConfigExists] range
    over. *)
Definition oidcPaths : list string := [
  oidcIssuerURLPath;
  oidcClientIDPath;
  oidcUsernameClaimPath;
  oidcUsernamePrefixPath;
  oidcGroupsClaimPath;
  oidcGroupsPrefixPath;
  oidcRequiredClaimPath;
  oidcCAFilePath
].

Record externalOIDC := { featureGateAccessor : FeatureGateAccess }.

Definition getOIDCClientForComponent (auth : Authentication) (name namespace : string)
  : option OIDCClientConfig :=
  match OIDCProviders (Spec auth) with
  | provider :: _ =>
    List.find (λ clientConfig,
                 String.eqb (ComponentName clientConfig) name
                 && String.eqb (ComponentNamespace clientConfig) namespace)
              (OIDCClients provider)
  | [] => None
  end.

Definition cmNeedsSync (listers : Listers)
    (destinationCMName destinationCMNamespace sourceCMName sourceCMNamespace key : string)
  : bool * option error :=
  match ConfigMapLister_Get listers destinationCMNamespace destinationCMName with
  | Fail err =>
    if IsNotFound err then (true, None) else (false, Some err)
  | Ok existingCM =>
    if (String.length sourceCMName =? 0)%nat then (true, None)
    else
      match ConfigMapLister_Get listers sourceCMNamespace sourceCMName with
      | Fail err => (false, Some err)
      | Ok sourceCM =>
        if (String.length key =? 0)%nat then
          (negb (DeepEqual (Data existingCM) (Data sourceCM)), None)
        else
          match Data existingCM !! key, Data sourceCM !! key with
          | Some val1, Some val2 => (negb (String.eqb val1 val2), None)
          | found1, None =>
            match found1 with
            | None =>
              (false, Some (Errorf "key '%s' not found in either configmap" [ArgString key]))
            | Some _ =>
              (false, Some (Errorf "key '%s' not found in source configmap" [ArgString key]))
            end
          | None, Some _ => (true, None)
          end
      end
  end.

Definition syncCABundleIfNeeded (listers : Listers) (provider : OIDCProvider)
  : W (bool * option error) :=
  let '(caBundleSyncNeeded, err) :=
    cmNeedsSync listers TargetOIDCCAConfigMapName TargetNamespace
                (ref_Name (CertificateAuthority (Issuer provider)))
                caBundleSourceNamespace "ca-bundle.crt" in
  let caBundleSyncNeeded :=
    match err with
    | Some _ => true
    | None => caBundleSyncNeeded
    end in
  if negb caBundleSyncNeeded then pure (false, None)
  else
    let sourceName := ref_Name (CertificateAuthority (Issuer provider)) in
    let sourceNamespace :=
      if (String.length sourceName =? 0)%nat then "" else caBundleSourceNamespace in
    let* err := requestSyncConfigMap listers
                  {| Namespace := TargetNamespace; Name := TargetOIDCCAConfigMapName |}
                  {| Namespace := sourceNamespace; Name := sourceName |} in
    match err with
    | Some err => pure (false, Some err)
    | None => pure (true, None)
    end.

(** The loop of [oidcConfigExists]. *)
Fixpoint oidcConfigExistsIn (cfg : config) (paths : list string) : bool * option error :=
  match paths with
  | [] => (false, None)
  | path :: paths' =>
    let '(_, found, err) := NestedSlice cfg [apiServerArgumentsPath; path] in
    match err with
    | Some err => (false, Some err)
    | None => if found then (true, None) else oidcConfigExistsIn cfg paths'
    end
  end.

Definition oidcConfigExists (cfg : config) : bool * option error :=
  oidcConfigExistsIn cfg oidcPaths.

(** The state of the merge loop of [observeExternalOIDC]. *)
Record mergeState := {
  st_configChanged : bool;
  st_observedConfig : gmap string value;
  st_errs : list error;
}.

Section ExternalOIDC.

(** [url.Parse] of the Go standard library. The observer reads nothing but
    whether parsing fails and, if not, the scheme; the parser is a parameter
    of the embedding. *)
Variable url_Parse : string → result url_URL.

(** The loop body over [provider.ClaimValidationRules]: rule [rule] at index
    [i], acting on the values map and the error list. *)
Definition claimValidationRule (i : nat) (rule : TokenClaimValidationRule)
    (acc : gmap string (list value) * list error)
  : gmap string (list value) * list error :=
  let '(oidcConfigValues, errs) := acc in
  let hasErrors := false in
  let '(hasErrors, errs) :=
    if negb (String.eqb (rule_Type rule) TokenValidationRuleTypeRequiredClaim)
    then (true, errs ++ [Errorf "invalid claim validation rule type: %s"
                                [ArgString (rule_Type rule)]])
    else (hasErrors, errs) in
  let '(hasErrors, errs) :=
    match RequiredClaim rule with
    | None => (true, errs ++ [Errorf "empty validation rule at index %d"
                                     [ArgInt (Z.of_nat i)]])
    | Some _ => (hasErrors, errs)
    end in
  match hasErrors, RequiredClaim rule with
  | false, Some requiredClaim =>
    (alter (λ claims, <[i := VString (required_Claim requiredClaim +:+ "=" +:+
                                      RequiredValue requiredClaim)]> claims)
           oidcRequiredClaimPath oidcConfigValues,
     errs)
  | _, _ => (oidcConfigValues, errs)
  end.

Fixpoint claimValidationRules (i : nat) (rules : list TokenClaimValidationRule)
    (acc : gmap string (list value) * list error)
  : gmap string (list value) * list error :=
  match rules with
  | [] => acc
  | rule :: rules' => claimValidationRules (S i) rules' (claimValidationRule i rule acc)
  end.

(** The field-by-field translation of [observeExternalOIDC], block by block
    in source order. Each block acts on the values to configure per path
    ([oidcConfigValues]) and on the accumulated errors ([errs]). *)

(** issuer URL is required (https) *)
Definition issuerURLField (provider : OIDCProvider)
    (acc : gmap string (list value) * list error) : gmap string (list value) * list error :=
  let '(oidcConfigValues, errs) := acc in
  match url_Parse (URL (Issuer provider)) with
  | Fail err => (oidcConfigValues, errs ++ [err])
  | Ok issuerURL =>
    if negb (String.eqb (Scheme issuerURL) "https")
    then (oidcConfigValues, errs ++ [Errorf "https is required for provider URL" []])
    else (<[oidcIssuerURLPath := [VString (URL (Issuer provider))]]> oidcConfigValues, errs)
  end.

(** OIDC client ID is required *)
Definition clientIDField (clientConfig : OIDCClientConfig)
    (acc : gmap string (list value) * list error) : gmap string (list value) * list error :=
  let '(oidcConfigValues, errs) := acc in
  if (0 <? String.length (ClientID clientConfig))%nat
  then (<[oidcClientIDPath := [VString (ClientID clientConfig)]]> oidcConfigValues, errs)
  else (oidcConfigValues, errs ++ [Errorf "OIDC client ID not set" []]).

(** username claim, groups claim, groups prefix: set when not empty *)
Definition claimMappingFields (provider : OIDCProvider)
    (acc : gmap string (list value) * list error) : gmap string (list value) * list error :=
  let '(oidcConfigValues, errs) := acc in
  let usernameClaim := Claim (username_TokenClaimMapping (Username (ClaimMappings provider))) in
  let oidcConfigValues :=
    if (0 <? String.length usernameClaim)%nat
    then <[oidcUsernameClaimPath := [VString usernameClaim]]> oidcConfigValues
    else oidcConfigValues in
  let groupsClaim := Claim (groups_TokenClaimMapping (Groups (ClaimMappings provider))) in
  let oidcConfigValues :=
    if (0 <? String.length groupsClaim)%nat
    then <[oidcGroupsClaimPath := [VString groupsClaim]]> oidcConfigValues
    else oidcConfigValues in
  let groupsPrefix := groups_Prefix (Groups (ClaimMappings provider)) in
  let oidcConfigValues :=
    if (0 <? String.length groupsPrefix)%nat
    then <[oidcGroupsPrefixPath := [VString groupsPrefix]]> oidcConfigValues
    else oidcConfigValues in
  (oidcConfigValues, errs).

(** [switch provider.ClaimMappings.Username.PrefixPolicy] *)
Definition usernamePrefixField (provider : OIDCProvider)
    (acc : gmap string (list value) * list error) : gmap string (list value) * list error :=
  let '(oidcConfigValues, errs) := acc in
  let prefixPolicy := PrefixPolicy (Username (ClaimMappings provider)) in
  if String.eqb prefixPolicy NoOpinion then
    (* do not pass --oidc-username-prefix for the default behaviour *)
    (oidcConfigValues, errs)
  else if String.eqb prefixPolicy NoPrefix then
    (* "-" disables any prefix *)
    (<[oidcUsernamePrefixPath := [VString "-"]]> oidcConfigValues, errs)
  else if String.eqb prefixPolicy Prefix then
    (* prefix value must be specified *)
    match username_Prefix (Username (ClaimMappings provider)) with
    | None => (oidcConfigValues,
               errs ++ [Errorf "nil username prefix while policy expects one" []])
    | Some prefix =>
      (<[oidcUsernamePrefixPath := [VString (PrefixString prefix)]]> oidcConfigValues, errs)
    end
  else (oidcConfigValues, errs).

(** [if len(provider.ClaimValidationRules) > 0]: a slice of that length, filled
    by the loop over the rules *)
Definition requiredClaimField (provider : OIDCProvider)
    (acc : gmap string (list value) * list error) : gmap string (list value) * list error :=
  let '(oidcConfigValues, errs) := acc in
  if (0 <? length (ClaimValidationRules provider))%nat then
    claimValidationRules 0 (ClaimValidationRules provider)
      (<[oidcRequiredClaimPath := replicate (length (ClaimValidationRules provider)) VNull]>
         oidcConfigValues,
       errs)
  else (oidcConfigValues, errs).

(** [if len(provider.Issuer.CertificateAuthority.Name) > 0] *)
Definition caFileField (provider : OIDCProvider)
    (acc : gmap string (list value) * list error) : gmap string (list value) * list error :=
  let '(oidcConfigValues, errs) := acc in
  if (0 <? String.length (ref_Name (CertificateAuthority (Issuer provider))))%nat
  then (<[oidcCAFilePath := [VString staticCABundleFilePath]]> oidcConfigValues, errs)
  else (oidcConfigValues, errs).

(** [observeExternalOIDC] from the issuer URL check down to the CA file. *)
Definition oidcFieldValues (provider : OIDCProvider) (clientConfig : OIDCClientConfig)
  : gmap string (list value) * list error :=
  let errs : list error := [] in
  let oidcConfigValues : gmap string (list value) := ∅ in
  caFileField provider
    (requiredClaimField provider
       (usernamePrefixField provider
          (claimMappingFields provider
             (clientIDField clientConfig
                (issuerURLField provider (oidcConfigValues, errs)))))).

(** The body of the loop over [oidcPaths] in [observeExternalOIDC]. *)
Definition mergeStep (existingConfig : config) (oidcConfigValues : gmap string (list value))
    (st : mergeState) (path : string) : W mergeState :=
  let newVal := default [] (oidcConfigValues !! path) in
  let newValConfigured := bool_decide (is_Some (oidcConfigValues !! path)) in
  (* check if we have made any changes to the OIDC config *)
  let st :=
    if negb (st_configChanged st) then
      let '(existingValue, _, err) :=
        NestedSlice existingConfig [apiServerArgumentsPath; path] in
      match err with
      | Some err =>
        {| st_configChanged := st_configChanged st;
           st_observedConfig := st_observedConfig st;
           st_errs := st_errs st ++ [err] |}
      | None =>
        if negb (DeepEqual existingValue newVal)
        then {| st_configChanged := true;
                st_observedConfig := st_observedConfig st;
                st_errs := st_errs st |}
        else st
      end
    else st in
  if negb newValConfigured then
    (* skip oidc config paths that haven't been set *)
    pure st
  else
    let '(observedConfig', err) :=
      SetNestedSlice (st_observedConfig st) newVal [apiServerArgumentsPath; path] in
    match err with
    | Some err =>
      let* _ := emit (Eventf eventComponentName "Failed setting '%s': %v"
                             [ArgString path; ArgError err]) in
      pure {| st_configChanged := st_configChanged st;
              st_observedConfig := observedConfig';
              st_errs := st_errs st ++ [err] |}
    | None =>
      pure {| st_configChanged := st_configChanged st;
              st_observedConfig := observedConfig';
              st_errs := st_errs st |}
    end.

Definition observeExternalOIDC (auth : Authentication) (listers : Listers)
    (existingConfig : config) : W (config * list error) :=
  let errs : list error := [] in
  match OIDCProviders (Spec auth) with
  | [provider] =>
    match getOIDCClientForComponent auth componentName TargetNamespace with
    | None =>
      pure (existingConfig,
            errs ++ [Errorf "no OIDC client config found for component %s/%s"
                            [ArgString componentName; ArgString TargetNamespace]])
    | Some clientConfig =>
      let '(oidcConfigValues, errs) := oidcFieldValues provider clientConfig in
      if (0 <? length errs)%nat then
        (* do not continue to sync if any errors were encountered *)
        pure (existingConfig, errs)
      else
        let* (caBundleSynced, err) := syncCABundleIfNeeded listers provider in
        match err with
        | Some err => pure (existingConfig, errs ++ [err])
        | None =>
          let* st := foldW (mergeStep existingConfig oidcConfigValues)
                           {| st_configChanged := false; st_observedConfig := ∅; st_errs := errs |}
                           oidcPaths in
          let* _ := (if caBundleSynced
                     then emit (Eventf eventComponentName
                                       "ExternalOIDC CA bundle configmap synced" [])
                     else pure tt) in
          let* _ := (if st_configChanged st
                     then emit (Eventf eventComponentName
                                       "ExternalOIDC configuration changed" [])
                     else pure tt) in
          pure (Some (st_observedConfig st), st_errs st)
        end
    end
  | _ =>
    (* this should never happen; resource is CEL-validated *)
    pure (existingConfig,
          errs ++ [Errorf "exactly one OIDC provider must be configured in authentication.config/cluster resource" []])
  end.

(** ObserveExternalOIDC observes the authentication.config/cluster resource
    and, if the type is OIDC, configures the [--oidc-*] arguments and keeps
    the CA bundle configmap mirrored. *)
Definition ObserveExternalOIDC (o : externalOIDC) (genericListers : Listers)
    (existingConfig : config) : W (config * list error) :=
  if negb (AreInitialFeatureGatesObserved (featureGateAccessor o)) then
    (* if we haven't observed featuregates yet, return the existing *)
    pure (existingConfig, [])
  else
    match CurrentFeatureGates (featureGateAccessor o) with
    | Fail err => pure (existingConfig, [err])
    | Ok featureGates =>
      if negb (Enabled featureGates FeatureGateExternalOIDC) then
        pure (existingConfig, [])
      else
        let errs : list error := [] in
        let listers := genericListers in
        match AuthConfigLister_Get listers "cluster" with
        | Fail err =>
          if IsNotFound err then pure (existingConfig, [])
          else pure (existingConfig, errs ++ [err])
        | Ok auth =>
          let type := spec_Type (Spec auth) in
          if String.eqb type AuthenticationTypeIntegratedOAuth
             || String.eqb type AuthenticationTypeNone
             || String.eqb type "" then
            (* sync an empty configmap to effectively remove the OIDC CA
               bundle if it exists *)
            let* err := requestSyncConfigMap listers
                          {| Namespace := TargetNamespace; Name := TargetOIDCCAConfigMapName |}
                          {| Namespace := ""; Name := "" |} in
            match err with
            | Some err => pure (existingConfig, errs ++ [err])
            | None =>
              let '(oidcAlreadyExists, err) := oidcConfigExists existingConfig in
              match err with
              | Some err => pure (existingConfig, errs ++ [err])
              | None =>
                let* _ := (if oidcAlreadyExists
                           then emit (Eventf eventComponentName
                                             "Removed ExternalOIDC configuration" [])
                           else pure tt) in
                pure (None, [])
              end
            end
          else if String.eqb type AuthenticationTypeOIDC then
            observeExternalOIDC auth listers existingConfig
          else
            (* this should never happen; resource is CEL-validated *)
            pure (existingConfig,
                  errs ++ [Errorf "invalid auth type: %s" [ArgString type]])
        end
    end.

End ExternalOIDC.

(** ** The parser used to run the observer

    The scheme scan of [net/url] ([getScheme], then lower-casing). The later
    stages of [url.Parse] (authority, escapes, control bytes) are not
    modelled; this instance serves to evaluate the observer on concrete
    resources whose URL those stages accept. The general theorems hold for
    every parser. *)

Definition isLetter (c : ascii) : bool :=
  let n := nat_of_ascii c in
  ((97 <=? n) && (n <=? 122) || (65 <=? n) && (n <=? 90))%nat.

Definition isSchemeMark (c : ascii) : bool :=
  let n := nat_of_ascii c in
  ((48 <=? n) && (n <=? 57) || (n =? 43) || (n =? 45) || (n =? 46))%nat.

Definition toLower (c : ascii) : ascii :=
  let n := nat_of_ascii c in
  if ((65 <=? n) && (n <=? 90))%nat then ascii_of_nat (n + 32) else c.

Fixpoint getSchemeFrom (seen rest : string) : result (string * string) :=
  match rest with
  | EmptyString => Ok ("", seen)
  | String c rest' =>
    if isLetter c then getSchemeFrom (seen +:+ String c "") rest'
    else if isSchemeMark c then
      match seen with
      | EmptyString => Ok ("", rest)
      | _ => getSchemeFrom (seen +:+ String c "") rest'
      end
    else if Ascii.eqb c ":" then
      match seen with
      | EmptyString => Fail (Errorf "missing protocol scheme" [])
      | _ => Ok (seen, rest')
      end
    else Ok ("", seen +:+ rest)
  end.

Definition getScheme (rawURL : string) : result (string * string) :=
  getSchemeFrom "" rawURL.

Definition stringToLower (s : string) : string :=
  string_of_list_ascii (toLower <$> list_ascii_of_string s).

Definition url_Parse_scheme (rawURL : string) : result url_URL :=
  match getScheme rawURL with
  | Fail err => Fail err
  | Ok (scheme, _) => Ok {| Scheme := stringToLower scheme |}
  end.

(** ** library-go: pruning a document to its owned paths *)

Definition isEmptyContainer (v : value) : bool :=
  match v with
  | VSlice l => bool_decide (l = [])
  | VMap m => bool_decide (m = ∅)
  | _ => false
  end.

(** One path of [Pruned]: copy the value at [pth] from [obj] into [ret]. *)
Definition prunePath (obj : config) (ret : gmap string value) (pth : list string)
  : gmap string value :=
  let '(x, found, err) := NestedFieldNoCopy obj pth in
  if negb found || bool_decide (is_Some err) || isEmptyContainer x then ret
  else fst (SetNestedField ret x pth).

(** Modelled from the spec: [configobserver.Pruned] of library-go is not among
    the sources. The specification gives a tree "get/set/prune-by-path
    semantics", has a fragment "restricted to the observer's owned paths", and
    says of pruning that "a pruning pass removes any path whose value is
    empty". So: everything outside the given paths is dropped, a path that
    cannot be read is dropped, and a path holding an empty sequence or map is
    dropped. A nil document stays nil. *)
Definition Pruned (obj : config) (pths : list (list string)) : config :=
  match obj with
  | None => None
  | Some _ => Some (foldl (prunePath obj) ∅ pths)
  end.

(** ** k8s.io/apimachinery sets.String *)

Definition string_le (s1 s2 : string) : Prop := String.leb s1 s2 = true.

#[global] Instance string_le_dec : RelDecision string_le.
Proof. intros s1 s2. unfold string_le. apply _. Defined.

(** [sets.NewString(items...)] *)
Definition NewString (items : list string) : gset string := list_to_set items.

(** [s.Insert(items...)] *)
Definition Insert (s : gset string) (items : list string) : gset string :=
  s ∪ list_to_set items.

(** [s.List()]: the members, sorted. *)
Definition List (s : gset string) : list string := merge_sort string_le (elements s).

(** ** rolebindingrestrictions.go *)

Definition disableAdmissionPluginsPath : list string :=
  ["apiServerArguments"; "disable-admission-plugins"].

Definition rbrPlugins : list string := [
  "authorization.openshift.io/RestrictSubjectBindings";
  "authorization.openshift.io/ValidateRoleBindingRestriction"
].

(** The body of [ObserveRoleBindingRestrictionPlugins]: what each [return]
    statement hands to the deferred function. *)
Definition observeRoleBindingRestrictionPlugins (genericListers : Listers)
    (existingConfig : config) : W (config * list error) :=
  let observedConfig : gmap string value := ∅ in
  let listers := genericListers in
  match AuthConfigLister_Get listers "cluster" with
  | Fail err =>
    if IsNotFound err then
      let* _ := emit (Eventf "ObserveRoleBindingRestrictions"
                             "authentications.config.openshift.io/cluster: not found" []) in
      pure (Some observedConfig, [])
    else pure (existingConfig, [err])
  | Ok auth =>
    let type := spec_Type (Spec auth) in
    if String.eqb type AuthenticationTypeIntegratedOAuth || (String.length type =? 0)%nat then
      (* the plugins will be enabled by default *)
      pure (existingConfig, [])
    else
      (* the merger used to merge the observed configs will not merge slices,
         so we have to do it manually *)
      let '(disabled, _, err) :=
        NestedStringSlice existingConfig disableAdmissionPluginsPath in
      match err with
      | Some err => pure (existingConfig, [err])
      | None =>
        let disabledSet := NewString disabled in
        let disabledSet := Insert disabledSet rbrPlugins in
        let '(observedConfig, err) :=
          SetNestedStringSlice observedConfig (List disabledSet)
                               disableAdmissionPluginsPath in
        match err with
        | Some err => pure (existingConfig, [err])
        | None => pure (Some observedConfig, [])
        end
      end
  end.

(** ObserveRoleBindingRestrictionPlugins: the body above, followed by the
    deferred [ret = configobserver.Pruned(ret, disableAdmissionPluginsPath)]. *)
Definition ObserveRoleBindingRestrictionPlugins (genericListers : Listers)
    (existingConfig : config) : W (config * list error) :=
  let* (ret, errs) := observeRoleBindingRestrictionPlugins genericListers existingConfig in
  pure (Pruned ret [disableAdmissionPluginsPath], errs).

(** ** The later revision of the OIDC observer ([--authentication-config]) *)

Module StructuredAuth.

Definition apiServerArgumentsPath : string := "apiServerArguments".
Definition argAuthConfig : string := "authentication-config".

Definition SourceAuthConfigCMNamespace : string := "openshift-config-managed".
Definition AuthConfigCMName : string := "auth-config".
Definition authConfigKeyName : string := "auth-config.json".

(** [path.Join("/etc/kubernetes/static-pod-resources/configmaps/",
    AuthConfigCMName, authConfigKeyName)] *)
Definition authConfigFilePath : string :=
  "/etc/kubernetes/static-pod-resources/configmaps/auth-config/auth-config.json".

Definition syncConfigMap (syncer : Listers) (sourceName sourceNamespace : string)
  : W (option error) :=
  let* err := requestSyncConfigMap syncer
                {| Namespace := TargetNamespace; Name := AuthConfigCMName |}
                {| Namespace := sourceNamespace; Name := sourceName |} in
  match err with
  | Some err => pure (Some err)
  | None =>
    let* _ :=
      (if (String.length sourceName =? 0)%nat
       then emit (Eventf "ObserveExternalOIDC" "deleted configmap %s/%s"
                         [ArgString TargetNamespace; ArgString AuthConfigCMName])
       else emit (Eventf "ObserveExternalOIDC"
                         "sync requested for configmap %s/%s to %s/%s"
                         [ArgString sourceNamespace; ArgString sourceName;
                          ArgString TargetNamespace; ArgString AuthConfigCMName])) in
    pure None
  end.

Definition ObserveExternalOIDC (o : externalOIDC) (genericListers : Listers)
    (existingConfig : config) : W (config * list error) :=
  if negb (AreInitialFeatureGatesObserved (featureGateAccessor o)) then
    (* if we haven't observed featuregates yet, return the existing *)
    pure (existingConfig, [])
  else
    match CurrentFeatureGates (featureGateAccessor o) with
    | Fail err => pure (existingConfig, [err])
    | Ok featureGates =>
      if negb (Enabled featureGates FeatureGateExternalOIDC) then
        pure (existingConfig, [])
      else
        let listers := genericListers in
        match AuthConfigLister_Get listers "cluster" with
        | Fail err =>
          if IsNotFound err then
            let* _ := emit (Eventf "ObserveExternalOIDC"
                                   "authentications.config.openshift.io/cluster: not found"
                                   []) in
            pure (existingConfig, [])
          else pure (existingConfig, [err])
        | Ok auth =>
          if negb (String.eqb (spec_Type (Spec auth)) AuthenticationTypeOIDC) then
            match ConfigMapLister_Get listers TargetNamespace AuthConfigCMName with
            | Fail err =>
              if IsNotFound err then pure (None, [])
              else pure (existingConfig,
                         [Errorf "failed to get configmap %s/%s: %v"
                                 [ArgString TargetNamespace; ArgString AuthConfigCMName;
                                  ArgError err]])
            | Ok _ =>
              (* empty source name/namespace effectively deletes target configmap *)
              let* err := syncConfigMap genericListers "" "" in
              match err with
              | Some err => pure (existingConfig, [err])
              | None => pure (None, [])
              end
            end
          else
            (* auth type is OIDC *)
            match ConfigMapLister_Get listers SourceAuthConfigCMNamespace AuthConfigCMName with
            | Fail err =>
              if IsNotFound err then pure (existingConfig, [])
              else pure (existingConfig,
                         [Errorf "failed to get configmap %s/%s: %v"
                                 [ArgString SourceAuthConfigCMNamespace;
                                  ArgString AuthConfigCMName; ArgError err]])
            | Ok sourceAuthConfig =>
              let authConfigRaw := default "" (Data sourceAuthConfig !! authConfigKeyName) in
              if (String.length authConfigRaw =? 0)%nat then
                pure (existingConfig,
                      [Errorf "configmap %s/%s is invalid: key '%s' missing or value empty"
                              [ArgString SourceAuthConfigCMNamespace;
                               ArgString AuthConfigCMName; ArgString authConfigKeyName]])
              else
                let afterSync (synced : option error) : W (config * list error) :=
                  match synced with
                  | Some err => pure (existingConfig, [err])
                  | None =>
                    let '(observedConfig, err) :=
                      SetNestedStringSlice ∅ [authConfigFilePath]
                                           [apiServerArgumentsPath; argAuthConfig] in
                    match err with
                    | Some err => pure (existingConfig, [err])
                    | None => pure (Some observedConfig, [])
                    end
                  end in
                let syncIfDiffers (needed : bool) : W (config * list error) :=
                  if needed then
                    let* err := syncConfigMap genericListers (cm_Name sourceAuthConfig)
                                              (cm_Namespace sourceAuthConfig) in
                    afterSync err
                  else afterSync None in
                match ConfigMapLister_Get listers TargetNamespace AuthConfigCMName with
                | Fail err =>
                  if negb (IsNotFound err) then pure (existingConfig, [err])
                  else syncIfDiffers true
                | Ok targetAuthConfig =>
                  syncIfDiffers
                    (negb (DeepEqual (Data targetAuthConfig) (Data sourceAuthConfig)))
                end
            end
        end
    end.

End StructuredAuth.

(** * Notions used in the statements *)

(** The feature gate has been observed and is enabled. *)
Definition gateEnabled (o : externalOIDC) : Prop :=
  AreInitialFeatureGatesObserved (featureGateAccessor o) = true
  ∧ ∃ featureGates,
      CurrentFeatureGates (featureGateAccessor o) = Ok featureGates
      ∧ Enabled featureGates FeatureGateExternalOIDC = true.

(** The two ends of the CA bundle mirror link. *)
Definition caBundleTarget : ResourceLocation :=
  {| Namespace := TargetNamespace; Name := TargetOIDCCAConfigMapName |}.

Definition caBundleSource (provider : OIDCProvider) : ResourceLocation :=
  let sourceName := ref_Name (CertificateAuthority (Issuer provider)) in
  {| Namespace := if (String.length sourceName =? 0)%nat then "" else caBundleSourceNamespace;
     Name := sourceName |}.

(** The events of external_oidc.go. *)
Definition caBundleSyncedEvent : effect :=
  Eventf eventComponentName "ExternalOIDC CA bundle configmap synced" [].
Definition configChangedEvent : effect :=
  Eventf eventComponentName "ExternalOIDC configuration changed" [].
Definition configRemovedEvent : effect :=
  Eventf eventComponentName "Removed ExternalOIDC configuration" [].


(** Every OIDC argument of the existing config can be read as a slice, or is
    absent. *)
Definition oidcReadable (existingConfig : config) : Prop :=
  ∀ path, path ∈ oidcPaths →
    snd (NestedSlice existingConfig [apiServerArgumentsPath; path]) = None.

(** The document that holds the arguments [m] under [apiServerArguments];
    no arguments, no [apiServerArguments] key. *)
Definition wrapArgs (m : gmap string value) : gmap string value :=
  if bool_decide (m = ∅) then ∅ else {[ apiServerArgumentsPath := VMap m ]}.

(** What one round of the merge loop adds to the arguments. *)
Definition addArg (oidcConfigValues : gmap string (list value))
    (m : gmap string value) (path : string) : gmap string value :=
  match oidcConfigValues !! path with
  | Some newVal => <[path := VSlice newVal]> m
  | None => m
  end.

(** The fragment that the merge loop builds from the values to configure. *)
Definition oidcFragment (oidcConfigValues : gmap string (list value)) : gmap string value :=
  wrapArgs (foldl (addArg oidcConfigValues) ∅ oidcPaths).

(** The state in which the merge loop of [observeExternalOIDC] ends. *)
Definition mergeResult (existingConfig : config)
    (oidcConfigValues : gmap string (list value)) : mergeState :=
  fst (foldW (mergeStep existingConfig oidcConfigValues)
             {| st_configChanged := false; st_observedConfig := ∅; st_errs := [] |}
             oidcPaths).

(** The values with which a pass of [observeExternalOIDC] enters its merge
    loop; [None] when the pass returns before the loop: on the provider or
    client check, on a field error, or on a failed mirror request. *)
Definition mergeLoopValues (url_Parse : string → result url_URL) (auth : Authentication)
    (listers : Listers) : option (gmap string (list value)) :=
  match OIDCProviders (Spec auth) with
  | [provider] =>
    match getOIDCClientForComponent auth componentName TargetNamespace with
    | Some clientConfig =>
      match oidcFieldValues url_Parse provider clientConfig with
      | (values, []) =>
        match snd (fst (syncCABundleIfNeeded listers provider)) with
        | None => Some values
        | Some _ => None
        end
      | _ => None
      end
    | None => None
    end
  | _ => None
  end.

(** The same for [ObserveExternalOIDC]: the pass enters the merge loop only
    with the gate enabled and an authentication resource of type OIDC. *)
Definition observerMergeLoopValues (url_Parse : string → result url_URL) (o : externalOIDC)
    (listers : Listers) : option (gmap string (list value)) :=
  if AreInitialFeatureGatesObserved (featureGateAccessor o) then
    match CurrentFeatureGates (featureGateAccessor o) with
    | Ok featureGates =>
      if Enabled featureGates FeatureGateExternalOIDC then
        match AuthConfigLister_Get listers "cluster" with
        | Ok auth =>
          if String.eqb (spec_Type (Spec auth)) AuthenticationTypeOIDC
          then mergeLoopValues url_Parse auth listers
          else None
        | Fail _ => None
        end
      else None
    | Fail _ => None
    end
  else None.

(** An error of reading an OIDC argument of the existing config. *)
Definition oidcReadError (existingConfig : config) (err : error) : Prop :=
  ∃ path, path ∈ oidcPaths
          ∧ snd (NestedSlice existingConfig [apiServerArgumentsPath; path]) = Some err.

(** A document holds nothing but a non-empty value at
    [apiServerArguments.disable-admission-plugins], or nothing at all. *)
Definition prunedToDisabledPlugins (cfg : config) : Prop :=
  ∀ obj, cfg = Some obj →
    ∀ k v, obj !! k = Some v →
      k = "apiServerArguments"
      ∧ ∃ m, v = VMap m
             ∧ ∀ k' v', m !! k' = Some v' →
                 k' = "disable-admission-plugins" ∧ isEmptyContainer v' = false.

(** * Inputs on which the observers are run

    The harness of external_oidc_test.go: a feature gate accessor with the
    gate enabled, listers over a fixed set of objects, and a resource syncer
    that answers every request with the same (possibly nil) error. *)

Definition gatesOn : externalOIDC :=
  {| featureGateAccessor :=
       {| AreInitialFeatureGatesObserved := true;
          CurrentFeatureGates :=
            Ok {| Enabled := λ name, String.eqb name FeatureGateExternalOIDC |} |} |}.

Definition gatesNotObserved : externalOIDC :=
  {| featureGateAccessor :=
       {| AreInitialFeatureGatesObserved := false;
          CurrentFeatureGates := Fail (Errorf "featureGates not yet observed" []) |} |}.

Definition notFound (name : string) : error := StatusError true name.

Definition testListers (auth : option Authentication) (configMaps : list ConfigMap)
    (syncError : option error) : Listers :=
  {| AuthConfigLister_Get := λ name,
       match auth with
       | Some a => if String.eqb name "cluster" then Ok a else Fail (notFound name)
       | None => Fail (notFound name)
       end;
     ConfigMapLister_Get := λ namespace name,
       match List.find (λ cm, String.eqb (cm_Namespace cm) namespace
                            && String.eqb (cm_Name cm) name) configMaps with
       | Some cm => Ok cm
       | None => Fail (notFound name)
       end;
     ResourceSyncer_SyncConfigMap := λ _ _, syncError |}.

(** The provider of the end-to-end scenarios: issuer
    [https://idp.example.com], username claim [sub], and the given prefix
    policy, CA configmap name and client ID for the kube-apiserver. *)
Definition scenarioProvider (prefixPolicy caName clientID : string) : OIDCProvider :=
  {| provider_Name := "idp";
     Issuer := {| URL := "https://idp.example.com";
                  CertificateAuthority := {| ref_Name := caName |} |};
     OIDCClients := [ {| ComponentName := componentName;
                         ComponentNamespace := TargetNamespace;
                         ClientID := clientID |} ];
     ClaimMappings :=
       {| Username := {| username_TokenClaimMapping := {| Claim := "sub" |};
                         PrefixPolicy := prefixPolicy;
                         username_Prefix := None |};
          Groups := {| groups_TokenClaimMapping := {| Claim := "" |};
                       groups_Prefix := "" |} |};
     ClaimValidationRules := [] |}.

Definition scenarioAuth (prefixPolicy caName clientID : string) : Authentication :=
  {| Spec := {| spec_Type := AuthenticationTypeOIDC;
                OIDCProviders := [scenarioProvider prefixPolicy caName clientID] |} |}.

Definition authOfType (type : string) : Authentication :=
  {| Spec := {| spec_Type := type; OIDCProviders := [] |} |}.

(** The fragment of scenario A. *)
Definition scenarioFragment : gmap string value :=
  {[ apiServerArgumentsPath :=
       VMap {[ oidcIssuerURLPath := VSlice [VString "https://idp.example.com"];
               oidcClientIDPath := VSlice [VString "abc"];
               oidcUsernameClaimPath := VSlice [VString "sub"] ]} ]}.

Definition caBundle (namespace name : string) (data : gmap string string) : ConfigMap :=
  {| cm_Name := name; cm_Namespace := namespace; Data := data |}.

(** The disabled plugins document of [newTestConfig] in the tests. *)
Definition newTestConfig (disabled : list string) : config :=
  Some (if bool_decide (disabled = []) then ∅
        else fst (SetNestedStringSlice ∅ disabled disableAdmissionPluginsPath)).

(** Scenario A without a CA bundle, and no configmap in the cluster. *)
Definition listersNoCA : Listers :=
  testListers (Some (scenarioAuth NoOpinion "" "abc")) [] None.

(** Scenario B: the same, with the prefix policy NoPrefix. *)
Definition listersNoPrefix : Listers :=
  testListers (Some (scenarioAuth NoPrefix "" "abc")) [] None.

(** Scenario A with an empty client ID. *)
Definition listersNoClientID : Listers :=
  testListers (Some (scenarioAuth NoOpinion "" "")) [] None.

(** No authentication resource in the cluster. *)
Definition listersNoAuth : Listers := testListers None [] None.

(** The authentication resource has switched to the built-in OAuth stack. *)
Definition listersIntegratedOAuth : Listers :=
  testListers (Some (authOfType AuthenticationTypeIntegratedOAuth)) [] None.

(** Scenario A naming the CA configmap [missing-ca], which does not exist in
    openshift-config, while the target configmap exists. *)
Definition listersMissingCA : Listers :=
  testListers (Some (scenarioAuth NoOpinion "missing-ca" "abc"))
              [caBundle TargetNamespace TargetOIDCCAConfigMapName
                        {[ "ca-bundle.crt" := "some-cert" ]}]
              None.

(** An existing config whose [apiServerArguments] is not a map. *)
Definition existingUnreadable : config :=
  Some {[ apiServerArgumentsPath := VString "x" ]}.

(** An existing config whose disabled plugins hold an entry that is not a
    string. *)
Definition existingMixedPlugins : config :=
  Some {[ "apiServerArguments" :=
            VMap {[ "disable-admission-plugins" := VSlice [VString "off1"; VNumber 1] ]} ]}.

(** The configmaps of [TestCMNeedsSync]. *)
Definition cmListers : Listers :=
  testListers None
    [caBundle "ns1" "cm1" {[ "keyA" := "aaa"; "keyB" := "bbb"; "key1" := "val1" ]};
     caBundle "ns2" "cm2" {[ "keyA" := "aaa"; "keyB" := "bbbbbb"; "key2" := "val2" ]}]
    None.

(** An authentication resource of type OIDC for the RoleBindingRestriction
    observer. *)
Definition listersOIDCType : Listers :=
  testListers (Some (authOfType AuthenticationTypeOIDC)) [] None.

(** The fragment of scenario A when a CA configmap is named. *)
Definition scenarioFragmentWithCA : gmap string value :=
  {[ apiServerArgumentsPath :=
       VMap {[ oidcIssuerURLPath := VSlice [VString "https://idp.example.com"];
               oidcClientIDPath := VSlice [VString "abc"];
               oidcUsernameClaimPath := VSlice [VString "sub"];
               oidcCAFilePath := VSlice [VString staticCABundleFilePath] ]} ]}.

(** ** Further notions and inputs *)

(** A feature gate accessor whose snapshot has the gate disabled. *)
Definition gatesOff : externalOIDC :=
  {| featureGateAccessor :=
       {| AreInitialFeatureGatesObserved := true;
          CurrentFeatureGates := Ok {| Enabled := λ _, false |} |} |}.

(** A feature gate accessor that fails to hand out its snapshot. *)
Definition gatesFailing : externalOIDC :=
  {| featureGateAccessor :=
       {| AreInitialFeatureGatesObserved := true;
          CurrentFeatureGates := Fail (StatusError false "no feature gates") |} |}.

(** Listers whose authentication lister fails with an error other than
    not-found. *)
Definition listersFailing : Listers :=
  {| AuthConfigLister_Get := λ _, Fail (StatusError false "cache not synced");
     ConfigMapLister_Get := λ _ name, Fail (notFound name);
     ResourceSyncer_SyncConfigMap := λ _ _, None |}.

(** The errors of each field of a provider, taken on its own. *)
Definition issuerURLErrors (url_Parse : string → result url_URL) (provider : OIDCProvider)
  : list error :=
  match url_Parse (URL (Issuer provider)) with
  | Fail err => [err]
  | Ok issuerURL =>
    if String.eqb (Scheme issuerURL) "https" then []
    else [Errorf "https is required for provider URL" []]
  end.

Definition clientIDErrors (clientConfig : OIDCClientConfig) : list error :=
  if bool_decide (ClientID clientConfig = "") then [Errorf "OIDC client ID not set" []]
  else [].

Definition usernamePrefixErrors (provider : OIDCProvider) : list error :=
  if bool_decide (PrefixPolicy (Username (ClaimMappings provider)) = Prefix
                  ∧ username_Prefix (Username (ClaimMappings provider)) = None)
  then [Errorf "nil username prefix while policy expects one" []]
  else [].

Definition claimRuleErrors (i : nat) (rule : TokenClaimValidationRule) : list error :=
  (if bool_decide (rule_Type rule = TokenValidationRuleTypeRequiredClaim) then []
   else [Errorf "invalid claim validation rule type: %s" [ArgString (rule_Type rule)]])
  ++ (if bool_decide (RequiredClaim rule = None)
      then [Errorf "empty validation rule at index %d" [ArgInt (Z.of_nat i)]]
      else []).

(** The argument that a claim validation rule contributes: [claim=value], or
    the nil left in the slice when the rule is rejected. *)
Definition requiredClaimArg (rule : TokenClaimValidationRule) : value :=
  match RequiredClaim rule with
  | Some requiredClaim =>
    if String.eqb (rule_Type rule) TokenValidationRuleTypeRequiredClaim
    then VString (required_Claim requiredClaim +:+ "=" +:+ RequiredValue requiredClaim)
    else VNull
  | None => VNull
  end.

(** The value of an optional string field: nothing when the field is empty. *)
Definition optionalArg (field : string) (arg : string) : option (list value) :=
  if bool_decide (field = "") then None else Some [VString arg].

(** The provider and authentication resource of external_oidc_test.go. *)
Definition baseProvider : OIDCProvider :=
  {| provider_Name := "test-oidc-provider";
     Issuer := {| URL := "https://test-oidc-provider.com";
                  CertificateAuthority := {| ref_Name := "oidc-ca-bundle" |} |};
     OIDCClients :=
       [ {| ComponentName := "console"; ComponentNamespace := "openshift-console";
            ClientID := "console-oidc-client" |};
         {| ComponentName := "kube-apiserver"; ComponentNamespace := "openshift-kube-apiserver";
            ClientID := "test-oidc-client" |} ];
     ClaimMappings :=
       {| Username := {| username_TokenClaimMapping := {| Claim := "username" |};
                         PrefixPolicy := Prefix;
                         username_Prefix := Some {| PrefixString := "oidc-user:" |} |};
          Groups := {| groups_TokenClaimMapping := {| Claim := "groups" |};
                       groups_Prefix := "oidc-group:" |} |};
     ClaimValidationRules :=
       [ {| rule_Type := TokenValidationRuleTypeRequiredClaim;
            RequiredClaim := Some {| required_Claim := "username"; RequiredValue := "test" |} |};
         {| rule_Type := TokenValidationRuleTypeRequiredClaim;
            RequiredClaim := Some {| required_Claim := "email"; RequiredValue := "test" |} |} ] |}.

Definition baseClient : OIDCClientConfig :=
  {| ComponentName := "kube-apiserver"; ComponentNamespace := "openshift-kube-apiserver";
     ClientID := "test-oidc-client" |}.

Definition baseAuthResource : Authentication :=
  {| Spec := {| spec_Type := AuthenticationTypeOIDC; OIDCProviders := [baseProvider] |} |}.

(** A provider with every field wrong: http issuer, policy Prefix without a
    prefix, a rule of another type and a rule without a required claim. *)
Definition brokenProvider : OIDCProvider :=
  {| provider_Name := "broken";
     Issuer := {| URL := "http://idp.example.com";
                  CertificateAuthority := {| ref_Name := "" |} |};
     OIDCClients := [ {| ComponentName := componentName;
                         ComponentNamespace := TargetNamespace;
                         ClientID := "" |} ];
     ClaimMappings :=
       {| Username := {| username_TokenClaimMapping := {| Claim := "sub" |};
                         PrefixPolicy := Prefix;
                         username_Prefix := None |};
          Groups := {| groups_TokenClaimMapping := {| Claim := "" |};
                       groups_Prefix := "" |} |};
     ClaimValidationRules :=
       [ {| rule_Type := "invalid";
            RequiredClaim := Some {| required_Claim := "username"; RequiredValue := "test" |} |};
         {| rule_Type := TokenValidationRuleTypeRequiredClaim; RequiredClaim := None |} ] |}.

Definition brokenClient : OIDCClientConfig :=
  {| ComponentName := componentName; ComponentNamespace := TargetNamespace; ClientID := "" |}.

(** What [NestedSlice] answers for a path that holds [arg], or nothing. *)
Definition published (arg : option (list value)) : list value * bool * option error :=
  match arg with
  | Some v => (v, true, None)
  | None => ([], false, None)
  end.

(** A document sets nothing but OIDC arguments, each a slice, under
    [apiServerArguments]. *)
Definition ownedPathsOnly (obj : gmap string value) : Prop :=
  ∀ k v, obj !! k = Some v →
    k = apiServerArgumentsPath
    ∧ ∃ m, v = VMap m
           ∧ ∀ k' v', m !! k' = Some v' → k' ∈ oidcPaths ∧ ∃ l, v' = VSlice l.

(** The mirror request that deletes the CA bundle target. *)
Definition caBundleDeletion : effect :=
  SyncConfigMap caBundleTarget {| Namespace := ""; Name := "" |}.

(** Listers for the resource of the tests, with the CA bundle [newCA] in
    openshift-config and, if given, the bundle [existingCA] already mirrored. *)
Definition baseListers (existingCA : option string) (newCA : string)
    (syncError : option error) : Listers :=
  testListers (Some baseAuthResource)
    (caBundle caBundleSourceNamespace "oidc-ca-bundle" {[ "ca-bundle.crt" := newCA ]}
     :: match existingCA with
        | Some content =>
          [caBundle TargetNamespace TargetOIDCCAConfigMapName {[ "ca-bundle.crt" := content ]}]
        | None => []
        end)
    syncError.

(** [baseConfig] of external_oidc_test.go. *)
Definition baseConfig : gmap string value :=
  {[ apiServerArgumentsPath :=
       VMap {[ oidcIssuerURLPath := VSlice [VString "https://test-oidc-provider.com"];
               oidcClientIDPath := VSlice [VString "test-oidc-client"];
               oidcUsernameClaimPath := VSlice [VString "username"];
               oidcUsernamePrefixPath := VSlice [VString "oidc-user:"];
               oidcGroupsClaimPath := VSlice [VString "groups"];
               oidcGroupsPrefixPath := VSlice [VString "oidc-group:"];
               oidcCAFilePath := VSlice [VString staticCABundleFilePath];
               oidcRequiredClaimPath :=
                 VSlice [VString "username=test"; VString "email=test"] ]} ]}.

(** The existing value of an OIDC argument differs from the value to
    configure (an absent argument counting as the empty slice). *)
Definition argumentDiffers (existingConfig : config)
    (oidcConfigValues : gmap string (list value)) (path : string) : Prop :=
  fst (fst (NestedSlice existingConfig [apiServerArgumentsPath; path]))
  ≠ default [] (oidcConfigValues !! path).

(** The two ends of the mirror link of the structured authentication
    config, and the fragment that points the apiserver at the mirrored file. *)
Definition authConfigTarget : ResourceLocation :=
  {| Namespace := TargetNamespace; Name := StructuredAuth.AuthConfigCMName |}.

Definition authConfigFragment : gmap string value :=
  {[ StructuredAuth.apiServerArgumentsPath :=
       VMap {[ StructuredAuth.argAuthConfig :=
                 VSlice [VString StructuredAuth.authConfigFilePath] ]} ]}.

Definition authConfigDeletedEvent : effect :=
  Eventf "ObserveExternalOIDC" "deleted configmap %s/%s"
         [ArgString TargetNamespace; ArgString StructuredAuth.AuthConfigCMName].


(** The structured authentication config generated in
    openshift-config-managed, and listers that hold it, with or without its
    mirror in the operand namespace. *)
Definition authConfigSource (content : string) : ConfigMap :=
  caBundle StructuredAuth.SourceAuthConfigCMNamespace StructuredAuth.AuthConfigCMName
           {[ StructuredAuth.authConfigKeyName := content ]}.

Definition authConfigListers (type : string) (source target : option string) : Listers :=
  testListers (Some (authOfType type))
    (match source with Some content => [authConfigSource content] | None => [] end
     ++ match target with
        | Some content =>
          [caBundle TargetNamespace StructuredAuth.AuthConfigCMName
                    {[ StructuredAuth.authConfigKeyName := content ]}]
        | None => []
        end)
    None.


Ltac enter_gate Hgate :=
  let Hobs := fresh "Hobs" in
  let fg := fresh "featureGates" in
  let Hfg := fresh "Hfg" in
  let Hen := fresh "Hen" in
  destruct Hgate as (Hobs & fg & Hfg & Hen);
  unfold ObserveExternalOIDC; rewrite Hobs, Hfg; simpl; rewrite Hen; simpl.

Ltac in_oidcPaths := unfold oidcPaths; rewrite !elem_of_cons; auto 10.

(** * Properties *)

(** ** The writer monad *)

Lemma bind_pure {A B} (a : A) (f : A → W B) : bind (pure a) f = f a.
Proof. unfold bind, pure. by destruct (f a). Qed.

Lemma bind_emit {B} (e : effect) (f : unit → W B) :
  bind (emit e) f = (fst (f tt), e :: snd (f tt)).
Proof. unfold bind, emit. by destruct (f tt). Qed.

Lemma bind_split {A B} (m : W A) (f : A → W B) :
  bind m f = (fst (f (fst m)), snd m ++ snd (f (fst m))).
Proof. unfold bind. destruct m as [a l1]. simpl. by destruct (f a). Qed.

(** ** Reading back what SetNestedSlice wrote *)

Lemma SetNestedSlice_wrapArgs (m : gmap string value) (val : list value) (path : string) :
  SetNestedSlice (wrapArgs m) val [apiServerArgumentsPath; path]
  = (wrapArgs (<[path := VSlice val]> m), None).
Proof.
  unfold SetNestedSlice, SetNestedField, wrapArgs. simpl.
  assert (Hne : <[path := VSlice val]> m ≠ ∅) by apply insert_non_empty.
  rewrite (bool_decide_eq_false_2 _ Hne).
  case_bool_decide as Hm.
  - subst m. rewrite lookup_empty. by rewrite insert_empty.
  - rewrite lookup_singleton_eq. by rewrite insert_singleton_eq.
Qed.

Lemma NestedSlice_wrapArgs (m : gmap string value) (path : string) :
  NestedSlice (Some (wrapArgs m)) [apiServerArgumentsPath; path]
  = match m !! path with
    | None => ([], false, None)
    | Some (VSlice l) => (l, true, None)
    | Some v => ([], false,
                 Some (accessorError [apiServerArgumentsPath; path] v "[]interface{}"))
    end.
Proof.
  unfold NestedSlice, NestedFieldNoCopy, wrapArgs. simpl.
  case_bool_decide as Hm.
  - subst m. by rewrite !lookup_empty.
  - rewrite lookup_singleton_eq.
    destruct (m !! path) as [[]|]; done.
Qed.

Lemma NestedFieldNoCopy_wrapArgs (m : gmap string value) (path : string) :
  NestedFieldNoCopy (Some (wrapArgs m)) [apiServerArgumentsPath; path]
  = match m !! path with
    | None => (VNull, false, None)
    | Some v => (v, true, None)
    end.
Proof.
  unfold NestedFieldNoCopy, wrapArgs. simpl.
  case_bool_decide as Hm.
  - subst m. by rewrite !lookup_empty.
  - rewrite lookup_singleton_eq. by destruct (m !! path).
Qed.

(** ** The merge loop *)

Lemma lookup_addArg values (m : gmap string value) (q p : string) :
  addArg values m q !! p
  = if bool_decide (p = q)
    then match values !! p with Some v => Some (VSlice v) | None => m !! p end
    else m !! p.
Proof.
  unfold addArg. case_bool_decide as Hpq.
  - subst q. destruct (values !! p); [apply lookup_insert_eq|done].
  - destruct (values !! q); [by apply lookup_insert_ne|done].
Qed.

Lemma lookup_addArgs values (ps : list string) (m : gmap string value) (p : string) :
  foldl (addArg values) m ps !! p
  = if bool_decide (p ∈ ps)
    then match values !! p with Some v => Some (VSlice v) | None => m !! p end
    else m !! p.
Proof.
  revert m. induction ps as [|q ps IH]; intros m; simpl; [done|].
  rewrite IH, lookup_addArg.
  destruct (decide (p = q)) as [->|Hne].
  - rewrite (bool_decide_eq_true_2 (q = q)) by done.
    rewrite (bool_decide_eq_true_2 (q ∈ q :: ps)) by apply list_elem_of_here.
    case_bool_decide; by destruct (values !! q).
  - rewrite (bool_decide_eq_false_2 (p = q)) by done.
    assert (bool_decide (p ∈ q :: ps) = bool_decide (p ∈ ps)) as ->; [|done].
    apply bool_decide_ext. rewrite elem_of_cons. split; [by intros [?|?]|by right].
Qed.

Section MergeLoop.

Variable existingConfig : config.
Variable oidcConfigValues : gmap string (list value).

(** The setter never fails on the documents the loop builds, so a round
    records no event and extends the arguments by [addArg]. *)
Lemma mergeStep_observed (st : mergeState) (path : string) (m : gmap string value) :
  st_observedConfig st = wrapArgs m →
  snd (mergeStep existingConfig oidcConfigValues st path) = []
  ∧ st_observedConfig (fst (mergeStep existingConfig oidcConfigValues st path))
    = wrapArgs (addArg oidcConfigValues m path).
Proof.
  intros Hobs. unfold mergeStep, addArg.
  set (st' := if negb (st_configChanged st) then _ else st).
  assert (Hobs' : st_observedConfig st' = wrapArgs m).
  { subst st'. destruct (st_configChanged st); simpl; [done|].
    destruct (NestedSlice _ _) as [[? ?] [?|]]; simpl; [done|].
    by destruct (negb _). }
  clearbody st'.
  destruct (oidcConfigValues !! path) as [newVal|] eqn:Hv; simpl; [|done].
  rewrite Hobs', SetNestedSlice_wrapArgs. done.
Qed.

Lemma foldW_mergeStep_observed (ps : list string) (st : mergeState) (m : gmap string value) :
  st_observedConfig st = wrapArgs m →
  snd (foldW (mergeStep existingConfig oidcConfigValues) st ps) = []
  ∧ st_observedConfig (fst (foldW (mergeStep existingConfig oidcConfigValues) st ps))
    = wrapArgs (foldl (addArg oidcConfigValues) m ps).
Proof.
  revert st m. induction ps as [|p ps IH]; intros st m Hobs; simpl; [done|].
  rewrite bind_split.
  destruct (mergeStep_observed st p m Hobs) as [Hlog Hobs'].
  destruct (IH _ _ Hobs') as [Hlog2 Hobs2].
  simpl. by rewrite Hlog, Hlog2, Hobs2.
Qed.

(** The error list of a round: it grows only by a failed read of the existing
    value, and only while no change has been detected. *)
Lemma mergeStep_errs (st : mergeState) (path : string) (m : gmap string value) :
  st_observedConfig st = wrapArgs m →
  snd (NestedSlice existingConfig [apiServerArgumentsPath; path]) = None →
  st_errs (fst (mergeStep existingConfig oidcConfigValues st path)) = st_errs st.
Proof.
  intros Hobs Hread. unfold mergeStep.
  set (st' := if negb (st_configChanged st) then _ else st).
  assert (Hst' : st_observedConfig st' = wrapArgs m ∧ st_errs st' = st_errs st).
  { subst st'. destruct (st_configChanged st); simpl; [done|].
    destruct (NestedSlice _ _) as [[? ?] [?|]]; simpl in *; [done|].
    by destruct (negb _). }
  clearbody st'. destruct Hst' as [Hobs' Herrs'].
  destruct (oidcConfigValues !! path) as [newVal|] eqn:Hv; simpl; [|done].
  rewrite Hobs', SetNestedSlice_wrapArgs. done.
Qed.

Lemma foldW_mergeStep_errs (ps : list string) (st : mergeState) (m : gmap string value) :
  st_observedConfig st = wrapArgs m →
  (∀ path, path ∈ ps →
     snd (NestedSlice existingConfig [apiServerArgumentsPath; path]) = None) →
  st_errs (fst (foldW (mergeStep existingConfig oidcConfigValues) st ps)) = st_errs st.
Proof.
  revert st m. induction ps as [|p ps IH]; intros st m Hobs Hread; simpl; [done|].
  rewrite bind_split. simpl.
  destruct (mergeStep_observed st p m Hobs) as [_ Hobs'].
  rewrite (IH _ _ Hobs') by (intros; by apply Hread, list_elem_of_further).
  apply (mergeStep_errs st p m Hobs), Hread, list_elem_of_here.
Qed.

End MergeLoop.

(** Run against its own fragment, a round detects no change. *)
Lemma mergeStep_fixpoint values (existing : config) (st : mergeState) (path : string) :
  NestedSlice existing [apiServerArgumentsPath; path]
    = match values !! path with
      | Some v => (v, true, None)
      | None => ([], false, None)
      end →
  st_configChanged st = false →
  st_configChanged (fst (mergeStep existing values st path)) = false.
Proof.
  intros Hread Hch. unfold mergeStep. rewrite Hch, Hread. simpl.
  destruct (values !! path) as [v|]; simpl; [|done].
  unfold DeepEqual. rewrite bool_decide_eq_true_2 by done. simpl.
  by destruct (SetNestedSlice _ _ _) as [? [?|]].
Qed.

Lemma foldW_mergeStep_fixpoint values (existing : config) (ps : list string)
    (st : mergeState) :
  (∀ path, path ∈ ps →
     NestedSlice existing [apiServerArgumentsPath; path]
     = match values !! path with
       | Some v => (v, true, None)
       | None => ([], false, None)
       end) →
  st_configChanged st = false →
  st_configChanged (fst (foldW (mergeStep existing values) st ps)) = false.
Proof.
  revert st. induction ps as [|p ps IH]; intros st Hread Hch; simpl; [done|].
  rewrite bind_split. simpl. apply IH.
  - intros; by apply Hread, list_elem_of_further.
  - apply mergeStep_fixpoint; [apply Hread, list_elem_of_here|done].
Qed.

Lemma NestedSlice_oidcFragment values (path : string) :
  path ∈ oidcPaths →
  NestedSlice (Some (oidcFragment values)) [apiServerArgumentsPath; path]
  = match values !! path with
    | Some v => (v, true, None)
    | None => ([], false, None)
    end.
Proof.
  intros Hin. unfold oidcFragment. rewrite NestedSlice_wrapArgs, lookup_addArgs.
  rewrite bool_decide_eq_true_2 by done.
  destruct (values !! path); by rewrite ?lookup_empty.
Qed.

Lemma NestedFieldNoCopy_oidcFragment values (path : string) :
  path ∈ oidcPaths →
  NestedFieldNoCopy (Some (oidcFragment values)) [apiServerArgumentsPath; path]
  = match values !! path with
    | Some v => (VSlice v, true, None)
    | None => (VNull, false, None)
    end.
Proof.
  intros Hin. unfold oidcFragment. rewrite NestedFieldNoCopy_wrapArgs, lookup_addArgs.
  rewrite bool_decide_eq_true_2 by done.
  destruct (values !! path); by rewrite ?lookup_empty.
Qed.

(** The merge loop, run from its initial state. *)
Lemma merge_loop existing values (errs0 : list error) :
  let r := foldW (mergeStep existing values)
                 {| st_configChanged := false; st_observedConfig := ∅; st_errs := errs0 |}
                 oidcPaths in
  snd r = [] ∧ st_observedConfig (fst r) = oidcFragment values.
Proof.
  apply (foldW_mergeStep_observed existing values oidcPaths _ ∅). done.
Qed.

(** The errors of the merge loop *)

Section MergeLoopErrors.

Variable existingConfig : config.
Variable oidcConfigValues : gmap string (list value).

(** A round keeps the errors it found and adds at most the error of reading
    the existing value at its path. *)
Lemma mergeStep_errs_origin (st : mergeState) (path : string) (m : gmap string value) :
  st_observedConfig st = wrapArgs m →
  (∀ err, err ∈ st_errs st → err ∈ st_errs (fst (mergeStep existingConfig oidcConfigValues st path)))
  ∧ (∀ err, err ∈ st_errs (fst (mergeStep existingConfig oidcConfigValues st path)) →
       err ∈ st_errs st
       ∨ snd (NestedSlice existingConfig [apiServerArgumentsPath; path]) = Some err).
Proof.
  intros Hobs. unfold mergeStep.
  set (st' := if negb (st_configChanged st) then _ else st).
  assert (Hst' : st_observedConfig st' = wrapArgs m
                 ∧ (∀ err, err ∈ st_errs st → err ∈ st_errs st')
                 ∧ (∀ err, err ∈ st_errs st' →
                      err ∈ st_errs st
                      ∨ snd (NestedSlice existingConfig [apiServerArgumentsPath; path])
                        = Some err)).
  { subst st'. destruct (st_configChanged st); simpl; [by auto|].
    destruct (NestedSlice _ _) as [[? ?] [e|]]; simpl.
    - split; [done|]. split.
      + intros err Hin. apply elem_of_app. by left.
      + intros err [Hin|Hin%list_elem_of_singleton]%elem_of_app; [by left|right; by subst].
    - destruct (negb _); simpl; auto. }
  clearbody st'. destruct Hst' as (Hobs' & Hkeep & Hfrom).
  destruct (oidcConfigValues !! path) as [newVal|] eqn:Hv; simpl; [|done].
  rewrite Hobs', SetNestedSlice_wrapArgs. done.
Qed.

Lemma foldW_mergeStep_errs_origin (ps : list string) (st : mergeState)
    (m : gmap string value) :
  st_observedConfig st = wrapArgs m →
  (∀ err, err ∈ st_errs st →
     err ∈ st_errs (fst (foldW (mergeStep existingConfig oidcConfigValues) st ps)))
  ∧ (∀ err, err ∈ st_errs (fst (foldW (mergeStep existingConfig oidcConfigValues) st ps)) →
       err ∈ st_errs st
       ∨ ∃ path, path ∈ ps
                 ∧ snd (NestedSlice existingConfig [apiServerArgumentsPath; path]) = Some err).
Proof.
  revert st m. induction ps as [|p ps IH]; intros st m Hobs; simpl; [by auto|].
  rewrite bind_split. simpl.
  destruct (mergeStep_observed existingConfig oidcConfigValues st p m Hobs) as [_ Hobs'].
  destruct (mergeStep_errs_origin st p m Hobs) as [Hkeep Hfrom].
  destruct (IH _ _ Hobs') as [Hkeeps Hfroms]. split.
  - intros err Hin. by apply Hkeeps, Hkeep.
  - intros err [Hin|(path & Hpath & Hread)]%Hfroms.
    + destruct (Hfrom err Hin) as [?|Hread]; [by left|].
      right. exists p. split; [apply list_elem_of_here|done].
    + right. exists path. split; [by apply list_elem_of_further|done].
Qed.

(** While no change has been detected, a failed read is recorded. *)
Lemma mergeStep_read_error (st : mergeState) (path : string) (m : gmap string value)
    (err : error) :
  st_observedConfig st = wrapArgs m →
  st_configChanged st = false →
  snd (NestedSlice existingConfig [apiServerArgumentsPath; path]) = Some err →
  err ∈ st_errs (fst (mergeStep existingConfig oidcConfigValues st path)).
Proof.
  intros Hobs Hch Hread. unfold mergeStep. rewrite Hch. simpl.
  destruct (NestedSlice _ _) as [[? ?] [e|]]; simpl in Hread; [|done].
  injection Hread as ->.
  destruct (oidcConfigValues !! path) as [newVal|] eqn:Hv; simpl.
  - rewrite Hobs, SetNestedSlice_wrapArgs. simpl. apply elem_of_app. right.
    apply list_elem_of_here.
  - apply elem_of_app. right. apply list_elem_of_here.
Qed.

End MergeLoopErrors.

(** The errors of the merge loop are errors of reading the existing config,
    and an unreadable issuer URL argument, the first one read, is among
    them. *)
Lemma mergeResult_errs (existingConfig : config) values :
  (∀ err, err ∈ st_errs (mergeResult existingConfig values) →
     oidcReadError existingConfig err)
  ∧ (∀ err,
       snd (NestedSlice existingConfig [apiServerArgumentsPath; oidcIssuerURLPath]) = Some err →
       err ∈ st_errs (mergeResult existingConfig values)).
Proof.
  unfold mergeResult. split.
  - intros err Hin.
    destruct (foldW_mergeStep_errs_origin existingConfig values oidcPaths
                {| st_configChanged := false; st_observedConfig := ∅; st_errs := [] |}
                ∅ eq_refl) as [_ Hfrom].
    destruct (Hfrom err Hin) as [Hnil|Hread]; [|done].
    simpl in Hnil. by apply elem_of_nil in Hnil.
  - intros err Hread. unfold oidcPaths. simpl. rewrite bind_split. simpl.
    set (st0 := {| st_configChanged := false; st_observedConfig := ∅; st_errs := [] |}).
    assert (Hobs : st_observedConfig st0 = wrapArgs ∅) by done.
    destruct (mergeStep_observed existingConfig values st0 oidcIssuerURLPath ∅ Hobs)
      as [_ Hobs'].
    destruct (foldW_mergeStep_errs_origin existingConfig values
                [oidcClientIDPath; oidcUsernameClaimPath; oidcUsernamePrefixPath;
                 oidcGroupsClaimPath; oidcGroupsPrefixPath; oidcRequiredClaimPath;
                 oidcCAFilePath] _ _ Hobs') as [Hkeep _].
    apply Hkeep. by apply (mergeStep_read_error existingConfig values st0 _ ∅ err Hobs).
Qed.

(** ** The OIDC observer *)

#[local] Arguments foldW : simpl never.
#[local] Arguments claimValidationRule : simpl never.

Section Properties.

Variable url_Parse : string → result url_URL.

Lemma length_zero_iff (s : string) : (String.length s =? 0)%nat = true ↔ s = "".
Proof. destruct s; simpl; split; done. Qed.

(** C2 (gating correctness). For every existing config and every upstream
    state, while the feature-gate accessor reports that no initial snapshot
    has been observed, [ObserveExternalOIDC] returns the existing config
    unchanged with an empty error list, and its log is empty: no event is
    emitted and no configmap sync is requested. This holds for the observer
    of external_oidc.go and for its later revision. *)
Theorem gating_before_first_snapshot (o : externalOIDC) (listers : Listers)
    (existingConfig : config) :
  AreInitialFeatureGatesObserved (featureGateAccessor o) = false →
  ObserveExternalOIDC url_Parse o listers existingConfig = ((existingConfig, []), [])
  ∧ StructuredAuth.ObserveExternalOIDC o listers existingConfig = ((existingConfig, []), []).
Proof.
  intros Hobs. unfold ObserveExternalOIDC, StructuredAuth.ObserveExternalOIDC.
  by rewrite Hobs.
Qed.


(** C5, as amended (comparison-key rule of [cmNeedsSync]). With an existing
    target, a non-empty source name, a found source and a non-empty key:
    if both configmaps have the key, needsSync holds exactly when the two
    values differ, without error; if only the target has the key, the call
    returns an error and needsSync=false; if only the source has the key,
    needsSync is true without error; if neither has it, the call returns an
    error and needsSync=false. *)
Theorem cmNeedsSync_comparison_key (listers : Listers)
    (destinationCMName destinationCMNamespace sourceCMName sourceCMNamespace key : string)
    (existingCM sourceCM : ConfigMap) :
  ConfigMapLister_Get listers destinationCMNamespace destinationCMName = Ok existingCM →
  sourceCMName ≠ "" →
  ConfigMapLister_Get listers sourceCMNamespace sourceCMName = Ok sourceCM →
  key ≠ "" →
  let r := cmNeedsSync listers destinationCMName destinationCMNamespace
                       sourceCMName sourceCMNamespace key in
  (∀ val1 val2,
     Data existingCM !! key = Some val1 → Data sourceCM !! key = Some val2 →
     snd r = None ∧ (fst r = true ↔ val1 ≠ val2))
  ∧ (is_Some (Data existingCM !! key) → Data sourceCM !! key = None →
     fst r = false
     ∧ snd r = Some (Errorf "key '%s' not found in source configmap" [ArgString key]))
  ∧ (Data existingCM !! key = None → is_Some (Data sourceCM !! key) →
     r = (true, None))
  ∧ (Data existingCM !! key = None → Data sourceCM !! key = None →
     fst r = false
     ∧ snd r = Some (Errorf "key '%s' not found in either configmap" [ArgString key])).
Proof.
  intros Hdst Hname Hsrc Hkey r. subst r. unfold cmNeedsSync. rewrite Hdst.
  destruct (String.length sourceCMName =? 0)%nat eqn:Hlen.
  { by apply length_zero_iff in Hlen. }
  rewrite Hsrc.
  destruct (String.length key =? 0)%nat eqn:Hklen.
  { by apply length_zero_iff in Hklen. }
  split; [|split; [|split]].
  - intros val1 val2 -> ->. simpl. split; [done|].
    rewrite negb_true_iff. apply String.eqb_neq.
  - intros [v ->] ->. done.
  - intros -> [v ->]. done.
  - intros -> ->. done.
Qed.

(** *** The shape of a pass on a valid OIDC resource *)

Lemma syncCABundleIfNeeded_cases (listers : Listers) (provider : OIDCProvider) :
  let needs := cmNeedsSync listers TargetOIDCCAConfigMapName TargetNamespace
                 (ref_Name (CertificateAuthority (Issuer provider)))
                 caBundleSourceNamespace "ca-bundle.crt" in
  let request := SyncConfigMap caBundleTarget (caBundleSource provider) in
  match needs with
  | (false, None) => syncCABundleIfNeeded listers provider = ((false, None), [])
  | _ =>
    match ResourceSyncer_SyncConfigMap listers caBundleTarget (caBundleSource provider) with
    | Some err => syncCABundleIfNeeded listers provider = ((false, Some err), [request])
    | None => syncCABundleIfNeeded listers provider = ((true, None), [request])
    end
  end.
Proof.
  simpl. unfold syncCABundleIfNeeded.
  fold caBundleTarget. 
  destruct (cmNeedsSync _ _ _ _ _ _) as [[|] [e|]]; simpl;
    try (unfold requestSyncConfigMap, bind; simpl; fold (caBundleSource provider);
         by destruct (ResourceSyncer_SyncConfigMap _ _ _)).
  done.
Qed.

Lemma syncCABundleIfNeeded_log (listers : Listers) (provider : OIDCProvider) :
  snd (syncCABundleIfNeeded listers provider) = []
  ∨ snd (syncCABundleIfNeeded listers provider)
    = [SyncConfigMap caBundleTarget (caBundleSource provider)].
Proof.
  pose proof (syncCABundleIfNeeded_cases listers provider) as H. simpl in H.
  destruct (cmNeedsSync _ _ _ _ _ _) as [[|] [e|]];
    try (right; destruct (ResourceSyncer_SyncConfigMap _ _ _); by rewrite H).
  left. by rewrite H.
Qed.

Lemma observeExternalOIDC_valid (auth : Authentication) (listers : Listers)
    (existingConfig : config) provider clientConfig values :
  OIDCProviders (Spec auth) = [provider] →
  getOIDCClientForComponent auth componentName TargetNamespace = Some clientConfig →
  oidcFieldValues url_Parse provider clientConfig = (values, []) →
  observeExternalOIDC url_Parse auth listers existingConfig
  = match syncCABundleIfNeeded listers provider with
    | ((_, Some err), log) => ((existingConfig, [err]), log)
    | ((caBundleSynced, None), log) =>
      ((Some (oidcFragment values), st_errs (mergeResult existingConfig values)),
       log ++ (if caBundleSynced then [caBundleSyncedEvent] else [])
           ++ (if st_configChanged (mergeResult existingConfig values)
               then [configChangedEvent] else []))
    end.
Proof.
  intros Hprov Hclient Hvalues. unfold observeExternalOIDC.
  rewrite Hprov, Hclient, Hvalues. simpl.
  destruct (syncCABundleIfNeeded listers provider) as [[b [e|]] log]; simpl.
  { by rewrite app_nil_r. }
  pose proof (merge_loop existingConfig values []) as Hloop. cbv zeta in Hloop.
  unfold mergeResult, bind at 1.
  destruct (foldW _ _ _) as [st l]. destruct Hloop as [Hlog Hobs].
  cbn [fst snd] in *. subst l. rewrite Hobs.
  destruct b, (st_configChanged st); done.
Qed.

Lemma observeExternalOIDC_invalid (auth : Authentication) (listers : Listers)
    (existingConfig : config) :
  (∀ provider clientConfig values,
     OIDCProviders (Spec auth) = [provider] →
     getOIDCClientForComponent auth componentName TargetNamespace = Some clientConfig →
     oidcFieldValues url_Parse provider clientConfig ≠ (values, [])) →
  ∃ err errs,
    observeExternalOIDC url_Parse auth listers existingConfig
    = ((existingConfig, err :: errs), []).
Proof.
  intros Hinv. unfold observeExternalOIDC.
  destruct (OIDCProviders (Spec auth)) as [|provider [|]] eqn:Hprov; [by eauto| |by eauto].
  destruct (getOIDCClientForComponent _ _ _) as [clientConfig|] eqn:Hclient; [|by eauto].
  destruct (oidcFieldValues _ _ _) as [values [|err errs]] eqn:Hvalues.
  - by destruct (Hinv provider clientConfig values).
  - simpl. eauto.
Qed.

Lemma mergeResult_readable (existingConfig : config) values :
  oidcReadable existingConfig → st_errs (mergeResult existingConfig values) = [].
Proof.
  intros Hread. unfold mergeResult.
  by rewrite (foldW_mergeStep_errs existingConfig values oidcPaths _ ∅).
Qed.

Lemma oidcFragment_readable values : oidcReadable (Some (oidcFragment values)).
Proof.
  intros path Hin. rewrite NestedSlice_oidcFragment by done.
  by destruct (values !! path).
Qed.

Lemma mergeResult_oidcFragment values :
  st_configChanged (mergeResult (Some (oidcFragment values)) values) = false.
Proof.
  unfold mergeResult. apply foldW_mergeStep_fixpoint; [|done].
  intros path Hin. by apply NestedSlice_oidcFragment.
Qed.

(** *** Error atomicity *)

(** The pass enters the merge loop exactly when the gate is enabled, the
    authentication resource is found with type OIDC, one provider and a
    client for the component, no field is rejected, and the mirror request,
    if any, does not fail. *)
Lemma observerMergeLoopValues_Some (o : externalOIDC) (listers : Listers)
    (values : gmap string (list value)) :
  observerMergeLoopValues url_Parse o listers = Some values
  ↔ gateEnabled o
    ∧ ∃ auth provider clientConfig,
        AuthConfigLister_Get listers "cluster" = Ok auth
        ∧ spec_Type (Spec auth) = AuthenticationTypeOIDC
        ∧ OIDCProviders (Spec auth) = [provider]
        ∧ getOIDCClientForComponent auth componentName TargetNamespace = Some clientConfig
        ∧ oidcFieldValues url_Parse provider clientConfig = (values, [])
        ∧ snd (fst (syncCABundleIfNeeded listers provider)) = None.
Proof.
  unfold observerMergeLoopValues, mergeLoopValues, gateEnabled. split.
  - destruct (AreInitialFeatureGatesObserved _); [|done].
    destruct (CurrentFeatureGates _) as [featureGates|]; [|done].
    destruct (Enabled featureGates _) eqn:Hen; [|done].
    destruct (AuthConfigLister_Get listers "cluster") as [auth|]; [|done].
    destruct (String.eqb _ _) eqn:Htype; [|done]. apply String.eqb_eq in Htype.
    destruct (OIDCProviders (Spec auth)) as [|provider [|]] eqn:Hprov; try done.
    destruct (getOIDCClientForComponent _ _ _) as [clientConfig|] eqn:Hclient; [|done].
    destruct (oidcFieldValues _ _ _) as [values' [|]] eqn:Hvalues; [|done].
    destruct (snd (fst (syncCABundleIfNeeded listers provider))) eqn:Hsync; [done|].
    intros [= ->]. split; [by eauto|].
    exists auth, provider, clientConfig. repeat split; done.
  - intros ((-> & featureGates & -> & ->) & auth & provider & clientConfig
            & -> & -> & -> & -> & -> & ->). done.
Qed.

Lemma observeExternalOIDC_before_loop (auth : Authentication) (listers : Listers)
    (existingConfig : config) :
  mergeLoopValues url_Parse auth listers = None →
  snd (fst (observeExternalOIDC url_Parse auth listers existingConfig)) ≠ [] →
  fst (fst (observeExternalOIDC url_Parse auth listers existingConfig)) = existingConfig.
Proof.
  unfold mergeLoopValues.
  destruct (OIDCProviders (Spec auth)) as [|provider [|]] eqn:Hprov;
    try (unfold observeExternalOIDC; by rewrite Hprov).
  destruct (getOIDCClientForComponent auth componentName TargetNamespace)
    as [clientConfig|] eqn:Hclient;
    [|unfold observeExternalOIDC; by rewrite Hprov, Hclient].
  destruct (oidcFieldValues url_Parse provider clientConfig) as [values [|err errs]] eqn:Hvalues;
    [|unfold observeExternalOIDC; by rewrite Hprov, Hclient, Hvalues].
  rewrite (observeExternalOIDC_valid _ _ _ _ _ _ Hprov Hclient Hvalues).
  by destruct (syncCABundleIfNeeded listers provider) as [[b [e|]] log].
Qed.

Lemma observeExternalOIDC_in_loop (auth : Authentication) (listers : Listers)
    (existingConfig : config) values :
  mergeLoopValues url_Parse auth listers = Some values →
  fst (observeExternalOIDC url_Parse auth listers existingConfig)
  = (Some (oidcFragment values), st_errs (mergeResult existingConfig values)).
Proof.
  unfold mergeLoopValues.
  destruct (OIDCProviders (Spec auth)) as [|provider [|]] eqn:Hprov; try done.
  destruct (getOIDCClientForComponent auth componentName TargetNamespace)
    as [clientConfig|] eqn:Hclient; [|done].
  destruct (oidcFieldValues url_Parse provider clientConfig) as [values' [|err errs]] eqn:Hvalues;
    [|done].
  rewrite (observeExternalOIDC_valid _ _ _ _ _ _ Hprov Hclient Hvalues).
  destruct (syncCABundleIfNeeded listers provider) as [[b [e|]] log]; simpl; [done|].
  by intros [= ->].
Qed.

(** Outside the OIDC branch, and on every return of the OIDC branch before
    the merge loop, [ObserveExternalOIDC] hands back the existing config with
    its errors; in the merge loop it behaves as its helper. *)
Lemma ObserveExternalOIDC_stages (o : externalOIDC) (listers : Listers)
    (existingConfig : config) :
  match observerMergeLoopValues url_Parse o listers with
  | None =>
    snd (fst (ObserveExternalOIDC url_Parse o listers existingConfig)) ≠ [] →
    fst (fst (ObserveExternalOIDC url_Parse o listers existingConfig)) = existingConfig
  | Some values =>
    fst (ObserveExternalOIDC url_Parse o listers existingConfig)
    = (Some (oidcFragment values), st_errs (mergeResult existingConfig values))
  end.
Proof.
  unfold observerMergeLoopValues, ObserveExternalOIDC.
  destruct (AreInitialFeatureGatesObserved _); simpl; [|done].
  destruct (CurrentFeatureGates _) as [featureGates|err]; [|done].
  destruct (Enabled featureGates _); simpl; [|done].
  destruct (AuthConfigLister_Get listers "cluster") as [auth|err];
    [|by destruct (IsNotFound err)].
  destruct (String.eqb (spec_Type (Spec auth)) AuthenticationTypeOIDC) eqn:Htype.
  - apply String.eqb_eq in Htype. rewrite Htype. simpl.
    destruct (mergeLoopValues url_Parse auth listers) as [values|] eqn:Hloop.
    + by apply observeExternalOIDC_in_loop.
    + by apply observeExternalOIDC_before_loop.
  - destruct (_ || _); [|done].
    unfold requestSyncConfigMap, bind.
    destruct (ResourceSyncer_SyncConfigMap _ _ _); simpl; [done|].
    destruct (oidcConfigExists existingConfig) as [[|] [e|]]; done.
Qed.

(** A fragment returned with errors is not the existing config, which the
    errors show to be unreadable. *)
Lemma oidcFragment_with_errors (existingConfig : config) values :
  st_errs (mergeResult existingConfig values) ≠ [] →
  Some (oidcFragment values) ≠ existingConfig.
Proof.
  intros Herrs <-. apply Herrs, mergeResult_readable, oidcFragment_readable.
Qed.

(** C3, as amended (error atomicity). A pass of [ObserveExternalOIDC], or of
    its helper [observeExternalOIDC], that ends before the merge loop (on the
    gate accessor, the lister, the type, the provider and client checks, a
    field error, a failed mirror request, or a failed read on the switch away
    from OIDC) returns any error with exactly the existing config, whether
    or not that config can be read. A pass that enters the merge loop returns
    the newly built fragment whatever the errors: these are errors of reading
    an OIDC argument of the existing config, an unreadable issuer URL
    argument is always among them, and a non-empty error list then comes with
    a tree that is not the existing config. Hence, when every OIDC argument
    of the existing config is readable, a non-empty error list comes with
    exactly the existing config. *)
Theorem error_atomicity_outside_merge_loop (o : externalOIDC) (listers : Listers)
    (auth : Authentication) (existingConfig : config) :
  let r := fst (ObserveExternalOIDC url_Parse o listers existingConfig) in
  let h := fst (observeExternalOIDC url_Parse auth listers existingConfig) in
  let inLoop (values : gmap string (list value)) (ret : config * list error) :=
    fst ret = Some (oidcFragment values)
    ∧ (∀ err, err ∈ snd ret → oidcReadError existingConfig err)
    ∧ (∀ err, snd (NestedSlice existingConfig [apiServerArgumentsPath; oidcIssuerURLPath])
              = Some err → err ∈ snd ret)
    ∧ (snd ret ≠ [] → fst ret ≠ existingConfig) in
  (observerMergeLoopValues url_Parse o listers = None →
   snd r ≠ [] → fst r = existingConfig)
  ∧ (mergeLoopValues url_Parse auth listers = None →
     snd h ≠ [] → fst h = existingConfig)
  ∧ (∀ values, observerMergeLoopValues url_Parse o listers = Some values → inLoop values r)
  ∧ (∀ values, mergeLoopValues url_Parse auth listers = Some values → inLoop values h)
  ∧ (oidcReadable existingConfig →
     (snd r ≠ [] → fst r = existingConfig) ∧ (snd h ≠ [] → fst h = existingConfig)).
Proof.
  cbv zeta.
  pose proof (ObserveExternalOIDC_stages o listers existingConfig) as Hr.
  assert (Hloop : ∀ values ret,
            ret = (Some (oidcFragment values), st_errs (mergeResult existingConfig values)) →
            fst ret = Some (oidcFragment values)
            ∧ (∀ err, err ∈ snd ret → oidcReadError existingConfig err)
            ∧ (∀ err, snd (NestedSlice existingConfig
                                       [apiServerArgumentsPath; oidcIssuerURLPath])
                      = Some err → err ∈ snd ret)
            ∧ (snd ret ≠ [] → fst ret ≠ existingConfig)).
  { intros values ret ->. cbn [fst snd].
    destruct (mergeResult_errs existingConfig values) as [Hfrom Hfirst].
    repeat split; [done|done|]. apply oidcFragment_with_errors. }
  split; [|split; [|split; [|split]]].
  - intros Hnone. by rewrite Hnone in Hr.
  - apply observeExternalOIDC_before_loop.
  - intros values Hsome. rewrite Hsome in Hr. by apply Hloop.
  - intros values Hsome. by apply Hloop, observeExternalOIDC_in_loop.
  - intros Hread. split.
    + destruct (observerMergeLoopValues url_Parse o listers) as [values|]; [|done].
      rewrite Hr. cbn [fst snd]. by rewrite mergeResult_readable.
    + destruct (mergeLoopValues url_Parse auth listers) as [values|] eqn:Hh.
      * rewrite (observeExternalOIDC_in_loop _ _ _ _ Hh). cbn [fst snd].
        by rewrite mergeResult_readable.
      * by apply observeExternalOIDC_before_loop.
Qed.

(** *** Lookup failures in the mirror decision *)

(** C6, as amended (lookup failure in the mirror decision). On a valid OIDC
    resource, an error of [cmNeedsSync] (a failed target or source lookup, a
    named source that is not found, a missing key) is not returned by the
    pass: the pass requests the mirror of the CA bundle anyway. If that
    request fails, its error alone is returned with the existing tree. If it
    succeeds, the pass returns the new fragment and emits the CA bundle
    event, and it returns no error when the existing config is readable. *)
Theorem mirror_lookup_error_requests_sync_anyway (o : externalOIDC) (listers : Listers)
    (existingConfig : config) (auth : Authentication) (provider : OIDCProvider)
    (clientConfig : OIDCClientConfig) (values : gmap string (list value))
    (needsSync : bool) (lookupErr : error) :
  gateEnabled o →
  AuthConfigLister_Get listers "cluster" = Ok auth →
  spec_Type (Spec auth) = AuthenticationTypeOIDC →
  OIDCProviders (Spec auth) = [provider] →
  getOIDCClientForComponent auth componentName TargetNamespace = Some clientConfig →
  oidcFieldValues url_Parse provider clientConfig = (values, []) →
  cmNeedsSync listers TargetOIDCCAConfigMapName TargetNamespace
              (ref_Name (CertificateAuthority (Issuer provider)))
              caBundleSourceNamespace "ca-bundle.crt" = (needsSync, Some lookupErr) →
  let r := ObserveExternalOIDC url_Parse o listers existingConfig in
  let request := SyncConfigMap caBundleTarget (caBundleSource provider) in
  match ResourceSyncer_SyncConfigMap listers caBundleTarget (caBundleSource provider) with
  | Some syncErr => r = ((existingConfig, [syncErr]), [request])
  | None =>
    fst (fst r) = Some (oidcFragment values)
    ∧ syncs r = [request]
    ∧ events r = caBundleSyncedEvent
                 :: (if st_configChanged (mergeResult existingConfig values)
                     then [configChangedEvent] else [])
    ∧ (oidcReadable existingConfig → snd (fst r) = [])
  end.
Proof.
  intros Hgate Hauth Htype Hprov Hclient Hvalues Hneeds r request. subst r request.
  enter_gate Hgate. rewrite Hauth, Htype. simpl.
  rewrite (observeExternalOIDC_valid _ _ _ _ _ _ Hprov Hclient Hvalues).
  pose proof (syncCABundleIfNeeded_cases listers provider) as Hsync.
  simpl in Hsync. rewrite Hneeds in Hsync.
  destruct (ResourceSyncer_SyncConfigMap _ _ _) as [syncErr|];
    (replace (syncCABundleIfNeeded listers provider) with
       (if needsSync then syncCABundleIfNeeded listers provider
        else syncCABundleIfNeeded listers provider) by (by destruct needsSync));
    destruct needsSync; rewrite Hsync; try done.
  all: repeat split; try (by destruct (st_configChanged _));
    intros; by apply mergeResult_readable.
Qed.

(** *** Idempotence *)

Lemma length_pos_cons {A} (l : list A) : (0 <? length l)%nat = true → l ≠ [].
Proof. by destruct l. Qed.


(** *** The field translation *)

Lemma claimValidationRule_errs i rule m errs e :
  e ∈ errs → e ∈ snd (claimValidationRule i rule (m, errs)).
Proof.
  intros He. unfold claimValidationRule.
  destruct (negb _), (RequiredClaim rule); simpl;
    rewrite ?elem_of_app; auto.
Qed.

Lemma claimValidationRules_errs rules i m errs e :
  e ∈ errs → e ∈ snd (claimValidationRules i rules (m, errs)).
Proof.
  revert i m errs. induction rules as [|rule rules IH]; intros i m errs He; simpl; [done|].
  destruct (claimValidationRule i rule (m, errs)) as [m' errs'] eqn:Hrule.
  apply IH. change errs' with (snd (m', errs')). rewrite <-Hrule.
  by apply claimValidationRule_errs.
Qed.

Lemma claimValidationRule_lookup_ne i rule (m : gmap string (list value)) errs path :
  path ≠ oidcRequiredClaimPath →
  fst (claimValidationRule i rule (m, errs)) !! path = m !! path.
Proof.
  intros Hne. unfold claimValidationRule.
  destruct (negb _), (RequiredClaim rule); simpl; try done.
  by rewrite lookup_alter_ne.
Qed.

Lemma claimValidationRules_lookup_ne rules i (m : gmap string (list value)) errs path :
  path ≠ oidcRequiredClaimPath →
  fst (claimValidationRules i rules (m, errs)) !! path = m !! path.
Proof.
  intros Hne. revert i m errs.
  induction rules as [|rule rules IH]; intros i m errs; simpl; [done|].
  destruct (claimValidationRule i rule (m, errs)) as [m' errs'] eqn:Hrule.
  rewrite IH. change m' with (fst (m', errs')). rewrite <-Hrule.
  by apply claimValidationRule_lookup_ne.
Qed.

Lemma length_pos_iff (s : string) : (0 <? String.length s)%nat = true ↔ s ≠ "".
Proof. destruct s; simpl; split; done. Qed.

(** Every block keeps the errors accumulated so far. *)
Lemma issuerURLField_errs provider acc e :
  e ∈ snd acc → e ∈ snd (issuerURLField url_Parse provider acc).
Proof.
  destruct acc as [m errs]. unfold issuerURLField. intros He.
  repeat case_match; simpl in *; rewrite ?elem_of_app; auto.
Qed.

Lemma claimMappingFields_errs provider acc e :
  e ∈ snd acc → e ∈ snd (claimMappingFields provider acc).
Proof. by destruct acc. Qed.

Lemma usernamePrefixField_errs provider acc e :
  e ∈ snd acc → e ∈ snd (usernamePrefixField provider acc).
Proof.
  destruct acc as [m errs]. unfold usernamePrefixField. intros He.
  repeat case_match; simpl in *; rewrite ?elem_of_app; auto.
Qed.

Lemma requiredClaimField_errs provider acc e :
  e ∈ snd acc → e ∈ snd (requiredClaimField provider acc).
Proof.
  destruct acc as [m errs]. unfold requiredClaimField. intros He.
  case_match; [by apply claimValidationRules_errs|done].
Qed.

Lemma caFileField_errs provider acc e :
  e ∈ snd acc → e ∈ snd (caFileField provider acc).
Proof. destruct acc as [m errs]. unfold caFileField. by case_match. Qed.

(** An empty client ID is reported, whatever else is wrong. *)
Lemma oidcFieldValues_clientID_not_set provider clientConfig :
  ClientID clientConfig = "" →
  Errorf "OIDC client ID not set" [] ∈ snd (oidcFieldValues url_Parse provider clientConfig).
Proof.
  intros Hid. unfold oidcFieldValues.
  apply caFileField_errs, requiredClaimField_errs, usernamePrefixField_errs,
    claimMappingFields_errs.
  destruct (issuerURLField _ _ _) as [m errs]. unfold clientIDField. rewrite Hid. simpl.
  apply elem_of_app. right. apply list_elem_of_here.
Qed.

(** The blocks that follow the username claim leave the issuer, the client
    ID and the username claim as they are; those after the prefix policy
    leave the username prefix as it is. *)
Lemma requiredClaimField_lookup_ne provider acc path :
  path ≠ oidcRequiredClaimPath →
  fst (requiredClaimField provider acc) !! path = fst acc !! path.
Proof.
  intros Hne. destruct acc as [m errs]. unfold requiredClaimField.
  case_match; [|done].
  rewrite claimValidationRules_lookup_ne by done. by apply lookup_insert_ne.
Qed.

Lemma caFileField_lookup_ne provider acc path :
  path ≠ oidcCAFilePath →
  fst (caFileField provider acc) !! path = fst acc !! path.
Proof.
  intros Hne. destruct acc as [m errs]. unfold caFileField.
  case_match; [|done]. by apply lookup_insert_ne.
Qed.

Lemma usernamePrefixField_lookup_ne provider acc path :
  path ≠ oidcUsernamePrefixPath →
  fst (usernamePrefixField provider acc) !! path = fst acc !! path.
Proof.
  intros Hne. destruct acc as [m errs]. unfold usernamePrefixField.
  repeat case_match; simpl; try done; by apply lookup_insert_ne.
Qed.

Lemma oidcFieldValues_lookup provider clientConfig issuerURL :
  url_Parse (URL (Issuer provider)) = Ok issuerURL →
  Scheme issuerURL = "https" →
  ClientID clientConfig ≠ "" →
  Claim (username_TokenClaimMapping (Username (ClaimMappings provider))) ≠ "" →
  let values := fst (oidcFieldValues url_Parse provider clientConfig) in
  values !! oidcIssuerURLPath = Some [VString (URL (Issuer provider))]
  ∧ values !! oidcClientIDPath = Some [VString (ClientID clientConfig)]
  ∧ values !! oidcUsernameClaimPath
    = Some [VString (Claim (username_TokenClaimMapping (Username (ClaimMappings provider))))]
  ∧ (PrefixPolicy (Username (ClaimMappings provider)) = NoOpinion →
     values !! oidcUsernamePrefixPath = None)
  ∧ (PrefixPolicy (Username (ClaimMappings provider)) = NoPrefix →
     values !! oidcUsernamePrefixPath = Some [VString "-"]).
Proof.
  intros Hparse Hscheme Hid%length_pos_iff Hclaim%length_pos_iff values. subst values.
  unfold oidcFieldValues.
  set (acc := claimMappingFields provider _).
  assert (Hacc : fst acc !! oidcIssuerURLPath = Some [VString (URL (Issuer provider))]
                 ∧ fst acc !! oidcClientIDPath = Some [VString (ClientID clientConfig)]
                 ∧ fst acc !! oidcUsernameClaimPath
                   = Some [VString (Claim (username_TokenClaimMapping
                                             (Username (ClaimMappings provider))))]
                 ∧ fst acc !! oidcUsernamePrefixPath = None).
  { subst acc. unfold issuerURLField, clientIDField, claimMappingFields.
    rewrite Hparse, Hscheme, Hid, Hclaim. simpl.
    repeat case_match; by simplify_map_eq. }
  clearbody acc. destruct Hacc as (Hissuer & Hclient & Husername & Hprefix).
  rewrite !caFileField_lookup_ne, !requiredClaimField_lookup_ne by done.
  rewrite !usernamePrefixField_lookup_ne by done.
  repeat split; try done.
  - intros Hpol. destruct acc as [m errs]. unfold usernamePrefixField.
    by rewrite Hpol.
  - intros Hpol. destruct acc as [m errs]. unfold usernamePrefixField.
    rewrite Hpol. simpl. by rewrite lookup_insert_eq.
Qed.

(** *** Required client ID *)

(** C8 (required-field enforcement). For an authentication resource of type
    OIDC, with its one provider, whose client config for the kube-apiserver
    component has an empty client ID, the pass returns the existing tree
    unchanged and a non-empty error list that contains the error
    "OIDC client ID not set", next to the other accumulated field errors; it
    emits no event and requests no mirror. *)
Theorem empty_client_id_is_rejected (o : externalOIDC) (listers : Listers)
    (existingConfig : config) (auth : Authentication) (provider : OIDCProvider)
    (clientConfig : OIDCClientConfig) :
  gateEnabled o →
  AuthConfigLister_Get listers "cluster" = Ok auth →
  spec_Type (Spec auth) = AuthenticationTypeOIDC →
  OIDCProviders (Spec auth) = [provider] →
  getOIDCClientForComponent auth componentName TargetNamespace = Some clientConfig →
  ClientID clientConfig = "" →
  let r := ObserveExternalOIDC url_Parse o listers existingConfig in
  fst (fst r) = existingConfig
  ∧ snd (fst r) ≠ []
  ∧ Errorf "OIDC client ID not set" [] ∈ snd (fst r)
  ∧ snd (fst r) = snd (oidcFieldValues url_Parse provider clientConfig)
  ∧ snd r = [].
Proof.
  intros Hgate Hauth Htype Hprov Hclient Hid r. subst r.
  enter_gate Hgate. rewrite Hauth, Htype. simpl.
  unfold observeExternalOIDC. rewrite Hprov, Hclient.
  pose proof (oidcFieldValues_clientID_not_set provider clientConfig Hid) as Hin.
  destruct (oidcFieldValues url_Parse provider clientConfig) as [values [|err errs]];
    simpl in *.
  - by apply elem_of_nil in Hin.
  - done.
Qed.

(** *** Username prefix policy *)

(** C7 (username-prefix mapping). For a valid OIDC provider with issuer
    [https://idp.example.com], client id [abc] and username claim [sub], the
    emitted fragment has oidc-issuer-url=["https://idp.example.com"],
    oidc-client-id=["abc"] and oidc-username-claim=["sub"] under
    apiServerArguments; with the prefix policy unset (NoOpinion) it has no
    oidc-username-prefix key, and with the policy NoPrefix it has
    oidc-username-prefix=["-"]. *)
Theorem username_prefix_mapping (o : externalOIDC) (listers : Listers)
    (existingConfig : config) (auth : Authentication) (provider : OIDCProvider)
    (clientConfig : OIDCClientConfig) (issuerURL : url_URL) :
  gateEnabled o →
  AuthConfigLister_Get listers "cluster" = Ok auth →
  spec_Type (Spec auth) = AuthenticationTypeOIDC →
  OIDCProviders (Spec auth) = [provider] →
  getOIDCClientForComponent auth componentName TargetNamespace = Some clientConfig →
  URL (Issuer provider) = "https://idp.example.com" →
  url_Parse "https://idp.example.com" = Ok issuerURL →
  Scheme issuerURL = "https" →
  ClientID clientConfig = "abc" →
  Claim (username_TokenClaimMapping (Username (ClaimMappings provider))) = "sub" →
  snd (oidcFieldValues url_Parse provider clientConfig) = [] →
  ResourceSyncer_SyncConfigMap listers caBundleTarget (caBundleSource provider) = None →
  let fragment := fst (fst (ObserveExternalOIDC url_Parse o listers existingConfig)) in
  let argument path := NestedSlice fragment [apiServerArgumentsPath; path] in
  is_Some fragment
  ∧ argument oidcIssuerURLPath = ([VString "https://idp.example.com"], true, None)
  ∧ argument oidcClientIDPath = ([VString "abc"], true, None)
  ∧ argument oidcUsernameClaimPath = ([VString "sub"], true, None)
  ∧ (PrefixPolicy (Username (ClaimMappings provider)) = NoOpinion →
     NestedFieldNoCopy fragment [apiServerArgumentsPath; oidcUsernamePrefixPath]
     = (VNull, false, None))
  ∧ (PrefixPolicy (Username (ClaimMappings provider)) = NoPrefix →
     argument oidcUsernamePrefixPath = ([VString "-"], true, None)).
Proof.
  intros Hgate Hauth Htype Hprov Hclient Hurl Hparse Hscheme Hid Hclaim Hvalid Hsync.
  intros fragment argument.
  rewrite <-Hurl in Hparse.
  destruct (oidcFieldValues_lookup provider clientConfig issuerURL Hparse Hscheme)
    as (Hissuer & Hclientid & Husername & Hnoopinion & Hnoprefix).
  { by rewrite Hid. }
  { by rewrite Hclaim. }
  rewrite Hurl in Hissuer. rewrite Hid in Hclientid. rewrite Hclaim in Husername.
  destruct (oidcFieldValues url_Parse provider clientConfig) as [values errs] eqn:Hvalues.
  simpl in Hvalid, Hissuer, Hclientid, Husername, Hnoopinion, Hnoprefix. subst errs.
  assert (Hfragment : fragment = Some (oidcFragment values)).
  { subst fragment. enter_gate Hgate. rewrite Hauth, Htype. simpl.
    rewrite (observeExternalOIDC_valid _ _ _ _ _ _ Hprov Hclient Hvalues).
    pose proof (syncCABundleIfNeeded_cases listers provider) as Hcases.
    simpl in Hcases. rewrite Hsync in Hcases.
    destruct (cmNeedsSync _ _ _ _ _ _) as [[|] [e|]]; by rewrite Hcases. }
  subst argument. cbv beta. rewrite Hfragment.
  rewrite !NestedSlice_oidcFragment, Hissuer, Hclientid, Husername
    by (unfold oidcPaths; rewrite !elem_of_cons; auto 10).
  repeat split; try done.
  - intros Hpol. rewrite NestedFieldNoCopy_oidcFragment
      by (unfold oidcPaths; rewrite !elem_of_cons; auto 10).
    by rewrite (Hnoopinion Hpol).
  - intros Hpol. by rewrite (Hnoprefix Hpol).
Qed.

End Properties.

(** ** Pruning *)

Lemma NestedFieldNoCopy_two (obj : gmap string value) (a b : string) :
  NestedFieldNoCopy (Some obj) [a; b]
  = match obj !! a with
    | None | Some VNull => (VNull, false, None)
    | Some (VMap m) =>
      match m !! b with
      | Some x => (x, true, None)
      | None => (VNull, false, None)
      end
    | Some v => (VNull, false, Some (accessorError [a; b] v "map[string]interface{}"))
    end.
Proof.
  unfold NestedFieldNoCopy. simpl.
  by destruct (obj !! a) as [[]|].
Qed.

Lemma SetNestedField_two (x : value) (a b : string) :
  SetNestedField ∅ x [a; b] = ({[ a := VMap {[ b := x ]} ]}, None).
Proof.
  unfold SetNestedField. simpl. rewrite lookup_empty. by rewrite !insert_empty.
Qed.

(** What [Pruned] returns for one path of two fields. *)
Lemma Pruned_two (obj : gmap string value) (a b : string) :
  Pruned (Some obj) [[a; b]]
  = Some match obj !! a with
         | Some (VMap m) =>
           match m !! b with
           | Some x => if isEmptyContainer x then ∅ else {[ a := VMap {[ b := x ]} ]}
           | None => ∅
           end
         | _ => ∅
         end.
Proof.
  unfold Pruned. simpl. unfold prunePath. rewrite NestedFieldNoCopy_two.
  destruct (obj !! a) as [[]|]; try done.
  destruct (_ !! b) as [x|]; [|done]. simpl.
  destruct (isEmptyContainer x); [done|]. by rewrite SetNestedField_two.
Qed.

Lemma Pruned_prunedToDisabledPlugins (cfg : config) :
  prunedToDisabledPlugins (Pruned cfg [disableAdmissionPluginsPath]).
Proof.
  destruct cfg as [obj|]; [|by intros ? [=]].
  unfold disableAdmissionPluginsPath. rewrite Pruned_two.
  intros obj' [= <-] k v.
  destruct (obj !! "apiServerArguments") as [[]|]; try by rewrite lookup_empty.
  destruct (_ !! "disable-admission-plugins") as [x|]; [|by rewrite lookup_empty].
  destruct (isEmptyContainer x) eqn:Hx; [by rewrite lookup_empty|].
  intros [<- <-]%lookup_singleton_Some. split; [done|].
  eexists; split; [done|].
  by intros k' v' [<- <-]%lookup_singleton_Some.
Qed.

(** A pruned document differs from one that has a key of its own besides
    [apiServerArguments]. *)
Lemma prunedToDisabledPlugins_drops (cfg : config) (obj : gmap string value) (k : string) :
  prunedToDisabledPlugins cfg →
  k ≠ "apiServerArguments" → is_Some (obj !! k) → cfg ≠ Some obj.
Proof.
  intros Hpruned Hk [v Hv] ->. by destruct (Hpruned obj eq_refl k v Hv).
Qed.

(** ** The sorted list of a string set *)

Lemma elem_of_List (s : gset string) (x : string) : x ∈ List s ↔ x ∈ s.
Proof. unfold List. by rewrite merge_sort_Permutation, elem_of_elements. Qed.

Lemma elem_of_disabledSet (disabled : list string) (x : string) :
  x ∈ List (Insert (NewString disabled) rbrPlugins) ↔ x ∈ disabled ∨ x ∈ rbrPlugins.
Proof.
  rewrite elem_of_List. unfold Insert, NewString.
  by rewrite elem_of_union, !elem_of_list_to_set.
Qed.

Lemma toStringSlice_fmap (fields l : list string) :
  toStringSlice fields (VString <$> l) = Ok l.
Proof. induction l as [|s l IH]; [done|]. cbn [fmap list_fmap toStringSlice]. by rewrite IH. Qed.

(** ** The RoleBindingRestriction observer *)

(** C10 (every return is pruned). Whatever [ObserveRoleBindingRestrictionPlugins]
    returns is the pruning, to apiServerArguments.disable-admission-plugins,
    of what its return statement names: the result has no key outside that
    path and no empty container at it. That includes the returns that name
    the existing config: on errors, and for the type IntegratedOAuth or
    empty, the result is the pruned existing config, so an existing config
    with a key of its own elsewhere is not handed back as it is. *)
Theorem every_return_is_pruned (listers : Listers) (existingConfig : config) :
  let raw := observeRoleBindingRestrictionPlugins listers existingConfig in
  let r := ObserveRoleBindingRestrictionPlugins listers existingConfig in
  r = ((Pruned (fst (fst raw)) [disableAdmissionPluginsPath], snd (fst raw)), snd raw)
  ∧ prunedToDisabledPlugins (fst (fst r))
  ∧ (snd (fst r) ≠ [] → fst (fst r) = Pruned existingConfig [disableAdmissionPluginsPath])
  ∧ (∀ auth, AuthConfigLister_Get listers "cluster" = Ok auth →
       spec_Type (Spec auth) = AuthenticationTypeIntegratedOAuth ∨ spec_Type (Spec auth) = "" →
       fst (fst r) = Pruned existingConfig [disableAdmissionPluginsPath])
  ∧ (∀ obj k, existingConfig = Some obj → k ≠ "apiServerArguments" → is_Some (obj !! k) →
       fst (fst r) ≠ existingConfig).
Proof.
  intros raw r.
  assert (Hr : r = ((Pruned (fst (fst raw)) [disableAdmissionPluginsPath], snd (fst raw)),
                    snd raw)).
  { subst r raw. unfold ObserveRoleBindingRestrictionPlugins.
    destruct (observeRoleBindingRestrictionPlugins _ _) as [[ret errs] log].
    unfold bind, pure. simpl. by rewrite app_nil_r. }
  assert (Hpruned : prunedToDisabledPlugins (fst (fst r))).
  { rewrite Hr. apply Pruned_prunedToDisabledPlugins. }
  split; [done|]. split; [done|]. rewrite Hr. simpl. subst raw.
  unfold observeRoleBindingRestrictionPlugins.
  split; [|split].
  - destruct (AuthConfigLister_Get listers "cluster") as [auth|err].
    + destruct (_ || _); [done|].
      destruct (NestedStringSlice _ _) as [[disabled found] [e|]]; [done|].
      by destruct (SetNestedStringSlice _ _ _) as [observed [e|]].
    + by destruct (IsNotFound err).
  - intros auth -> Htype.
    assert (String.eqb (spec_Type (Spec auth)) AuthenticationTypeIntegratedOAuth
            || (String.length (spec_Type (Spec auth)) =? 0)%nat = true) as ->; [|done].
    destruct Htype as [-> | ->]; done.
  - intros obj k -> Hk Hin ?.
    eapply (prunedToDisabledPlugins_drops _ obj k Hpruned Hk Hin).
    rewrite Hr. simpl. done.
Qed.

(** With an authentication type other than the built-in OAuth stack, the
    observer emits the sorted union of the existing entries and its own two
    plugins, and nothing else. *)
Lemma ObserveRoleBindingRestrictionPlugins_disables (listers : Listers)
    (existingConfig : config) (auth : Authentication) (disabled : list string) (found : bool) :
  AuthConfigLister_Get listers "cluster" = Ok auth →
  spec_Type (Spec auth) ≠ AuthenticationTypeIntegratedOAuth →
  spec_Type (Spec auth) ≠ "" →
  NestedStringSlice existingConfig disableAdmissionPluginsPath = (disabled, found, None) →
  ObserveRoleBindingRestrictionPlugins listers existingConfig
  = ((Some {[ "apiServerArguments" :=
                VMap {[ "disable-admission-plugins" :=
                          VSlice (VString <$> List (Insert (NewString disabled) rbrPlugins)) ]} ]},
      []), []).
Proof.
  intros Hauth Hoauth Hempty Hslice.
  unfold ObserveRoleBindingRestrictionPlugins, observeRoleBindingRestrictionPlugins.
  rewrite Hauth.
  apply String.eqb_neq in Hoauth. rewrite Hoauth.
  destruct (String.length (spec_Type (Spec auth)) =? 0)%nat eqn:Hlen.
  { by apply length_zero_iff in Hlen. }
  simpl. rewrite Hslice.
  unfold SetNestedStringSlice, disableAdmissionPluginsPath.
  rewrite SetNestedField_two. rewrite bind_pure. unfold pure. do 2 f_equal.
  rewrite Pruned_two, lookup_singleton_eq, lookup_singleton_eq.
  assert (Hne : isEmptyContainer
                  (VSlice (VString <$> List (Insert (NewString disabled) rbrPlugins)))
                = false); [|by rewrite Hne].
  simpl. apply bool_decide_eq_false_2. intros Hnil%fmap_nil_inv.
  assert (Hin : "authorization.openshift.io/RestrictSubjectBindings"
                ∈ List (Insert (NewString disabled) rbrPlugins)).
  { apply elem_of_disabledSet. right. apply list_elem_of_here. }
  rewrite Hnil in Hin. by apply elem_of_nil in Hin.
Qed.

Lemma NestedStringSlice_disabled (l : list string) :
  NestedStringSlice
    (Some {[ "apiServerArguments" :=
               VMap {[ "disable-admission-plugins" := VSlice (VString <$> l) ]} ]})
    disableAdmissionPluginsPath
  = (l, true, None).
Proof.
  unfold NestedStringSlice, disableAdmissionPluginsPath.
  rewrite NestedFieldNoCopy_two, lookup_singleton_eq, lookup_singleton_eq. simpl.
  by rewrite toStringSlice_fmap.
Qed.

Lemma toStringSlice_nil_inv (fields : list string) (m : list value) :
  toStringSlice fields m = Ok [] → m = [].
Proof.
  destruct m as [|[] m]; simpl; try done.
  by destruct (toStringSlice fields m).
Qed.




(** * The theorems at work, and the inputs that refute claims as stated *)

(** ** C1 *)



(** ** C2 *)

(** Before the first snapshot, an existing config with OIDC arguments is
    handed back untouched by both revisions. *)
Lemma gating_witness :
  ObserveExternalOIDC url_Parse_scheme gatesNotObserved listersNoCA (Some scenarioFragment)
  = ((Some scenarioFragment, []), [])
  ∧ StructuredAuth.ObserveExternalOIDC gatesNotObserved listersNoCA (Some scenarioFragment)
    = ((Some scenarioFragment, []), []).
Proof.
  apply (gating_before_first_snapshot url_Parse_scheme gatesNotObserved listersNoCA
           (Some scenarioFragment)).
  reflexivity.
Defined.

(** ** C3 *)

(** The fragment of scenario A is readable at every OIDC path. *)
Lemma scenarioFragment_readable : oidcReadable (Some scenarioFragment).
Proof.
  intros path Hin. unfold oidcPaths in Hin. rewrite !elem_of_cons in Hin.
  destruct Hin as [->|[->|[->|[->|[->|[->|[->|[->|Hin]]]]]]]]; try reflexivity.
  by apply elem_of_nil in Hin.
Qed.

(** An empty client ID and a valid resource, each with an existing config
    whose [apiServerArguments] is not a map, and the empty client ID with a
    readable existing config. *)
Lemma error_atomicity_witness :
  let before := fst (ObserveExternalOIDC url_Parse_scheme gatesOn listersNoClientID
                       existingUnreadable) in
  let inside := fst (ObserveExternalOIDC url_Parse_scheme gatesOn listersNoCA
                       existingUnreadable) in
  let readable := fst (ObserveExternalOIDC url_Parse_scheme gatesOn listersNoClientID
                         (Some scenarioFragment)) in
  fst before = existingUnreadable
  ∧ (fst inside = Some scenarioFragment ∧ fst inside ≠ existingUnreadable)
  ∧ fst readable = Some scenarioFragment.
Proof.
  split; [|split].
  - apply (proj1 (error_atomicity_outside_merge_loop url_Parse_scheme gatesOn
                    listersNoClientID (authOfType AuthenticationTypeOIDC)
                    existingUnreadable)).
    + vm_compute. reflexivity.
    + vm_compute. discriminate.
  - edestruct (proj1 (proj2 (proj2 (error_atomicity_outside_merge_loop url_Parse_scheme
                 gatesOn listersNoCA (authOfType AuthenticationTypeOIDC)
                 existingUnreadable)))) as (Hfst & _ & _ & Hne).
    { vm_compute. reflexivity. }
    split.
    + rewrite Hfst. vm_compute. reflexivity.
    + apply Hne. vm_compute. discriminate.
  - apply (proj1 (proj2 (proj2 (proj2 (proj2 (error_atomicity_outside_merge_loop
             url_Parse_scheme gatesOn listersNoClientID
             (authOfType AuthenticationTypeOIDC) (Some scenarioFragment)))))
             scenarioFragment_readable)).
    vm_compute. discriminate.
Defined.

(** C3 as stated fails here: the resource is valid, the existing config cannot
    be read, and the pass returns the read errors together with the newly
    built fragment, not with the existing config. *)
Lemma merge_loop_errors_come_with_the_fragment :
  let r := ObserveExternalOIDC url_Parse_scheme gatesOn listersNoCA existingUnreadable in
  snd (fst r) ≠ []
  ∧ fst (fst r) = Some scenarioFragment
  ∧ fst (fst r) ≠ existingUnreadable.
Proof. vm_compute. repeat split; discriminate. Qed.

(** ** C4 *)



(** ** C5 *)

(** The case "configmap key values different" of [TestCMNeedsSync]. *)
Lemma comparison_key_witness :
  cmNeedsSync cmListers "cm1" "ns1" "cm2" "ns2" "keyB" = (true, None).
Proof.
  pose proof (cmNeedsSync_comparison_key cmListers "cm1" "ns1" "cm2" "ns2" "keyB"
                (caBundle "ns1" "cm1" {[ "keyA" := "aaa"; "keyB" := "bbb"; "key1" := "val1" ]})
                (caBundle "ns2" "cm2" {[ "keyA" := "aaa"; "keyB" := "bbbbbb"; "key2" := "val2" ]})
                eq_refl ltac:(discriminate) eq_refl ltac:(discriminate)) as H.
  destruct H as [H _]. destruct (H "bbb" "bbbbbb" eq_refl eq_refl) as [Herr Hsync].
  destruct (cmNeedsSync _ _ _ _ _ _) as [b e]. simpl in *. subst e.
  f_equal. apply Hsync. discriminate.
Defined.

(** C5 as stated fails here (the case "configmap key not found in second cm"
    of [TestCMNeedsSync]): [key1] is in the target [cm1] only, and the call
    returns an error with needsSync=false, not needsSync=true. *)
Lemma key_only_in_target_is_an_error :
  cmNeedsSync cmListers "cm1" "ns1" "cm2" "ns2" "key1"
  = (false, Some (Errorf "key '%s' not found in source configmap" [ArgString "key1"]))
  ∧ fst (cmNeedsSync cmListers "cm1" "ns1" "cm2" "ns2" "key1") ≠ true.
Proof. vm_compute. split; [reflexivity|discriminate]. Qed.

(** ** C6 *)

(** A named CA configmap that does not exist: the mirror is requested all the
    same, and the pass publishes the fragment without error. *)
Lemma mirror_lookup_error_witness :
  let r := ObserveExternalOIDC url_Parse_scheme gatesOn listersMissingCA None in
  let request := SyncConfigMap caBundleTarget
                   {| Namespace := caBundleSourceNamespace; Name := "missing-ca" |} in
  fst (fst r) = Some scenarioFragmentWithCA
  ∧ syncs r = [request]
  ∧ events r = [caBundleSyncedEvent; configChangedEvent]
  ∧ snd (fst r) = [].
Proof.
  pose proof (mirror_lookup_error_requests_sync_anyway url_Parse_scheme gatesOn
           listersMissingCA None (scenarioAuth NoOpinion "missing-ca" "abc")
           (scenarioProvider NoOpinion "missing-ca" "abc")
           {| ComponentName := componentName; ComponentNamespace := TargetNamespace;
              ClientID := "abc" |}
           (fst (oidcFieldValues url_Parse_scheme
                   (scenarioProvider NoOpinion "missing-ca" "abc")
                   {| ComponentName := componentName; ComponentNamespace := TargetNamespace;
                      ClientID := "abc" |}))
           false (notFound "missing-ca")
           (conj eq_refl (ex_intro _ _ (conj eq_refl eq_refl)))
           eq_refl eq_refl eq_refl eq_refl eq_refl eq_refl) as H.
  cbv zeta in H.
  change (ResourceSyncer_SyncConfigMap listersMissingCA caBundleTarget
            (caBundleSource (scenarioProvider NoOpinion "missing-ca" "abc")))
    with (@None error) in H.
  cbv iota in H. destruct H as (H1 & H2 & H3 & H4).
  split; [rewrite H1; vm_compute; reflexivity|].
  split; [rewrite H2; reflexivity|].
  split; [rewrite H3; vm_compute; reflexivity|].
  apply H4. intros path _. reflexivity.
Defined.

(** C6 as stated fails here: the source lookup of the mirror decision fails
    with not-found, yet the pass returns no error, returns a fragment rather
    than the existing (nil) tree, and requests the mirror. *)
Lemma mirror_lookup_error_is_swallowed :
  let r := ObserveExternalOIDC url_Parse_scheme gatesOn listersMissingCA None in
  cmNeedsSync listersMissingCA TargetOIDCCAConfigMapName TargetNamespace "missing-ca"
              caBundleSourceNamespace "ca-bundle.crt"
  = (false, Some (notFound "missing-ca"))
  ∧ snd (fst r) = []
  ∧ fst (fst r) ≠ None
  ∧ syncs r = [SyncConfigMap caBundleTarget
                 {| Namespace := caBundleSourceNamespace; Name := "missing-ca" |}].
Proof. vm_compute. repeat split; discriminate. Qed.

(** ** C7 *)

(** Scenarios A and B of the specification. *)
Lemma username_prefix_witness :
  (let fragment := fst (fst (ObserveExternalOIDC url_Parse_scheme gatesOn listersNoCA None)) in
   NestedSlice fragment [apiServerArgumentsPath; oidcIssuerURLPath]
   = ([VString "https://idp.example.com"], true, None)
   ∧ NestedFieldNoCopy fragment [apiServerArgumentsPath; oidcUsernamePrefixPath]
     = (VNull, false, None))
  ∧ (let fragment :=
       fst (fst (ObserveExternalOIDC url_Parse_scheme gatesOn listersNoPrefix None)) in
     NestedSlice fragment [apiServerArgumentsPath; oidcUsernamePrefixPath]
     = ([VString "-"], true, None)).
Proof.
  pose proof (username_prefix_mapping url_Parse_scheme gatesOn listersNoCA None
                (scenarioAuth NoOpinion "" "abc") (scenarioProvider NoOpinion "" "abc")
                {| ComponentName := componentName; ComponentNamespace := TargetNamespace;
                   ClientID := "abc" |}
                {| Scheme := "https" |}
                (conj eq_refl (ex_intro _ _ (conj eq_refl eq_refl)))
                eq_refl eq_refl eq_refl eq_refl eq_refl eq_refl eq_refl eq_refl eq_refl
                eq_refl eq_refl) as HA.
  pose proof (username_prefix_mapping url_Parse_scheme gatesOn listersNoPrefix None
                (scenarioAuth NoPrefix "" "abc") (scenarioProvider NoPrefix "" "abc")
                {| ComponentName := componentName; ComponentNamespace := TargetNamespace;
                   ClientID := "abc" |}
                {| Scheme := "https" |}
                (conj eq_refl (ex_intro _ _ (conj eq_refl eq_refl)))
                eq_refl eq_refl eq_refl eq_refl eq_refl eq_refl eq_refl eq_refl eq_refl
                eq_refl eq_refl) as HB.
  cbv zeta in HA, HB.
  destruct HA as (_ & HA1 & _ & _ & HA2 & _).
  destruct HB as (_ & _ & _ & _ & _ & HB2).
  split; [split; [exact HA1|exact (HA2 eq_refl)]|exact (HB2 eq_refl)].
Defined.

(** ** C8 *)

(** Scenario A with an empty client ID. *)
Lemma empty_client_id_witness :
  let r := ObserveExternalOIDC url_Parse_scheme gatesOn listersNoClientID
                               (Some scenarioFragment) in
  fst (fst r) = Some scenarioFragment
  ∧ snd (fst r) ≠ []
  ∧ Errorf "OIDC client ID not set" [] ∈ snd (fst r)
  ∧ snd (fst r)
    = snd (oidcFieldValues url_Parse_scheme (scenarioProvider NoOpinion "" "")
             {| ComponentName := componentName; ComponentNamespace := TargetNamespace;
                ClientID := "" |})
  ∧ snd r = [].
Proof.
  apply (empty_client_id_is_rejected url_Parse_scheme gatesOn listersNoClientID
           (Some scenarioFragment) (scenarioAuth NoOpinion "" "")
           (scenarioProvider NoOpinion "" "")
           {| ComponentName := componentName; ComponentNamespace := TargetNamespace;
              ClientID := "" |}).
  - split; [reflexivity|]. eexists. split; reflexivity.
  - reflexivity.
  - reflexivity.
  - reflexivity.
  - reflexivity.
  - reflexivity.
Defined.

(** ** C9 *)


(** C9 as stated fails here: the authentication type is OIDC, the existing
    sequence holds [off1] and an entry that is not a string, and the observer
    returns an error with the existing sequence as it was, without the two
    plugins. *)
Lemma unreadable_plugins_are_returned_as_they_are :
  let r := ObserveRoleBindingRestrictionPlugins listersOIDCType existingMixedPlugins in
  AuthConfigLister_Get listersOIDCType "cluster" = Ok (authOfType AuthenticationTypeOIDC)
  ∧ snd (fst r) ≠ []
  ∧ fst (fst r) = existingMixedPlugins
  ∧ NestedFieldNoCopy (fst (fst r)) disableAdmissionPluginsPath
    = (VSlice [VString "off1"; VNumber 1], true, None)
  ∧ ∀ plugin, plugin ∈ rbrPlugins → VString plugin ∉ [VString "off1"; VNumber 1].
Proof.
  cbv zeta. split; [reflexivity|]. split; [vm_compute; discriminate|].
  split; [vm_compute; reflexivity|]. split; [vm_compute; reflexivity|].
  intros plugin Hin Hin'. unfold rbrPlugins in Hin.
  rewrite !elem_of_cons, elem_of_nil in Hin.
  rewrite !elem_of_cons, elem_of_nil in Hin'.
  destruct Hin as [->|[->|[]]]; destruct Hin' as [[=]|[[=]|[]]].
Qed.

(** The same case, evaluated: the emitted sequence is sorted. *)
Example disabled_plugins_sorted :
  NestedStringSlice
    (fst (fst (ObserveRoleBindingRestrictionPlugins listersOIDCType
                 (newTestConfig ["off2"; "off1"]))))
    disableAdmissionPluginsPath
  = (["authorization.openshift.io/RestrictSubjectBindings";
      "authorization.openshift.io/ValidateRoleBindingRestriction"; "off1"; "off2"],
     true, None).
Proof. vm_compute. reflexivity. Qed.

(** ** C10 *)

(** An error return: the existing config has a non-string entry, and what
    comes back is its pruning, without the key [servingInfo]. *)
Example error_return_is_pruned :
  let existing : config :=
    Some {[ "apiServerArguments" :=
              VMap {[ "disable-admission-plugins" := VSlice [VNumber 1] ]};
            "servingInfo" := VNull ]} in
  let r := ObserveRoleBindingRestrictionPlugins listersOIDCType existing in
  snd (fst r) ≠ []
  ∧ fst (fst r)
    = Some {[ "apiServerArguments" :=
                VMap {[ "disable-admission-plugins" := VSlice [VNumber 1] ]} ]}
  ∧ fst (fst r) ≠ existing.
Proof. vm_compute. repeat split; discriminate. Qed.

(** * Further properties of the observers *)

(** ** Gate, collaborators and schema *)

Section GateProperties.

Variable url_Parse : string → result url_URL.

(** X1 (disabled gate). Once a snapshot has been observed in which the
    ExternalOIDC gate is disabled, both revisions of the observer return the
    existing config unchanged, with no error, no event and no mirror request,
    whatever the cluster holds. *)
Theorem disabled_gate_is_a_noop (o : externalOIDC) (listers : Listers)
    (existingConfig : config) (featureGates : FeatureGate) :
  AreInitialFeatureGatesObserved (featureGateAccessor o) = true →
  CurrentFeatureGates (featureGateAccessor o) = Ok featureGates →
  Enabled featureGates FeatureGateExternalOIDC = false →
  ObserveExternalOIDC url_Parse o listers existingConfig = ((existingConfig, []), [])
  ∧ StructuredAuth.ObserveExternalOIDC o listers existingConfig = ((existingConfig, []), []).
Proof.
  intros Hobs Hfg Hen.
  unfold ObserveExternalOIDC, StructuredAuth.ObserveExternalOIDC.
  rewrite Hobs, Hfg. simpl. by rewrite Hen.
Qed.

(** X2 (collaborator failures). An error of the feature gate accessor, or an
    error of the authentication lister other than not-found, is returned as
    it is, alone, with the existing config; no event is emitted and no mirror
    is requested. This holds for both revisions of the observer. *)
Theorem collaborator_failure_is_returned_verbatim (o : externalOIDC) (listers : Listers)
    (existingConfig : config) (err : error) :
  AreInitialFeatureGatesObserved (featureGateAccessor o) = true →
  CurrentFeatureGates (featureGateAccessor o) = Fail err
  ∨ (gateEnabled o
     ∧ AuthConfigLister_Get listers "cluster" = Fail err ∧ IsNotFound err = false) →
  ObserveExternalOIDC url_Parse o listers existingConfig = ((existingConfig, [err]), [])
  ∧ StructuredAuth.ObserveExternalOIDC o listers existingConfig
    = ((existingConfig, [err]), []).
Proof.
  intros Hobs [Hfg|(Hgate & Hauth & Hnf)].
  - unfold ObserveExternalOIDC, StructuredAuth.ObserveExternalOIDC.
    by rewrite Hobs, Hfg.
  - destruct Hgate as (_ & featureGates & Hfg & Hen).
    unfold ObserveExternalOIDC, StructuredAuth.ObserveExternalOIDC.
    rewrite Hobs, Hfg. simpl. rewrite Hen. simpl. by rewrite Hauth, Hnf.
Qed.

(** X3 (schema violations). With the gate enabled, an authentication resource
    whose type is none of IntegratedOAuth, None, empty and OIDC, or whose type
    is OIDC without exactly one provider, or whose one provider has no client
    config for the kube-apiserver, makes the pass return the existing config
    with exactly one error; no event is emitted and no mirror is requested. *)
Theorem schema_violation_is_one_error (o : externalOIDC) (listers : Listers)
    (existingConfig : config) (auth : Authentication) :
  gateEnabled o →
  AuthConfigLister_Get listers "cluster" = Ok auth →
  (spec_Type (Spec auth) ∉ [AuthenticationTypeIntegratedOAuth; AuthenticationTypeNone; "";
                            AuthenticationTypeOIDC]
   ∨ (spec_Type (Spec auth) = AuthenticationTypeOIDC
      ∧ (length (OIDCProviders (Spec auth)) ≠ 1
         ∨ getOIDCClientForComponent auth componentName TargetNamespace = None))) →
  ∃ err, ObserveExternalOIDC url_Parse o listers existingConfig
         = ((existingConfig, [err]), []).
Proof.
  intros Hgate Hauth Hbad. enter_gate Hgate. rewrite Hauth.
  destruct Hbad as [Htype|(Htype & Hbad)].
  - rewrite !not_elem_of_cons in Htype.
    destruct Htype as (H1 & H2 & H3 & H4 & _).
    apply String.eqb_neq in H1, H2, H3, H4. rewrite H1, H2, H3, H4. simpl. eauto.
  - rewrite Htype. simpl. unfold observeExternalOIDC.
    destruct (OIDCProviders (Spec auth)) as [|provider [|]] eqn:Hprov; simpl; eauto.
    destruct Hbad as [Hlen|Hclient]; [done|]. rewrite Hclient. simpl. eauto.
Qed.

End GateProperties.

Lemma disabled_gate_witness :
  ObserveExternalOIDC url_Parse_scheme gatesOff listersNoCA (Some scenarioFragment)
  = ((Some scenarioFragment, []), [])
  ∧ StructuredAuth.ObserveExternalOIDC gatesOff listersNoCA (Some scenarioFragment)
    = ((Some scenarioFragment, []), []).
Proof.
  apply (disabled_gate_is_a_noop url_Parse_scheme gatesOff listersNoCA
           (Some scenarioFragment) {| Enabled := λ _, false |});
    reflexivity.
Defined.

Lemma collaborator_failure_witness :
  ObserveExternalOIDC url_Parse_scheme gatesOn listersFailing (Some scenarioFragment)
  = ((Some scenarioFragment, [StatusError false "cache not synced"]), [])
  ∧ StructuredAuth.ObserveExternalOIDC gatesOn listersFailing (Some scenarioFragment)
    = ((Some scenarioFragment, [StatusError false "cache not synced"]), []).
Proof.
  apply (collaborator_failure_is_returned_verbatim url_Parse_scheme gatesOn listersFailing
           (Some scenarioFragment) (StatusError false "cache not synced")).
  - reflexivity.
  - right. split; [|split; reflexivity].
    split; [reflexivity|]. eexists. split; reflexivity.
Defined.

Lemma schema_violation_witness :
  ∃ err, ObserveExternalOIDC url_Parse_scheme gatesOn listersOIDCType (Some scenarioFragment)
         = ((Some scenarioFragment, [err]), []).
Proof.
  apply (schema_violation_is_one_error url_Parse_scheme gatesOn listersOIDCType
           (Some scenarioFragment) (authOfType AuthenticationTypeOIDC)).
  - split; [reflexivity|]. eexists. split; reflexivity.
  - reflexivity.
  - right. split; [reflexivity|]. left. simpl. lia.
Defined.

Section FieldProperties.

Variable url_Parse : string → result url_URL.

(** *** The errors of the field translation *)

Lemma claimValidationRule_snd i rule m errs :
  snd (claimValidationRule i rule (m, errs)) = errs ++ claimRuleErrors i rule.
Proof.
  unfold claimValidationRule, claimRuleErrors.
  destruct (String.eqb_spec (rule_Type rule) TokenValidationRuleTypeRequiredClaim) as [Ht|Ht];
    [rewrite (bool_decide_eq_true_2 _ Ht)|rewrite (bool_decide_eq_false_2 _ Ht)];
    destruct (RequiredClaim rule); simpl; by rewrite ?app_nil_r, <-?app_assoc.
Qed.

Lemma claimValidationRules_snd rules i m errs :
  snd (claimValidationRules i rules (m, errs))
  = errs ++ concat (imap (λ j, claimRuleErrors (i + j)) rules).
Proof.
  revert i m errs. induction rules as [|rule rules IH]; intros i m errs; simpl.
  { by rewrite app_nil_r. }
  destruct (claimValidationRule i rule (m, errs)) as [m' errs'] eqn:Hrule.
  rewrite IH. pose proof (claimValidationRule_snd i rule m errs) as Hsnd.
  rewrite Hrule in Hsnd. simpl in Hsnd. rewrite Hsnd, <-app_assoc.
  rewrite Nat.add_0_r. do 2 f_equal.
  f_equal. apply imap_ext. intros j ? _. simpl. f_equal. lia.
Qed.

(** The accumulated errors are the errors of the issuer, of the client ID,
    of the username prefix and of the claim validation rules, in that order. *)
Lemma oidcFieldValues_errs provider clientConfig :
  snd (oidcFieldValues url_Parse provider clientConfig)
  = issuerURLErrors url_Parse provider
    ++ clientIDErrors clientConfig
    ++ usernamePrefixErrors provider
    ++ concat (imap claimRuleErrors (ClaimValidationRules provider)).
Proof.
  unfold oidcFieldValues.
  assert (H1 : snd (issuerURLField url_Parse provider (∅, []))
               = issuerURLErrors url_Parse provider).
  { unfold issuerURLField, issuerURLErrors.
    destruct (url_Parse _) as [u|e]; [|done]. by destruct (String.eqb _ _). }
  destruct (issuerURLField url_Parse provider (∅, [])) as [m1 e1]. simpl in H1. subst e1.
  assert (H2 : snd (clientIDField clientConfig (m1, issuerURLErrors url_Parse provider))
               = issuerURLErrors url_Parse provider ++ clientIDErrors clientConfig).
  { unfold clientIDField, clientIDErrors.
    destruct (ClientID clientConfig) eqn:Hid; simpl; [done|]. by rewrite app_nil_r. }
  destruct (clientIDField clientConfig _) as [m2 e2]. simpl in H2. subst e2.
  unfold claimMappingFields.
  match goal with |- context [usernamePrefixField provider (?m, ?e)] =>
    generalize m; intros m3
  end.
  assert (H4 : ∀ e, snd (usernamePrefixField provider (m3, e))
                    = e ++ usernamePrefixErrors provider).
  { intros e. unfold usernamePrefixField, usernamePrefixErrors.
    destruct (String.eqb_spec (PrefixPolicy (Username (ClaimMappings provider))) NoOpinion)
      as [Hp|Hp1].
    { rewrite bool_decide_eq_false_2; [by rewrite app_nil_r|]. rewrite Hp. by intros [? _]. }
    destruct (String.eqb_spec (PrefixPolicy (Username (ClaimMappings provider))) NoPrefix)
      as [Hp|Hp2].
    { rewrite bool_decide_eq_false_2; [by rewrite app_nil_r|]. rewrite Hp. by intros [? _]. }
    destruct (String.eqb_spec (PrefixPolicy (Username (ClaimMappings provider))) Prefix)
      as [Hp|Hp3].
    - destruct (username_Prefix _) eqn:Hprefix; simpl.
      + rewrite bool_decide_eq_false_2; [by rewrite app_nil_r|]. by intros [_ ?].
      + by rewrite bool_decide_eq_true_2.
    - rewrite bool_decide_eq_false_2; [by rewrite app_nil_r|]. by intros [? _]. }
  specialize (H4 (issuerURLErrors url_Parse provider ++ clientIDErrors clientConfig)).
  destruct (usernamePrefixField provider _) as [m4 e4]. simpl in H4. subst e4.
  assert (H5 : ∀ e, snd (requiredClaimField provider (m4, e))
                    = e ++ concat (imap claimRuleErrors (ClaimValidationRules provider))).
  { intros e. unfold requiredClaimField.
    destruct (ClaimValidationRules provider) as [|rule rules] eqn:Hrules.
    - simpl. by rewrite app_nil_r.
    - cbn [length Nat.ltb Nat.leb]. by rewrite claimValidationRules_snd. }
  match goal with |- context [requiredClaimField provider (m4, ?e)] =>
    specialize (H5 e); destruct (requiredClaimField provider (m4, e)) as [m5 e5]
  end.
  simpl in H5. subst e5. unfold caFileField. rewrite <-!app_assoc. by case_match.
Qed.

Lemma claimRuleErrors_nil i rule :
  claimRuleErrors i rule = []
  ↔ rule_Type rule = TokenValidationRuleTypeRequiredClaim ∧ RequiredClaim rule ≠ None.
Proof.
  unfold claimRuleErrors. repeat case_bool_decide; simpl; split; try done.
  - by intros [_ ?].
  - by intros [? _].
  - by intros [? _].
Qed.

Lemma claimRulesErrors_nil (f : nat → nat) rules :
  concat (imap (λ j, claimRuleErrors (f j)) rules) = []
  ↔ Forall (λ rule, rule_Type rule = TokenValidationRuleTypeRequiredClaim
                    ∧ RequiredClaim rule ≠ None) rules.
Proof.
  revert f. induction rules as [|rule rules IH]; intros f; simpl.
  { split; [constructor|done]. }
  change (imap ((λ j, claimRuleErrors (f j)) ∘ S) rules)
    with (imap (λ j, claimRuleErrors ((f ∘ S) j)) rules).
  rewrite Forall_cons, <-(IH (f ∘ S)), <-(claimRuleErrors_nil (f 0)).
  split; [by intros [? ?]%app_eq_nil|by intros [-> ->]].
Qed.

(** X4 (field errors are accumulated and block the mirror). On an OIDC resource
    with its one provider and client config, if any field is rejected, the
    pass returns the existing config together with the errors of the issuer
    URL, of the client ID, of the username prefix and of every claim
    validation rule, in that order, each field being judged on its own; it
    requests no mirror and emits no event. *)
Theorem field_errors_are_accumulated (o : externalOIDC) (listers : Listers)
    (existingConfig : config) (auth : Authentication) (provider : OIDCProvider)
    (clientConfig : OIDCClientConfig) :
  gateEnabled o →
  AuthConfigLister_Get listers "cluster" = Ok auth →
  spec_Type (Spec auth) = AuthenticationTypeOIDC →
  OIDCProviders (Spec auth) = [provider] →
  getOIDCClientForComponent auth componentName TargetNamespace = Some clientConfig →
  let errs := issuerURLErrors url_Parse provider
              ++ clientIDErrors clientConfig
              ++ usernamePrefixErrors provider
              ++ concat (imap claimRuleErrors (ClaimValidationRules provider)) in
  errs ≠ [] →
  ObserveExternalOIDC url_Parse o listers existingConfig = ((existingConfig, errs), []).
Proof.
  intros Hgate Hauth Htype Hprov Hclient errs Herrs.
  enter_gate Hgate. rewrite Hauth, Htype. simpl.
  unfold observeExternalOIDC. rewrite Hprov, Hclient.
  pose proof (oidcFieldValues_errs provider clientConfig) as Hsnd. fold errs in Hsnd.
  destruct (oidcFieldValues url_Parse provider clientConfig) as [values errs'].
  simpl in Hsnd. subst errs'. by destruct errs.
Qed.

(** X5 (what a valid provider is). The field translation raises no error
    exactly when the issuer URL parses with the scheme https, the client ID is
    not empty, the prefix policy Prefix comes with a prefix, and every claim
    validation rule has the type RequiredClaim and a required claim. *)
Theorem field_translation_valid_iff (provider : OIDCProvider)
    (clientConfig : OIDCClientConfig) :
  snd (oidcFieldValues url_Parse provider clientConfig) = []
  ↔ (∃ issuerURL, url_Parse (URL (Issuer provider)) = Ok issuerURL
                  ∧ Scheme issuerURL = "https")
    ∧ ClientID clientConfig ≠ ""
    ∧ ¬ (PrefixPolicy (Username (ClaimMappings provider)) = Prefix
         ∧ username_Prefix (Username (ClaimMappings provider)) = None)
    ∧ Forall (λ rule, rule_Type rule = TokenValidationRuleTypeRequiredClaim
                      ∧ RequiredClaim rule ≠ None)
             (ClaimValidationRules provider).
Proof.
  rewrite oidcFieldValues_errs.
  assert (H4 : concat (imap claimRuleErrors (ClaimValidationRules provider)) = []
               ↔ Forall (λ rule, rule_Type rule = TokenValidationRuleTypeRequiredClaim
                                 ∧ RequiredClaim rule ≠ None)
                        (ClaimValidationRules provider)).
  { exact (claimRulesErrors_nil id (ClaimValidationRules provider)). }
  assert (H1 : issuerURLErrors url_Parse provider = []
               ↔ ∃ issuerURL, url_Parse (URL (Issuer provider)) = Ok issuerURL
                              ∧ Scheme issuerURL = "https").
  { unfold issuerURLErrors. destruct (url_Parse _) as [u|e].
    - destruct (String.eqb_spec (Scheme u) "https") as [Hs|Hs].
      + split; [eauto|done].
      + split; [done|]. intros (u' & [= <-] & ?). done.
    - split; [done|]. by intros (u' & ? & _). }
  assert (H2 : clientIDErrors clientConfig = [] ↔ ClientID clientConfig ≠ "").
  { unfold clientIDErrors. case_bool_decide; split; done. }
  assert (H3 : usernamePrefixErrors provider = []
               ↔ ¬ (PrefixPolicy (Username (ClaimMappings provider)) = Prefix
                    ∧ username_Prefix (Username (ClaimMappings provider)) = None)).
  { unfold usernamePrefixErrors. case_bool_decide; split; done. }
  rewrite <-H1, <-H2, <-H3, <-H4. split.
  - intros (-> & (-> & (-> & ->)%app_eq_nil)%app_eq_nil)%app_eq_nil. done.
  - intros (-> & -> & -> & ->). done.
Qed.

(** *** The values of the field translation *)

Lemma issuerURLField_lookup_ne provider acc path :
  path ≠ oidcIssuerURLPath →
  fst (issuerURLField url_Parse provider acc) !! path = fst acc !! path.
Proof.
  intros Hne. destruct acc as [m errs]. unfold issuerURLField.
  repeat case_match; simpl; try done. by apply lookup_insert_ne.
Qed.

Lemma clientIDField_lookup_ne clientConfig acc path :
  path ≠ oidcClientIDPath →
  fst (clientIDField clientConfig acc) !! path = fst acc !! path.
Proof.
  intros Hne. destruct acc as [m errs]. unfold clientIDField.
  case_match; simpl; try done. by apply lookup_insert_ne.
Qed.

Lemma optional_insert (m : gmap string (list value)) (key path field arg : string) :
  (if (0 <? String.length field)%nat then <[key := [VString arg]]> m else m) !! path
  = if bool_decide (path = key)
    then match optionalArg field arg with Some v => Some v | None => m !! path end
    else m !! path.
Proof.
  unfold optionalArg. destruct field; simpl.
  - by case_bool_decide.
  - case_bool_decide as Hp; [subst; apply lookup_insert_eq|by apply lookup_insert_ne].
Qed.

Lemma claimMappingFields_lookup provider acc path :
  fst (claimMappingFields provider acc) !! path
  = if bool_decide (path = oidcGroupsPrefixPath) then
      match optionalArg (groups_Prefix (Groups (ClaimMappings provider)))
                        (groups_Prefix (Groups (ClaimMappings provider))) with
      | Some v => Some v | None => fst acc !! path end
    else if bool_decide (path = oidcGroupsClaimPath) then
      match optionalArg (Claim (groups_TokenClaimMapping (Groups (ClaimMappings provider))))
                        (Claim (groups_TokenClaimMapping (Groups (ClaimMappings provider)))) with
      | Some v => Some v | None => fst acc !! path end
    else if bool_decide (path = oidcUsernameClaimPath) then
      match optionalArg (Claim (username_TokenClaimMapping (Username (ClaimMappings provider))))
                        (Claim (username_TokenClaimMapping (Username (ClaimMappings provider)))) with
      | Some v => Some v | None => fst acc !! path end
    else fst acc !! path.
Proof.
  destruct acc as [m errs]. unfold claimMappingFields. cbn [fst].
  rewrite optional_insert. case_bool_decide as H1.
  { subst. destruct (optionalArg _ _); [done|].
    rewrite optional_insert, bool_decide_eq_false_2 by done.
    by rewrite optional_insert, bool_decide_eq_false_2. }
  rewrite optional_insert. case_bool_decide as H2.
  { subst. destruct (optionalArg _ _); [done|].
    by rewrite optional_insert, bool_decide_eq_false_2. }
  by rewrite optional_insert.
Qed.

Lemma usernamePrefixField_lookup provider acc :
  fst (usernamePrefixField provider acc) !! oidcUsernamePrefixPath
  = let policy := PrefixPolicy (Username (ClaimMappings provider)) in
    if bool_decide (policy = NoPrefix) then Some [VString "-"]
    else if bool_decide (policy = Prefix) then
      match username_Prefix (Username (ClaimMappings provider)) with
      | Some prefix => Some [VString (PrefixString prefix)]
      | None => fst acc !! oidcUsernamePrefixPath
      end
    else fst acc !! oidcUsernamePrefixPath.
Proof.
  destruct acc as [m errs]. unfold usernamePrefixField. cbn [fst]. cbv zeta.
  destruct (String.eqb_spec (PrefixPolicy (Username (ClaimMappings provider))) NoOpinion)
    as [Hp|Hp1].
  { rewrite Hp. by rewrite !bool_decide_eq_false_2. }
  destruct (String.eqb_spec (PrefixPolicy (Username (ClaimMappings provider))) NoPrefix)
    as [Hp|Hp2].
  { rewrite bool_decide_eq_true_2 by done. apply lookup_insert_eq. }
  rewrite (bool_decide_eq_false_2 _ Hp2).
  destruct (String.eqb_spec (PrefixPolicy (Username (ClaimMappings provider))) Prefix)
    as [Hp|Hp3].
  - rewrite bool_decide_eq_true_2 by done.
    destruct (username_Prefix _); [apply lookup_insert_eq|done].
  - by rewrite bool_decide_eq_false_2.
Qed.

(** The loop over the rules fills the slots of the slice from index [i] on. *)
Lemma claimValidationRules_slots rules i (m : gmap string (list value)) errs pre post :
  m !! oidcRequiredClaimPath = Some (pre ++ replicate (length rules) VNull ++ post) →
  length pre = i →
  fst (claimValidationRules i rules (m, errs)) !! oidcRequiredClaimPath
  = Some (pre ++ (requiredClaimArg <$> rules) ++ post).
Proof.
  revert i m errs pre. induction rules as [|rule rules IH]; intros i m errs pre Hm Hlen.
  { done. }
  cbn [claimValidationRules].
  destruct (claimValidationRule i rule (m, errs)) as [m' errs'] eqn:Hrule.
  assert (Hm' : m' !! oidcRequiredClaimPath
                = Some ((pre ++ [requiredClaimArg rule])
                        ++ replicate (length rules) VNull ++ post)).
  { change m' with (fst (m', errs')). rewrite <-Hrule.
    unfold claimValidationRule, requiredClaimArg. rewrite <-app_assoc. simpl in Hm.
    destruct (String.eqb_spec (rule_Type rule) TokenValidationRuleTypeRequiredClaim);
      destruct (RequiredClaim rule); simpl; try done.
    rewrite lookup_alter_eq, Hm. simpl. f_equal.
    rewrite insert_app_r_alt by lia. rewrite Hlen, Nat.sub_diag. done. }
  rewrite (IH (S i) m' errs' _ Hm') by (rewrite length_app; simpl; lia).
  by rewrite <-app_assoc.
Qed.

Lemma requiredClaimField_lookup provider acc :
  fst (requiredClaimField provider acc) !! oidcRequiredClaimPath
  = match ClaimValidationRules provider with
    | [] => fst acc !! oidcRequiredClaimPath
    | rules => Some (requiredClaimArg <$> rules)
    end.
Proof.
  destruct acc as [m errs]. unfold requiredClaimField.
  destruct (ClaimValidationRules provider) as [|rule rules] eqn:Hrules; [done|].
  cbn [length Nat.ltb Nat.leb].
  rewrite (claimValidationRules_slots _ 0 _ _ [] []); [by rewrite app_nil_r|
    by rewrite lookup_insert_eq, app_nil_r | done].
Qed.

Lemma caFileField_lookup provider acc path :
  fst (caFileField provider acc) !! path
  = if bool_decide (path = oidcCAFilePath)
    then match optionalArg (ref_Name (CertificateAuthority (Issuer provider)))
                           staticCABundleFilePath with
         | Some v => Some v | None => fst acc !! path end
    else fst acc !! path.
Proof.
  destruct acc as [m errs]. unfold caFileField. cbn [fst].
  rewrite <-optional_insert. by case_match.
Qed.

Lemma issuerURLField_lookup provider acc :
  fst (issuerURLField url_Parse provider acc) !! oidcIssuerURLPath
  = match issuerURLErrors url_Parse provider with
    | [] => Some [VString (URL (Issuer provider))]
    | _ => fst acc !! oidcIssuerURLPath
    end.
Proof.
  destruct acc as [m errs]. unfold issuerURLField, issuerURLErrors.
  destruct (url_Parse _) as [u|e]; [|done].
  destruct (String.eqb _ _); simpl; [apply lookup_insert_eq|done].
Qed.

Lemma clientIDField_lookup clientConfig acc :
  fst (clientIDField clientConfig acc) !! oidcClientIDPath
  = match optionalArg (ClientID clientConfig) (ClientID clientConfig) with
    | Some v => Some v | None => fst acc !! oidcClientIDPath end.
Proof.
  destruct acc as [m errs]. unfold clientIDField, optionalArg.
  destruct (ClientID clientConfig); simpl; [done|apply lookup_insert_eq].
Qed.

Ltac other_path := rewrite ?bool_decide_eq_false_2 by (intros ?; discriminate).

(** The table of the field translation, path by path. *)
Lemma oidcFieldValues_table provider clientConfig :
  let values := fst (oidcFieldValues url_Parse provider clientConfig) in
  values !! oidcIssuerURLPath
  = match issuerURLErrors url_Parse provider with
    | [] => Some [VString (URL (Issuer provider))]
    | _ => None
    end
  ∧ values !! oidcClientIDPath = optionalArg (ClientID clientConfig) (ClientID clientConfig)
  ∧ values !! oidcUsernameClaimPath
    = optionalArg (Claim (username_TokenClaimMapping (Username (ClaimMappings provider))))
                  (Claim (username_TokenClaimMapping (Username (ClaimMappings provider))))
  ∧ values !! oidcGroupsClaimPath
    = optionalArg (Claim (groups_TokenClaimMapping (Groups (ClaimMappings provider))))
                  (Claim (groups_TokenClaimMapping (Groups (ClaimMappings provider))))
  ∧ values !! oidcGroupsPrefixPath
    = optionalArg (groups_Prefix (Groups (ClaimMappings provider)))
                  (groups_Prefix (Groups (ClaimMappings provider)))
  ∧ values !! oidcUsernamePrefixPath
    = (if bool_decide (PrefixPolicy (Username (ClaimMappings provider)) = NoPrefix)
       then Some [VString "-"]
       else if bool_decide (PrefixPolicy (Username (ClaimMappings provider)) = Prefix)
       then (λ prefix, [VString (PrefixString prefix)])
              <$> username_Prefix (Username (ClaimMappings provider))
       else None)
  ∧ values !! oidcRequiredClaimPath
    = match ClaimValidationRules provider with
      | [] => None
      | rules => Some (requiredClaimArg <$> rules)
      end
  ∧ values !! oidcCAFilePath
    = optionalArg (ref_Name (CertificateAuthority (Issuer provider))) staticCABundleFilePath
  ∧ ∀ path, path ∉ oidcPaths → values !! path = None.
Proof.
  intros values. subst values. unfold oidcFieldValues.
  repeat split.
  - rewrite caFileField_lookup_ne, requiredClaimField_lookup_ne,
      usernamePrefixField_lookup_ne, claimMappingFields_lookup by done.
    other_path. rewrite clientIDField_lookup_ne, issuerURLField_lookup by done.
    by destruct (issuerURLErrors _ _).
  - rewrite caFileField_lookup_ne, requiredClaimField_lookup_ne,
      usernamePrefixField_lookup_ne, claimMappingFields_lookup by done.
    other_path. rewrite clientIDField_lookup, issuerURLField_lookup_ne by done.
    by destruct (optionalArg _ _).
  - rewrite caFileField_lookup_ne, requiredClaimField_lookup_ne,
      usernamePrefixField_lookup_ne, claimMappingFields_lookup by done.
    other_path. rewrite bool_decide_eq_true_2 by done.
    rewrite clientIDField_lookup_ne, issuerURLField_lookup_ne by done.
    by destruct (optionalArg _ _).
  - rewrite caFileField_lookup_ne, requiredClaimField_lookup_ne,
      usernamePrefixField_lookup_ne, claimMappingFields_lookup by done.
    other_path. rewrite bool_decide_eq_true_2 by done.
    rewrite clientIDField_lookup_ne, issuerURLField_lookup_ne by done.
    by destruct (optionalArg _ _).
  - rewrite caFileField_lookup_ne, requiredClaimField_lookup_ne,
      usernamePrefixField_lookup_ne, claimMappingFields_lookup by done.
    rewrite bool_decide_eq_true_2 by done.
    rewrite clientIDField_lookup_ne, issuerURLField_lookup_ne by done.
    by destruct (optionalArg _ _).
  - rewrite caFileField_lookup_ne, requiredClaimField_lookup_ne,
      usernamePrefixField_lookup, claimMappingFields_lookup by done.
    other_path. rewrite clientIDField_lookup_ne, issuerURLField_lookup_ne by done.
    cbv zeta. repeat case_bool_decide; try done.
  - rewrite caFileField_lookup_ne, requiredClaimField_lookup by done.
    destruct (ClaimValidationRules provider); [|done].
    rewrite usernamePrefixField_lookup_ne, claimMappingFields_lookup by done.
    other_path. by rewrite clientIDField_lookup_ne, issuerURLField_lookup_ne.
  - rewrite caFileField_lookup. rewrite bool_decide_eq_true_2 by done.
    destruct (optionalArg _ _); [done|].
    rewrite requiredClaimField_lookup_ne, usernamePrefixField_lookup_ne,
      claimMappingFields_lookup by done.
    other_path. by rewrite clientIDField_lookup_ne, issuerURLField_lookup_ne.
  - intros path Hpath. unfold oidcPaths in Hpath. rewrite !not_elem_of_cons in Hpath.
    destruct Hpath as (H1 & H2 & H3 & H4 & H5 & H6 & H7 & H8 & _).
    rewrite caFileField_lookup_ne, requiredClaimField_lookup_ne,
      usernamePrefixField_lookup_ne, claimMappingFields_lookup by done.
    rewrite !bool_decide_eq_false_2 by done.
    by rewrite clientIDField_lookup_ne, issuerURLField_lookup_ne.
Qed.

(** *** What a clean pass publishes *)

(** A pass on a valid resource whose mirror request does not fail returns the
    fragment of the translated values. *)
Lemma ObserveExternalOIDC_publishes (o : externalOIDC) (listers : Listers)
    (existingConfig : config) auth provider clientConfig :
  gateEnabled o →
  AuthConfigLister_Get listers "cluster" = Ok auth →
  spec_Type (Spec auth) = AuthenticationTypeOIDC →
  OIDCProviders (Spec auth) = [provider] →
  getOIDCClientForComponent auth componentName TargetNamespace = Some clientConfig →
  snd (oidcFieldValues url_Parse provider clientConfig) = [] →
  ResourceSyncer_SyncConfigMap listers caBundleTarget (caBundleSource provider) = None →
  fst (fst (ObserveExternalOIDC url_Parse o listers existingConfig))
  = Some (oidcFragment (fst (oidcFieldValues url_Parse provider clientConfig))).
Proof.
  intros Hgate Hauth Htype Hprov Hclient Hvalid Hsync.
  destruct (oidcFieldValues url_Parse provider clientConfig) as [values errs] eqn:Hvalues.
  simpl in Hvalid. subst errs.
  enter_gate Hgate. rewrite Hauth, Htype. simpl.
  rewrite (observeExternalOIDC_valid _ _ _ _ _ _ _ Hprov Hclient Hvalues).
  pose proof (syncCABundleIfNeeded_cases listers provider) as Hcases.
  simpl in Hcases. rewrite Hsync in Hcases.
  destruct (cmNeedsSync _ _ _ _ _ _) as [[|] [e|]]; by rewrite Hcases.
Qed.

Lemma NestedSlice_published values path :
  path ∈ oidcPaths →
  NestedSlice (Some (oidcFragment values)) [apiServerArgumentsPath; path]
  = published (values !! path).
Proof. intros Hin. rewrite NestedSlice_oidcFragment by done. by destruct (values !! path). Qed.

(** X6 (optional fields). On a valid OIDC resource whose mirror request does
    not fail, the fragment sets oidc-username-claim, oidc-groups-claim and
    oidc-groups-prefix to the one-element slice of the field when the field
    is not empty and leaves the path out when it is empty; oidc-ca-file is
    the fixed bundle path when a CA configmap is named and is left out
    otherwise; oidc-username-prefix is ["-"] for NoPrefix, the prefix string
    for Prefix, and left out for any other policy. *)
Theorem optional_fields_are_set_or_left_out (o : externalOIDC) (listers : Listers)
    (existingConfig : config) (auth : Authentication) (provider : OIDCProvider)
    (clientConfig : OIDCClientConfig) :
  gateEnabled o →
  AuthConfigLister_Get listers "cluster" = Ok auth →
  spec_Type (Spec auth) = AuthenticationTypeOIDC →
  OIDCProviders (Spec auth) = [provider] →
  getOIDCClientForComponent auth componentName TargetNamespace = Some clientConfig →
  snd (oidcFieldValues url_Parse provider clientConfig) = [] →
  ResourceSyncer_SyncConfigMap listers caBundleTarget (caBundleSource provider) = None →
  let fragment := fst (fst (ObserveExternalOIDC url_Parse o listers existingConfig)) in
  let argument path := NestedSlice fragment [apiServerArgumentsPath; path] in
  let usernameClaim := Claim (username_TokenClaimMapping (Username (ClaimMappings provider))) in
  let groupsClaim := Claim (groups_TokenClaimMapping (Groups (ClaimMappings provider))) in
  let groupsPrefix := groups_Prefix (Groups (ClaimMappings provider)) in
  let policy := PrefixPolicy (Username (ClaimMappings provider)) in
  argument oidcUsernameClaimPath = published (optionalArg usernameClaim usernameClaim)
  ∧ argument oidcGroupsClaimPath = published (optionalArg groupsClaim groupsClaim)
  ∧ argument oidcGroupsPrefixPath = published (optionalArg groupsPrefix groupsPrefix)
  ∧ argument oidcCAFilePath
    = published (optionalArg (ref_Name (CertificateAuthority (Issuer provider)))
                             staticCABundleFilePath)
  ∧ argument oidcUsernamePrefixPath
    = published (if bool_decide (policy = NoPrefix) then Some [VString "-"]
                 else if bool_decide (policy = Prefix)
                 then (λ prefix, [VString (PrefixString prefix)])
                        <$> username_Prefix (Username (ClaimMappings provider))
                 else None).
Proof.
  intros Hgate Hauth Htype Hprov Hclient Hvalid Hsync fragment argument.
  subst argument. cbv beta zeta.
  assert (Hfragment : fragment = Some (oidcFragment
                        (fst (oidcFieldValues url_Parse provider clientConfig))))
    by by apply ObserveExternalOIDC_publishes with auth.
  rewrite Hfragment.
  destruct (oidcFieldValues_table provider clientConfig)
    as (_ & _ & Hu & Hgc & Hgp & Hup & _ & Hca & _).
  cbv zeta in *.
  rewrite !NestedSlice_published by in_oidcPaths.
  by rewrite Hu, Hgc, Hgp, Hup, Hca.
Qed.

(** X7 (required claims). On a valid OIDC resource whose mirror request does
    not fail, oidc-required-claim holds one string [claim=value] per claim
    validation rule, in the order of the rules, and the path is left out when
    there is no rule. *)
Theorem required_claims_are_rendered_in_order (o : externalOIDC) (listers : Listers)
    (existingConfig : config) (auth : Authentication) (provider : OIDCProvider)
    (clientConfig : OIDCClientConfig) :
  gateEnabled o →
  AuthConfigLister_Get listers "cluster" = Ok auth →
  spec_Type (Spec auth) = AuthenticationTypeOIDC →
  OIDCProviders (Spec auth) = [provider] →
  getOIDCClientForComponent auth componentName TargetNamespace = Some clientConfig →
  snd (oidcFieldValues url_Parse provider clientConfig) = [] →
  ResourceSyncer_SyncConfigMap listers caBundleTarget (caBundleSource provider) = None →
  let fragment := fst (fst (ObserveExternalOIDC url_Parse o listers existingConfig)) in
  ∃ requiredClaims,
    RequiredClaim <$> ClaimValidationRules provider = Some <$> requiredClaims
    ∧ NestedSlice fragment [apiServerArgumentsPath; oidcRequiredClaimPath]
      = published
          (match requiredClaims with
           | [] => None
           | _ => Some ((λ requiredClaim,
                           VString (required_Claim requiredClaim +:+ "=" +:+
                                    RequiredValue requiredClaim)) <$> requiredClaims)
           end).
Proof.
  intros Hgate Hauth Htype Hprov Hclient Hvalid Hsync fragment.
  assert (Hfragment : fragment = Some (oidcFragment
                        (fst (oidcFieldValues url_Parse provider clientConfig))))
    by by apply ObserveExternalOIDC_publishes with auth.
  rewrite Hfragment. clear Hfragment fragment.
  apply field_translation_valid_iff in Hvalid as (_ & _ & _ & Hrules).
  destruct (oidcFieldValues_table provider clientConfig)
    as (_ & _ & _ & _ & _ & _ & Hr & _).
  cbv zeta in Hr. rewrite NestedSlice_published, Hr by in_oidcPaths. clear Hr.
  assert (Hclaims : ∃ requiredClaims,
             RequiredClaim <$> ClaimValidationRules provider = Some <$> requiredClaims
             ∧ requiredClaimArg <$> ClaimValidationRules provider
               = (λ requiredClaim,
                    VString (required_Claim requiredClaim +:+ "=" +:+
                             RequiredValue requiredClaim)) <$> requiredClaims).
  { induction Hrules as [|rule rules [Htyp Hrc] _ (claims & IH1 & IH2)].
    - by exists [].
    - destruct (RequiredClaim rule) as [rc|] eqn:Hrule; [|done].
      exists (rc :: claims). rewrite !fmap_cons, IH1, IH2, Hrule. split; [done|].
      f_equal. unfold requiredClaimArg. rewrite Hrule, Htyp. done. }
  destruct Hclaims as (claims & H1 & H2). exists claims. split; [done|].
  destruct (ClaimValidationRules provider) as [|rule rules], claims as [|rc claims];
    try done. by rewrite H2.
Qed.

End FieldProperties.



Lemma field_errors_witness :
  ObserveExternalOIDC url_Parse_scheme gatesOn
    (testListers (Some {| Spec := {| spec_Type := AuthenticationTypeOIDC;
                                      OIDCProviders := [brokenProvider] |} |}) [] None)
    (Some scenarioFragment)
  = ((Some scenarioFragment,
      [Errorf "https is required for provider URL" [];
       Errorf "OIDC client ID not set" [];
       Errorf "nil username prefix while policy expects one" [];
       Errorf "invalid claim validation rule type: %s" [ArgString "invalid"];
       Errorf "empty validation rule at index %d" [ArgInt 1]]), []).
Proof.
  apply (field_errors_are_accumulated url_Parse_scheme gatesOn _ (Some scenarioFragment)
           {| Spec := {| spec_Type := AuthenticationTypeOIDC;
                         OIDCProviders := [brokenProvider] |} |}
           brokenProvider brokenClient).
  - split; [reflexivity|]. eexists. split; reflexivity.
  - reflexivity.
  - reflexivity.
  - reflexivity.
  - reflexivity.
  - vm_compute. discriminate.
Defined.

Section PassProperties.

Variable url_Parse : string → result url_URL.

(** *** The shape of every pass *)

Lemma oidcFragment_ownedPathsOnly values : ownedPathsOnly (oidcFragment values).
Proof.
  unfold oidcFragment, wrapArgs. intros k v.
  case_bool_decide as Hm; [by rewrite lookup_empty|].
  intros [<- <-]%lookup_singleton_Some. split; [done|].
  eexists. split; [done|]. intros k' v'. rewrite lookup_addArgs.
  case_bool_decide as Hin; [|by rewrite lookup_empty].
  destruct (values !! k'); [|by rewrite lookup_empty].
  intros [= <-]. eauto.
Qed.

(** Either [observeExternalOIDC] stops with errors before the mirror, or the
    resource is valid and the pass goes through the mirror and the merge. *)
Lemma observeExternalOIDC_shape (auth : Authentication) (listers : Listers)
    (existingConfig : config) :
  (∃ err errs,
     observeExternalOIDC url_Parse auth listers existingConfig
     = ((existingConfig, err :: errs), []))
  ∨ (∃ provider clientConfig values,
       OIDCProviders (Spec auth) = [provider]
       ∧ getOIDCClientForComponent auth componentName TargetNamespace = Some clientConfig
       ∧ oidcFieldValues url_Parse provider clientConfig = (values, [])).
Proof.
  unfold observeExternalOIDC.
  destruct (OIDCProviders (Spec auth)) as [|provider [|]] eqn:Hprov; [by left; eauto| |by left; eauto].
  destruct (getOIDCClientForComponent _ _ _) as [clientConfig|] eqn:Hclient; [|by left; eauto].
  destruct (oidcFieldValues _ _ _) as [values [|err errs]] eqn:Hvalues.
  - right. eauto 10.
  - left. simpl. eauto.
Qed.

(** X8 (owned paths). Whatever the inputs, the tree that the OIDC observer
    returns is the existing config, or nil, or a fragment that sets nothing
    but OIDC arguments under apiServerArguments, each of them a slice. *)
Theorem returned_tree_is_existing_or_owned (o : externalOIDC) (listers : Listers)
    (existingConfig : config) :
  let tree := fst (fst (ObserveExternalOIDC url_Parse o listers existingConfig)) in
  tree = existingConfig ∨ tree = None
  ∨ ∃ fragment, tree = Some fragment ∧ ownedPathsOnly fragment.
Proof.
  intros tree. subst tree. unfold ObserveExternalOIDC.
  destruct (AreInitialFeatureGatesObserved _); simpl; [|by left].
  destruct (CurrentFeatureGates _) as [featureGates|err]; [|by left].
  destruct (Enabled featureGates _); simpl; [|by left].
  destruct (AuthConfigLister_Get listers "cluster") as [auth|err];
    [|by destruct (IsNotFound err); left].
  destruct (_ || _).
  - unfold requestSyncConfigMap, bind.
    destruct (ResourceSyncer_SyncConfigMap _ _ _); simpl; [by left|].
    destruct (oidcConfigExists existingConfig) as [[|] [e|]]; simpl; auto.
  - destruct (String.eqb _ _); [|by left].
    destruct (observeExternalOIDC_shape auth listers existingConfig)
      as [(err & errs & ->)|(provider & clientConfig & values & Hprov & Hclient & Hvalues)];
      [by left|].
    rewrite (observeExternalOIDC_valid _ _ _ _ _ _ _ Hprov Hclient Hvalues).
    destruct (syncCABundleIfNeeded listers provider) as [[b [e|]] log]; [by left|].
    right. right. eexists. split; [done|]. apply oidcFragment_ownedPathsOnly.
Qed.

(** X9 (the mirror link). Whatever the inputs, a pass of the OIDC observer
    requests at most one mirror; its target is always the configmap
    oidc-serving-ca-bundle of the operand namespace, and its source is either
    empty in both name and namespace, which deletes the target, or a named
    configmap of openshift-config. *)
Theorem at_most_one_mirror_to_the_fixed_target (o : externalOIDC) (listers : Listers)
    (existingConfig : config) :
  let r := ObserveExternalOIDC url_Parse o listers existingConfig in
  syncs r = []
  ∨ ∃ source,
      syncs r = [SyncConfigMap caBundleTarget source]
      ∧ (source = {| Namespace := ""; Name := "" |}
         ∨ (Namespace source = caBundleSourceNamespace ∧ Name source ≠ "")).
Proof.
  intros r. subst r. unfold ObserveExternalOIDC.
  destruct (AreInitialFeatureGatesObserved _); simpl; [|by left].
  destruct (CurrentFeatureGates _) as [featureGates|err]; [|by left].
  destruct (Enabled featureGates _); simpl; [|by left].
  destruct (AuthConfigLister_Get listers "cluster") as [auth|err];
    [|by destruct (IsNotFound err); left].
  destruct (_ || _).
  - right. exists {| Namespace := ""; Name := "" |}. split; [|by left].
    unfold requestSyncConfigMap, bind.
    destruct (ResourceSyncer_SyncConfigMap _ _ _); simpl; [done|].
    by destruct (oidcConfigExists existingConfig) as [[|] [e|]].
  - destruct (String.eqb _ _); [|by left].
    destruct (observeExternalOIDC_shape auth listers existingConfig)
      as [(err & errs & ->)|(provider & clientConfig & values & Hprov & Hclient & Hvalues)];
      [by left|].
    rewrite (observeExternalOIDC_valid _ _ _ _ _ _ _ Hprov Hclient Hvalues).
    pose proof (syncCABundleIfNeeded_log listers provider) as Hlog.
    assert (Hsyncs : ∀ (x : config * list error) (log : list effect),
              log = [] ∨ log = [SyncConfigMap caBundleTarget (caBundleSource provider)] →
              ∀ evs, Forall (λ e, isSync e = false) evs →
              syncs (x, log ++ evs) = log).
    { intros x log Hl evs Hevs. unfold syncs. simpl. rewrite filter_app.
      assert (filter (λ e, isSync e = true) evs = []) as ->.
      { induction Hevs as [|e evs He _ IH]; [done|].
        rewrite filter_cons_False; [done|]. by rewrite He. }
      rewrite app_nil_r. by destruct Hl as [->| ->]. }
    destruct (syncCABundleIfNeeded listers provider) as [[b [e|]] log]; simpl in Hlog.
    + rewrite <-(app_nil_r log), (Hsyncs _ _ Hlog) by constructor.
      destruct Hlog as [->| ->]; [by left|right].
      eexists. split; [done|]. unfold caBundleSource.
      destruct (String.length _ =? 0)%nat eqn:Hlen.
      * apply length_zero_iff in Hlen. rewrite Hlen. by left.
      * right. split; [done|]. simpl. intros Hn. rewrite Hn in Hlen. done.
    + rewrite (Hsyncs _ _ Hlog)
        by (destruct b, (st_configChanged _); repeat constructor).
      destruct Hlog as [->| ->]; [by left|right].
      eexists. split; [done|]. unfold caBundleSource.
      destruct (String.length _ =? 0)%nat eqn:Hlen.
      * apply length_zero_iff in Hlen. rewrite Hlen. by left.
      * right. split; [done|]. simpl. intros Hn. rewrite Hn in Hlen. done.
Qed.

(** X10 (bounded events). Whatever the inputs, a pass of the OIDC observer
    emits no event, or the removal event alone, or at most one CA bundle event
    followed by at most one change event: never an event per field. *)
Theorem events_are_bounded (o : externalOIDC) (listers : Listers)
    (existingConfig : config) :
  events (ObserveExternalOIDC url_Parse o listers existingConfig)
  ∈ [ []; [configRemovedEvent]; [caBundleSyncedEvent]; [configChangedEvent];
      [caBundleSyncedEvent; configChangedEvent] ].
Proof.
  unfold ObserveExternalOIDC.
  destruct (AreInitialFeatureGatesObserved _); simpl; [|apply list_elem_of_here].
  destruct (CurrentFeatureGates _) as [featureGates|err]; [|apply list_elem_of_here].
  destruct (Enabled featureGates _); simpl; [|apply list_elem_of_here].
  destruct (AuthConfigLister_Get listers "cluster") as [auth|err];
    [|destruct (IsNotFound err); apply list_elem_of_here].
  destruct (_ || _).
  - unfold requestSyncConfigMap, bind.
    destruct (ResourceSyncer_SyncConfigMap _ _ _); simpl; [apply list_elem_of_here|].
    destruct (oidcConfigExists existingConfig) as [[|] [e|]]; simpl;
      rewrite !elem_of_cons; auto.
  - destruct (String.eqb _ _); [|apply list_elem_of_here].
    destruct (observeExternalOIDC_shape auth listers existingConfig)
      as [(err & errs & ->)|(provider & clientConfig & values & Hprov & Hclient & Hvalues)];
      [apply list_elem_of_here|].
    rewrite (observeExternalOIDC_valid _ _ _ _ _ _ _ Hprov Hclient Hvalues).
    pose proof (syncCABundleIfNeeded_log listers provider) as Hlog.
    destruct (syncCABundleIfNeeded listers provider) as [[b [e|]] log]; simpl in Hlog.
    + destruct Hlog as [->| ->]; apply list_elem_of_here.
    + destruct Hlog as [->| ->]; destruct b, (st_configChanged _);
        unfold events; simpl; rewrite !elem_of_cons; auto 10.
Qed.

(** *** Change detection *)

Lemma mergeStep_changed existing values (st : mergeState) (path : string) :
  snd (NestedSlice existing [apiServerArgumentsPath; path]) = None →
  st_configChanged (fst (mergeStep existing values st path)) = true
  ↔ st_configChanged st = true ∨ argumentDiffers existing values path.
Proof.
  intros Hread. unfold mergeStep, argumentDiffers.
  set (st' := if negb (st_configChanged st) then _ else st).
  assert (Hst' : st_configChanged st' = true
                 ↔ st_configChanged st = true
                   ∨ fst (fst (NestedSlice existing [apiServerArgumentsPath; path]))
                     ≠ default [] (values !! path)).
  { subst st'. destruct (st_configChanged st) eqn:Hch; simpl; [split; [by left|done]|].
    destruct (NestedSlice _ _) as [[existingValue found] err]. simpl in *. subst err.
    unfold DeepEqual. case_bool_decide as Heq; simpl; rewrite ?Hch.
    - split; [done|]. by intros [?|?].
    - split; [by right|done]. }
  clearbody st'. rewrite <-Hst'.
  destruct (values !! path); simpl; [|done].
  by destruct (SetNestedSlice _ _ _) as [? [?|]].
Qed.

Lemma foldW_cons {A B} (f : A → B → W A) (a : A) (x : B) (l : list B) :
  foldW f a (x :: l) = bind (f a x) (λ a', foldW f a' l).
Proof. reflexivity. Qed.

Lemma foldW_mergeStep_changed existing values (ps : list string) (st : mergeState) :
  (∀ path, path ∈ ps →
     snd (NestedSlice existing [apiServerArgumentsPath; path]) = None) →
  st_configChanged (fst (foldW (mergeStep existing values) st ps)) = true
  ↔ st_configChanged st = true ∨ ∃ path, path ∈ ps ∧ argumentDiffers existing values path.
Proof.
  revert st. induction ps as [|p ps IH]; intros st Hread.
  { simpl. split; [by left|]. intros [?|(? & ?%elem_of_nil & _)]; done. }
  rewrite foldW_cons, bind_split. cbn [fst].
  rewrite IH by (intros; by apply Hread, list_elem_of_further).
  rewrite mergeStep_changed by apply Hread, list_elem_of_here.
  split.
  - intros [[?|?]|(path & Hin & Hd)]; [by left|right|right].
    + exists p. split; [apply list_elem_of_here|done].
    + exists path. split; [by apply list_elem_of_further|done].
  - intros [?|(path & [->|Hin]%elem_of_cons & Hd)]; [by left; left|by left; right|].
    right. eauto.
Qed.

(** X11 (change detection). On a valid OIDC resource whose mirror request does
    not fail, and with a readable existing config, the pass emits the event
    "ExternalOIDC configuration changed" exactly when, for some OIDC path, the
    slice in the existing config differs from the slice to configure, an
    absent one counting as empty. *)
Theorem change_event_iff_an_argument_differs (o : externalOIDC) (listers : Listers)
    (existingConfig : config) (auth : Authentication) (provider : OIDCProvider)
    (clientConfig : OIDCClientConfig) (values : gmap string (list value)) :
  gateEnabled o →
  AuthConfigLister_Get listers "cluster" = Ok auth →
  spec_Type (Spec auth) = AuthenticationTypeOIDC →
  OIDCProviders (Spec auth) = [provider] →
  getOIDCClientForComponent auth componentName TargetNamespace = Some clientConfig →
  oidcFieldValues url_Parse provider clientConfig = (values, []) →
  ResourceSyncer_SyncConfigMap listers caBundleTarget (caBundleSource provider) = None →
  oidcReadable existingConfig →
  configChangedEvent ∈ snd (ObserveExternalOIDC url_Parse o listers existingConfig)
  ↔ ∃ path, path ∈ oidcPaths ∧ argumentDiffers existingConfig values path.
Proof.
  intros Hgate Hauth Htype Hprov Hclient Hvalues Hsync Hread.
  enter_gate Hgate. rewrite Hauth, Htype. simpl.
  rewrite (observeExternalOIDC_valid _ _ _ _ _ _ _ Hprov Hclient Hvalues).
  assert (Hchanged : st_configChanged (mergeResult existingConfig values) = true
                     ↔ ∃ path, path ∈ oidcPaths ∧ argumentDiffers existingConfig values path).
  { unfold mergeResult. rewrite foldW_mergeStep_changed by done. simpl.
    split; [by intros [?|?]|by right]. }
  rewrite <-Hchanged.
  pose proof (syncCABundleIfNeeded_cases listers provider) as Hcases.
  simpl in Hcases. rewrite Hsync in Hcases.
  assert (Hlog : ∃ b log, syncCABundleIfNeeded listers provider = ((b, None), log)
                          ∧ configChangedEvent ∉ log).
  { destruct (cmNeedsSync _ _ _ _ _ _) as [[|] [e|]]; rewrite Hcases;
      do 2 eexists; (split; [done|]); rewrite ?not_elem_of_cons;
      repeat split; try discriminate; apply not_elem_of_nil. }
  destruct Hlog as (b & log & -> & Hlog). simpl.
  rewrite !elem_of_app.
  destruct (st_configChanged _), b; simpl; rewrite ?elem_of_cons, ?elem_of_nil;
    split; try done; try by auto.
  - intros [?|[[?|?]|?]]; done.
  - intros [?|[?|?]]; done.
Qed.

(** X12 (steady state). On a valid OIDC resource, when the CA bundle
    comparison reports the target in sync and the existing config is the
    fragment of the resource, the pass returns that same config without
    error, and does nothing else: no mirror request, no event. *)
Theorem steady_state_pass_is_silent (o : externalOIDC) (listers : Listers)
    (auth : Authentication) (provider : OIDCProvider)
    (clientConfig : OIDCClientConfig) (values : gmap string (list value)) :
  gateEnabled o →
  AuthConfigLister_Get listers "cluster" = Ok auth →
  spec_Type (Spec auth) = AuthenticationTypeOIDC →
  OIDCProviders (Spec auth) = [provider] →
  getOIDCClientForComponent auth componentName TargetNamespace = Some clientConfig →
  oidcFieldValues url_Parse provider clientConfig = (values, []) →
  cmNeedsSync listers TargetOIDCCAConfigMapName TargetNamespace
              (ref_Name (CertificateAuthority (Issuer provider)))
              caBundleSourceNamespace "ca-bundle.crt" = (false, None) →
  ObserveExternalOIDC url_Parse o listers (Some (oidcFragment values))
  = ((Some (oidcFragment values), []), []).
Proof.
  intros Hgate Hauth Htype Hprov Hclient Hvalues Hneeds.
  enter_gate Hgate. rewrite Hauth, Htype. simpl.
  rewrite (observeExternalOIDC_valid _ _ _ _ _ _ _ Hprov Hclient Hvalues).
  pose proof (syncCABundleIfNeeded_cases listers provider) as Hcases.
  simpl in Hcases. rewrite Hneeds in Hcases. rewrite Hcases.
  rewrite mergeResult_oidcFragment.
  by rewrite (mergeResult_readable _ _ (oidcFragment_readable values)).
Qed.

End PassProperties.

(** ** The mirror decision *)

(** X13 (no sync on error). Whatever the inputs, [cmNeedsSync] never returns
    needsSync=true together with an error. *)
Theorem cmNeedsSync_error_means_no_sync (listers : Listers)
    (destinationCMName destinationCMNamespace sourceCMName sourceCMNamespace key : string) :
  let r := cmNeedsSync listers destinationCMName destinationCMNamespace
                       sourceCMName sourceCMNamespace key in
  fst r = false ∨ snd r = None.
Proof.
  simpl. unfold cmNeedsSync.
  destruct (ConfigMapLister_Get listers destinationCMNamespace destinationCMName)
    as [existingCM|err]; [|by destruct (IsNotFound err); auto].
  destruct (String.length sourceCMName =? 0)%nat; [by right|].
  destruct (ConfigMapLister_Get listers sourceCMNamespace sourceCMName)
    as [sourceCM|err]; [|by left].
  destruct (String.length key =? 0)%nat; [by right|].
  destruct (Data existingCM !! key), (Data sourceCM !! key); auto.
Qed.

(** X14 (lookups of the mirror decision). If the target configmap is not
    found, a sync is needed, whatever the source. If the target exists and no
    source is named, a sync is needed, so that the deletion reaches the
    target. Any other failure to look up the target, and any failure to look
    up a named source, not-found included, is returned as the error, with
    needsSync=false. *)
Theorem cmNeedsSync_lookup_outcomes (listers : Listers)
    (destinationCMName destinationCMNamespace sourceCMName sourceCMNamespace key : string) :
  let r := cmNeedsSync listers destinationCMName destinationCMNamespace
                       sourceCMName sourceCMNamespace key in
  (∀ err, ConfigMapLister_Get listers destinationCMNamespace destinationCMName = Fail err →
          r = if IsNotFound err then (true, None) else (false, Some err))
  ∧ (∀ existingCM,
       ConfigMapLister_Get listers destinationCMNamespace destinationCMName = Ok existingCM →
       (sourceCMName = "" → r = (true, None))
       ∧ (∀ err, sourceCMName ≠ "" →
                 ConfigMapLister_Get listers sourceCMNamespace sourceCMName = Fail err →
                 r = (false, Some err))).
Proof.
  simpl. unfold cmNeedsSync. split.
  - intros err ->. done.
  - intros existingCM ->. split.
    + intros ->. done.
    + intros err Hname ->.
      destruct (String.length sourceCMName =? 0)%nat eqn:Hlen; [|done].
      by apply length_zero_iff in Hlen.
Qed.

(** X15 (comparison of the whole data). With both configmaps found, a named
    source and no comparison key, [cmNeedsSync] returns no error, and a sync
    is needed exactly when the data of the two configmaps differ. *)
Theorem cmNeedsSync_whole_data (listers : Listers)
    (destinationCMName destinationCMNamespace sourceCMName sourceCMNamespace : string)
    (existingCM sourceCM : ConfigMap) :
  ConfigMapLister_Get listers destinationCMNamespace destinationCMName = Ok existingCM →
  sourceCMName ≠ "" →
  ConfigMapLister_Get listers sourceCMNamespace sourceCMName = Ok sourceCM →
  let r := cmNeedsSync listers destinationCMName destinationCMNamespace
                       sourceCMName sourceCMNamespace "" in
  snd r = None ∧ (fst r = true ↔ Data existingCM ≠ Data sourceCM).
Proof.
  intros Hdst Hname Hsrc. simpl. unfold cmNeedsSync. rewrite Hdst.
  destruct (String.length sourceCMName =? 0)%nat eqn:Hlen.
  { by apply length_zero_iff in Hlen. }
  rewrite Hsrc. simpl. split; [done|].
  unfold DeepEqual. case_bool_decide; simpl; split; done.
Qed.

(** X16 (a mirrored bundle needs no sync). When the target and the named
    source configmap both hold the same certificate under [ca-bundle.crt],
    [syncCABundleIfNeeded] requests nothing and reports that nothing was
    synced, whatever else the two configmaps hold. *)
Theorem mirrored_bundle_is_left_alone (listers : Listers) (provider : OIDCProvider)
    (existingCM sourceCM : ConfigMap) (cert : string) :
  ref_Name (CertificateAuthority (Issuer provider)) ≠ "" →
  ConfigMapLister_Get listers TargetNamespace TargetOIDCCAConfigMapName = Ok existingCM →
  ConfigMapLister_Get listers caBundleSourceNamespace
                      (ref_Name (CertificateAuthority (Issuer provider))) = Ok sourceCM →
  Data existingCM !! "ca-bundle.crt" = Some cert →
  Data sourceCM !! "ca-bundle.crt" = Some cert →
  syncCABundleIfNeeded listers provider = ((false, None), []).
Proof.
  intros Hname Hdst Hsrc Hc1 Hc2.
  pose proof (syncCABundleIfNeeded_cases listers provider) as Hcases. simpl in Hcases.
  assert (Hneeds : cmNeedsSync listers TargetOIDCCAConfigMapName TargetNamespace
                     (ref_Name (CertificateAuthority (Issuer provider)))
                     caBundleSourceNamespace "ca-bundle.crt" = (false, None)).
  { unfold cmNeedsSync. rewrite Hdst.
    destruct (String.length _ =? 0)%nat eqn:Hlen.
    { by apply length_zero_iff in Hlen. }
    rewrite Hsrc. simpl. rewrite Hc1, Hc2. by rewrite String.eqb_refl. }
  by rewrite Hneeds in Hcases.
Qed.

(** ** Existing OIDC arguments *)

Lemma oidcConfigExistsIn_readable (cfg : config) (paths : list string) :
  (∀ path, path ∈ paths →
     snd (NestedSlice cfg [apiServerArgumentsPath; path]) = None) →
  snd (oidcConfigExistsIn cfg paths) = None
  ∧ (fst (oidcConfigExistsIn cfg paths) = true
     ↔ ∃ path, path ∈ paths
               ∧ snd (fst (NestedSlice cfg [apiServerArgumentsPath; path])) = true).
Proof.
  induction paths as [|p paths IH]; intros Hread.
  { simpl. split; [done|]. split; [done|]. by intros (? & ?%elem_of_nil & _). }
  cbn [oidcConfigExistsIn].
  pose proof (Hread p (list_elem_of_here _ _)) as Hp.
  destruct (NestedSlice cfg [apiServerArgumentsPath; p]) as [[l found] err] eqn:Hslice.
  simpl in Hp. subst err.
  destruct found.
  - simpl. split; [done|]. split; [|done]. intros _. exists p.
    split; [apply list_elem_of_here|]. by rewrite Hslice.
  - destruct IH as [IH1 IH2]; [intros; by apply Hread, list_elem_of_further|].
    split; [done|]. rewrite IH2. split.
    + intros (path & Hin & Hf). exists path. split; [by apply list_elem_of_further|done].
    + intros (path & [->|Hin]%elem_of_cons & Hf); [by rewrite Hslice in Hf|eauto].
Qed.

(** X17 (existing OIDC arguments). On a config whose OIDC arguments are
    readable, [oidcConfigExists] returns no error, and answers true exactly
    when one of the OIDC paths is present in the config. *)
Theorem oidcConfigExists_iff_some_path_present (cfg : config) :
  oidcReadable cfg →
  snd (oidcConfigExists cfg) = None
  ∧ (fst (oidcConfigExists cfg) = true
     ↔ ∃ path, path ∈ oidcPaths
               ∧ snd (fst (NestedSlice cfg [apiServerArgumentsPath; path])) = true).
Proof. apply oidcConfigExistsIn_readable. Qed.

Section SwitchProperties.

Variable url_Parse : string → result url_URL.

(** X18 (switch to another authentication type). With the gate enabled and
    the type IntegratedOAuth, None or empty, the pass first requests the
    deletion of the CA bundle target. If that request fails, its error comes
    back with the existing config and no event. If it succeeds and the
    existing config holds no OIDC argument, the pass returns a nil tree and
    emits no event. If the existing config cannot be read, the read error
    comes back with the existing config, the deletion having been
    requested. *)
Theorem type_switch_requests_the_deletion_first (o : externalOIDC) (listers : Listers)
    (existingConfig : config) (auth : Authentication) :
  gateEnabled o →
  AuthConfigLister_Get listers "cluster" = Ok auth →
  spec_Type (Spec auth) ∈ [AuthenticationTypeIntegratedOAuth; AuthenticationTypeNone; ""] →
  let r := ObserveExternalOIDC url_Parse o listers existingConfig in
  match ResourceSyncer_SyncConfigMap listers caBundleTarget {| Namespace := ""; Name := "" |},
        oidcConfigExists existingConfig with
  | Some syncErr, _ => r = ((existingConfig, [syncErr]), [caBundleDeletion])
  | None, (_, Some readErr) => r = ((existingConfig, [readErr]), [caBundleDeletion])
  | None, (false, None) => r = ((None, []), [caBundleDeletion])
  | None, (true, None) => r = ((None, []), [caBundleDeletion; configRemovedEvent])
  end.
Proof.
  intros Hgate Hauth Htype. simpl. enter_gate Hgate. rewrite Hauth.
  assert (Hsw : String.eqb (spec_Type (Spec auth)) AuthenticationTypeIntegratedOAuth
                || String.eqb (spec_Type (Spec auth)) AuthenticationTypeNone
                || String.eqb (spec_Type (Spec auth)) "" = true).
  { rewrite !elem_of_cons in Htype. destruct Htype as [->|[->|[->|Hnil]]]; try done.
    by apply elem_of_nil in Hnil. }
  rewrite Hsw. unfold requestSyncConfigMap, bind. fold caBundleTarget.
  destruct (ResourceSyncer_SyncConfigMap _ _ _); [done|].
  by destruct (oidcConfigExists existingConfig) as [[|] [e|]].
Qed.

End SwitchProperties.

(** ** The later revision of the OIDC observer *)


(** X20 (retracting the structured config). With the gate enabled and a type
    other than OIDC, the later revision returns a nil tree without touching
    anything when the target configmap is not found; when the target exists,
    it requests its deletion and, if the request succeeds, emits the deletion
    event and returns a nil tree; if the request fails, that error comes back
    with the existing config and no event. *)
Theorem structured_config_is_retracted (o : externalOIDC) (listers : Listers)
    (existingConfig : config) (auth : Authentication) :
  gateEnabled o →
  AuthConfigLister_Get listers "cluster" = Ok auth →
  spec_Type (Spec auth) ≠ AuthenticationTypeOIDC →
  let r := StructuredAuth.ObserveExternalOIDC o listers existingConfig in
  let deletion := SyncConfigMap authConfigTarget {| Namespace := ""; Name := "" |} in
  match ConfigMapLister_Get listers TargetNamespace StructuredAuth.AuthConfigCMName with
  | Fail err =>
    if IsNotFound err then r = ((None, []), [])
    else ∃ wrapped, r = ((existingConfig, [wrapped]), [])
  | Ok _ =>
    match ResourceSyncer_SyncConfigMap listers authConfigTarget
                                       {| Namespace := ""; Name := "" |} with
    | None => r = ((None, []), [deletion; authConfigDeletedEvent])
    | Some syncErr => r = ((existingConfig, [syncErr]), [deletion])
    end
  end.
Proof.
  intros Hgate Hauth Htype. cbv zeta.
  destruct Hgate as (Hobs & featureGates & Hfg & Hen).
  unfold StructuredAuth.ObserveExternalOIDC.
  rewrite Hobs, Hfg. simpl. rewrite Hen. simpl. rewrite Hauth.
  apply String.eqb_neq in Htype. rewrite Htype. simpl.
  destruct (ConfigMapLister_Get listers TargetNamespace StructuredAuth.AuthConfigCMName)
    as [targetAuthConfig|err].
  - unfold StructuredAuth.syncConfigMap, requestSyncConfigMap, bind.
    fold authConfigTarget. by destruct (ResourceSyncer_SyncConfigMap _ _ _).
  - destruct (IsNotFound err); [done|eauto].
Qed.

(** X21 (unusable source). With the gate enabled and the type OIDC, if the
    source configmap is not found the later revision returns the existing
    config without error; if the source has no [auth-config.json] or an empty
    one, it returns the existing config with one error. In both cases it
    emits no event and requests no mirror. *)
Theorem structured_config_needs_a_usable_source (o : externalOIDC) (listers : Listers)
    (existingConfig : config) (auth : Authentication) :
  gateEnabled o →
  AuthConfigLister_Get listers "cluster" = Ok auth →
  spec_Type (Spec auth) = AuthenticationTypeOIDC →
  let r := StructuredAuth.ObserveExternalOIDC o listers existingConfig in
  (∀ err, ConfigMapLister_Get listers StructuredAuth.SourceAuthConfigCMNamespace
                              StructuredAuth.AuthConfigCMName = Fail err →
          IsNotFound err = true → r = ((existingConfig, []), []))
  ∧ (∀ sourceAuthConfig,
       ConfigMapLister_Get listers StructuredAuth.SourceAuthConfigCMNamespace
                           StructuredAuth.AuthConfigCMName = Ok sourceAuthConfig →
       default "" (Data sourceAuthConfig !! StructuredAuth.authConfigKeyName) = "" →
       ∃ err, r = ((existingConfig, [err]), [])).
Proof.
  intros Hgate Hauth Htype. cbv zeta.
  destruct Hgate as (Hobs & featureGates & Hfg & Hen).
  unfold StructuredAuth.ObserveExternalOIDC.
  rewrite Hobs, Hfg. simpl. rewrite Hen. simpl. rewrite Hauth, Htype. simpl. split.
  - intros err -> ->. done.
  - intros sourceAuthConfig -> ->. simpl. eauto.
Qed.

(** ** The RoleBindingRestriction observer, continued *)


(** X22 (missing authentication resource). When the authentication resource
    is not found, the RoleBindingRestriction observer returns an empty tree,
    not the existing config, with no error, and records one event. *)
Theorem rbr_absent_resource_clears_the_fragment (listers : Listers)
    (existingConfig : config) (err : error) :
  AuthConfigLister_Get listers "cluster" = Fail err →
  IsNotFound err = true →
  ObserveRoleBindingRestrictionPlugins listers existingConfig
  = ((Some ∅, []),
     [Eventf "ObserveRoleBindingRestrictions"
             "authentications.config.openshift.io/cluster: not found" []]).
Proof.
  intros Hauth Hnf.
  unfold ObserveRoleBindingRestrictionPlugins, observeRoleBindingRestrictionPlugins.
  by rewrite Hauth, Hnf.
Qed.

(** X23 (idempotence of the RoleBindingRestriction observer). With an
    authentication type other than IntegratedOAuth and empty, and a readable
    existing sequence, running the observer again on what it returned gives
    the same result: the sorted union already contains the two plugins. *)
Theorem rbr_observer_is_idempotent (listers : Listers) (existingConfig : config)
    (auth : Authentication) (disabled : list string) (found : bool) :
  AuthConfigLister_Get listers "cluster" = Ok auth →
  spec_Type (Spec auth) ≠ AuthenticationTypeIntegratedOAuth →
  spec_Type (Spec auth) ≠ "" →
  NestedStringSlice existingConfig disableAdmissionPluginsPath = (disabled, found, None) →
  let r := ObserveRoleBindingRestrictionPlugins listers existingConfig in
  ObserveRoleBindingRestrictionPlugins listers (fst (fst r)) = r.
Proof.
  intros Hauth Hoauth Hempty Hslice r. subst r.
  rewrite (ObserveRoleBindingRestrictionPlugins_disables _ _ _ _ _ Hauth Hoauth Hempty Hslice).
  cbn [fst].
  rewrite (ObserveRoleBindingRestrictionPlugins_disables _ _ _ _ true Hauth Hoauth Hempty
             (NestedStringSlice_disabled _)).
  assert (Hset : Insert (NewString (List (Insert (NewString disabled) rbrPlugins))) rbrPlugins
                 = Insert (NewString disabled) rbrPlugins); [|by rewrite Hset].
  apply set_eq. intros x. unfold Insert at 1 3, NewString at 1 3.
  rewrite !elem_of_union, !elem_of_list_to_set, elem_of_disabledSet. tauto.
Qed.


Lemma gatesOn_enabled : gateEnabled gatesOn.
Proof. split; [reflexivity|]. eexists. split; reflexivity. Qed.

(** The resource of the tests, with its CA bundle already mirrored. *)
Lemma optional_fields_witness :
  let fragment :=
    fst (fst (ObserveExternalOIDC url_Parse_scheme gatesOn
                (baseListers (Some "some-cert") "some-cert" None) None)) in
  let argument path := NestedSlice fragment [apiServerArgumentsPath; path] in
  argument oidcUsernameClaimPath = ([VString "username"], true, None)
  ∧ argument oidcGroupsClaimPath = ([VString "groups"], true, None)
  ∧ argument oidcGroupsPrefixPath = ([VString "oidc-group:"], true, None)
  ∧ argument oidcCAFilePath = ([VString staticCABundleFilePath], true, None)
  ∧ argument oidcUsernamePrefixPath = ([VString "oidc-user:"], true, None).
Proof.
  apply (optional_fields_are_set_or_left_out url_Parse_scheme gatesOn
           (baseListers (Some "some-cert") "some-cert" None) None
           baseAuthResource baseProvider baseClient gatesOn_enabled).
  - reflexivity.
  - reflexivity.
  - reflexivity.
  - reflexivity.
  - vm_compute. reflexivity.
  - reflexivity.
Defined.

Lemma required_claims_witness :
  ∃ requiredClaims,
    RequiredClaim <$> ClaimValidationRules baseProvider = Some <$> requiredClaims
    ∧ NestedSlice
        (fst (fst (ObserveExternalOIDC url_Parse_scheme gatesOn
                     (baseListers (Some "some-cert") "some-cert" None) None)))
        [apiServerArgumentsPath; oidcRequiredClaimPath]
      = published
          (match requiredClaims with
           | [] => None
           | _ => Some ((λ requiredClaim,
                           VString (required_Claim requiredClaim +:+ "=" +:+
                                    RequiredValue requiredClaim)) <$> requiredClaims)
           end).
Proof.
  apply (required_claims_are_rendered_in_order url_Parse_scheme gatesOn
           (baseListers (Some "some-cert") "some-cert" None) None
           baseAuthResource baseProvider baseClient gatesOn_enabled).
  - reflexivity.
  - reflexivity.
  - reflexivity.
  - reflexivity.
  - vm_compute. reflexivity.
  - reflexivity.
Defined.

(** The case "new valid OIDC config" of the tests, evaluated. *)
Example required_claims_of_the_tests :
  NestedSlice
    (fst (fst (ObserveExternalOIDC url_Parse_scheme gatesOn
                 (baseListers None "some-cert" None) None)))
    [apiServerArgumentsPath; oidcRequiredClaimPath]
  = ([VString "username=test"; VString "email=test"], true, None).
Proof. vm_compute. reflexivity. Qed.

Lemma change_event_witness :
  configChangedEvent
  ∈ snd (ObserveExternalOIDC url_Parse_scheme gatesOn
           (baseListers (Some "some-cert") "some-cert" None) None).
Proof.
  apply (proj2 (change_event_iff_an_argument_differs url_Parse_scheme gatesOn
                  (baseListers (Some "some-cert") "some-cert" None) None
                  baseAuthResource baseProvider baseClient
                  (fst (oidcFieldValues url_Parse_scheme baseProvider baseClient))
                  gatesOn_enabled eq_refl eq_refl eq_refl eq_refl
                  ltac:(vm_compute; reflexivity) eq_refl
                  ltac:(intros path _; reflexivity))).
  exists oidcIssuerURLPath. split; [apply list_elem_of_here|].
  unfold argumentDiffers. vm_compute. discriminate.
Defined.

(** The case "no change in OIDC config" of the tests. *)
Lemma steady_state_witness :
  ObserveExternalOIDC url_Parse_scheme gatesOn
    (baseListers (Some "some-cert") "some-cert" None) (Some baseConfig)
  = ((Some baseConfig, []), []).
Proof.
  pose proof (steady_state_pass_is_silent url_Parse_scheme gatesOn
                (baseListers (Some "some-cert") "some-cert" None)
                baseAuthResource baseProvider baseClient
                (fst (oidcFieldValues url_Parse_scheme baseProvider baseClient))
                gatesOn_enabled eq_refl eq_refl eq_refl eq_refl
                ltac:(vm_compute; reflexivity) ltac:(vm_compute; reflexivity)) as H.
  assert (Hfragment : oidcFragment (fst (oidcFieldValues url_Parse_scheme baseProvider
                                           baseClient)) = baseConfig)
    by (vm_compute; reflexivity).
  rewrite Hfragment in H. exact H.
Defined.

(** The case "configmap data values different" of [TestCMNeedsSync]. *)
Lemma whole_data_witness :
  cmNeedsSync cmListers "cm1" "ns1" "cm2" "ns2" "" = (true, None).
Proof.
  destruct (cmNeedsSync_whole_data cmListers "cm1" "ns1" "cm2" "ns2"
              (caBundle "ns1" "cm1" {[ "keyA" := "aaa"; "keyB" := "bbb"; "key1" := "val1" ]})
              (caBundle "ns2" "cm2" {[ "keyA" := "aaa"; "keyB" := "bbbbbb"; "key2" := "val2" ]})
              eq_refl ltac:(discriminate) eq_refl) as [Herr Hsync].
  destruct (cmNeedsSync cmListers "cm1" "ns1" "cm2" "ns2" "") as [needsSync err].
  simpl in Herr, Hsync. subst err. f_equal. apply Hsync.
  vm_compute. discriminate.
Defined.

(** The cases "configmap1 not found", "configmap2 not found" and an unnamed
    source, after [TestCMNeedsSync]. *)
Lemma lookup_outcomes_witness :
  cmNeedsSync cmListers "not found" "ns1" "cm2" "ns2" "" = (true, None)
  ∧ cmNeedsSync cmListers "cm1" "ns1" "" "ns2" "" = (true, None)
  ∧ cmNeedsSync cmListers "cm1" "ns1" "not found" "ns2" ""
    = (false, Some (notFound "not found")).
Proof.
  split; [|split].
  - apply (proj1 (cmNeedsSync_lookup_outcomes cmListers "not found" "ns1" "cm2" "ns2" "")
             (notFound "not found")).
    reflexivity.
  - apply (proj2 (cmNeedsSync_lookup_outcomes cmListers "cm1" "ns1" "" "ns2" "")
             (caBundle "ns1" "cm1" {[ "keyA" := "aaa"; "keyB" := "bbb"; "key1" := "val1" ]})
             eq_refl).
    reflexivity.
  - apply (proj2 (cmNeedsSync_lookup_outcomes cmListers "cm1" "ns1" "not found" "ns2" "")
             (caBundle "ns1" "cm1" {[ "keyA" := "aaa"; "keyB" := "bbb"; "key1" := "val1" ]})
             eq_refl).
    + discriminate.
    + reflexivity.
Defined.

Lemma mirrored_bundle_witness :
  syncCABundleIfNeeded (baseListers (Some "some-cert") "some-cert" None) baseProvider
  = ((false, None), []).
Proof.
  apply (mirrored_bundle_is_left_alone (baseListers (Some "some-cert") "some-cert" None)
           baseProvider
           (caBundle TargetNamespace TargetOIDCCAConfigMapName
                     {[ "ca-bundle.crt" := "some-cert" ]})
           (caBundle caBundleSourceNamespace "oidc-ca-bundle"
                     {[ "ca-bundle.crt" := "some-cert" ]})
           "some-cert").
  - discriminate.
  - reflexivity.
  - reflexivity.
  - reflexivity.
  - reflexivity.
Defined.

Lemma oidcConfigExists_witness :
  snd (oidcConfigExists (Some scenarioFragment)) = None
  ∧ (fst (oidcConfigExists (Some scenarioFragment)) = true
     ↔ ∃ path, path ∈ oidcPaths
               ∧ snd (fst (NestedSlice (Some scenarioFragment)
                             [apiServerArgumentsPath; path])) = true).
Proof.
  apply (oidcConfigExists_iff_some_path_present (Some scenarioFragment)
           scenarioFragment_readable).
Defined.

(** The case "auth type is IntegratedOAuth" of the tests. *)
Lemma type_switch_witness :
  ObserveExternalOIDC url_Parse_scheme gatesOn listersIntegratedOAuth None
  = ((None, []), [caBundleDeletion]).
Proof.
  apply (type_switch_requests_the_deletion_first url_Parse_scheme gatesOn
           listersIntegratedOAuth None (authOfType AuthenticationTypeIntegratedOAuth)
           gatesOn_enabled eq_refl).
  apply list_elem_of_here.
Defined.


Lemma structured_retraction_witness :
  StructuredAuth.ObserveExternalOIDC gatesOn
    (authConfigListers AuthenticationTypeIntegratedOAuth None (Some "{}"))
    (Some authConfigFragment)
  = ((None, []),
     [SyncConfigMap authConfigTarget {| Namespace := ""; Name := "" |};
      authConfigDeletedEvent]).
Proof.
  apply (structured_config_is_retracted gatesOn
           (authConfigListers AuthenticationTypeIntegratedOAuth None (Some "{}"))
           (Some authConfigFragment) (authOfType AuthenticationTypeIntegratedOAuth)
           gatesOn_enabled eq_refl).
  discriminate.
Defined.

Lemma structured_source_witness :
  StructuredAuth.ObserveExternalOIDC gatesOn
    (authConfigListers AuthenticationTypeOIDC None None) (Some authConfigFragment)
  = ((Some authConfigFragment, []), []).
Proof.
  apply (proj1 (structured_config_needs_a_usable_source gatesOn
                  (authConfigListers AuthenticationTypeOIDC None None)
                  (Some authConfigFragment) (authOfType AuthenticationTypeOIDC)
                  gatesOn_enabled eq_refl eq_refl)
               (notFound StructuredAuth.AuthConfigCMName));
    reflexivity.
Defined.

(** The case "auth resource not found" of the tests. *)
Lemma rbr_absent_witness :
  ObserveRoleBindingRestrictionPlugins listersNoAuth (Some {[ "key" := VString "value" ]})
  = ((Some ∅, []),
     [Eventf "ObserveRoleBindingRestrictions"
             "authentications.config.openshift.io/cluster: not found" []]).
Proof.
  apply (rbr_absent_resource_clears_the_fragment listersNoAuth
           (Some {[ "key" := VString "value" ]}) (notFound "cluster"));
    reflexivity.
Defined.

Lemma rbr_idempotent_witness :
  let r := ObserveRoleBindingRestrictionPlugins listersOIDCType
             (newTestConfig ["off2"; "off1"]) in
  ObserveRoleBindingRestrictionPlugins listersOIDCType (fst (fst r)) = r.
Proof.
  apply (rbr_observer_is_idempotent listersOIDCType (newTestConfig ["off2"; "off1"])
           (authOfType AuthenticationTypeOIDC) ["off2"; "off1"] true).
  - reflexivity.
  - discriminate.
  - discriminate.
  - vm_compute. reflexivity.
Defined.

